(** * YourDr frontend: the upload / predict / cache controller of [app.js]

    A shallow embedding of [src/frontend/assets/js/app.js] together with the
    parts of the JavaScript platform the script relies on: IEEE-754 binary64
    numbers with [Number.prototype.toFixed] and [Number::toString], JSON
    values with [JSON.stringify] and [JSON.parse], a DOM store, [localStorage],
    [fetch], timers and the console. *)

From Stdlib Require Import ZArith String Ascii List Lia Bool.
From stdpp Require Import gmap strings.

Local Open Scope Z_scope.

#[local] Arguments String.append : simpl nomatch.

(** ** Numbers: IEEE-754 binary64 *)

(** A JavaScript number.  [Finite neg m e] denotes [(-1)^neg * m * 2^e]. *)
Inductive number :=
| NaN
| Infinity (neg : bool)
| Zero (neg : bool)
| Finite (neg : bool) (m : positive) (e : Z).

(** The mantissa/exponent pairs that are binary64 values: normal numbers have a
    53-bit mantissa, subnormal ones the least exponent. *)
Definition canonical (m : positive) (e : Z) : Prop :=
  (2 ^ 52 <= Zpos m < 2 ^ 53 /\ -1074 <= e <= 971) \/
  (Zpos m < 2 ^ 52 /\ e = -1074).

Definition wf_number (x : number) : Prop :=
  match x with
  | Finite _ m e => canonical m e
  | _ => True
  end.

Definition is_finite (x : number) : bool :=
  match x with
  | Zero _ | Finite _ _ _ => true
  | _ => false
  end.

Definition number_eqb (x y : number) : bool :=
  match x, y with
  | NaN, NaN => true
  | Infinity a, Infinity b => Bool.eqb a b
  | Zero a, Zero b => Bool.eqb a b
  | Finite a m e, Finite b m' e' => Bool.eqb a b && Pos.eqb m m' && Z.eqb e e'
  | _, _ => false
  end.

(** [p / q < 2 ^ l], for positive [p] and [q] and any integer [l]. *)
Definition ratio_lt_pow2 (p q l : Z) : bool :=
  p * 2 ^ Z.max (- l) 0 <? q * 2 ^ Z.max l 0.

(** [floor (log2 (p / q))] for positive [p] and [q]. *)
Definition ilog2_ratio (p q : Z) : Z :=
  let l := Z.log2 p - Z.log2 q in
  if ratio_lt_pow2 p q l then l - 1 else l.

(** The binary64 value nearest to [p / q] (positive [p], [q]), ties to the even
    mantissa; overflow gives an infinity, underflow a zero. *)
Definition round_ratio (neg : bool) (p q : Z) : number :=
  let e := Z.max (-1074) (ilog2_ratio p q - 52) in
  let num := p * 2 ^ Z.max (- e) 0 in
  let den := q * 2 ^ Z.max e 0 in
  let quo := num / den in
  let r := num mod den in
  let m := if (den <? 2 * r) || ((den =? 2 * r) && Z.odd quo)
           then quo + 1 else quo in
  let '(m, e) := if m =? 2 ^ 53 then (2 ^ 52, e + 1) else (m, e) in
  if m =? 0 then Zero neg
  else if 971 <? e then Infinity neg
  else Finite neg (Z.to_pos m) e.

(** The number a decimal literal with digits [M] and exponent [E] denotes,
    that is the binary64 value nearest to [M * 10 ^ E]. *)
Definition of_decimal (neg : bool) (M E : Z) : number :=
  if M <=? 0 then Zero neg
  else if 0 <=? E then round_ratio neg (M * 10 ^ E) 1
  else round_ratio neg M (10 ^ (- E)).

(** *** Decimal digit strings *)

Definition digit_char (d : Z) : ascii := ascii_of_N (48 + Z.to_N d).

Fixpoint decimal_aux (fuel : nat) (n : Z) (acc : string) : string :=
  match fuel with
  | O => acc
  | S fuel' =>
      let acc' := String (digit_char (n mod 10)) acc in
      if n <? 10 then acc' else decimal_aux fuel' (n / 10) acc'
  end.

(** The decimal representation of a natural number, no leading zeros. *)
Definition decimal_string (n : Z) : string :=
  decimal_aux (S (Z.to_nat (Z.log2 n))) n "".

Fixpoint zeros (n : nat) : string :=
  match n with
  | O => ""
  | S n' => String "0" (zeros n')
  end.

Fixpoint string_take (n : nat) (s : string) : string :=
  match n, s with
  | S n', String c s' => String c (string_take n' s')
  | _, _ => ""
  end.

Fixpoint string_drop (n : nat) (s : string) : string :=
  match n, s with
  | S n', String _ s' => string_drop n' s'
  | _, _ => s
  end.

(** *** Number::toString (ECMA-262 6.1.6.1.20) *)

(** [floor (m * 2^e / 10^E)] and the remainder's numerator and denominator. *)
Definition scaled_num (m : positive) (e E : Z) : Z :=
  Zpos m * 2 ^ Z.max e 0 * 10 ^ Z.max (- E) 0.
Definition scaled_den (e E : Z) : Z :=
  2 ^ Z.max (- e) 0 * 10 ^ Z.max E 0.

Fixpoint first_from (fuel : nat) (j : Z) (test : Z -> bool) : Z :=
  match fuel with
  | O => j
  | S fuel' => if test j then j else first_from fuel' (j + 1) test
  end.

(** The [n] with [10 ^ (n - 1) <= m * 2 ^ e < 10 ^ n]. *)
Definition decimal_exponent (m : positive) (e : Z) : Z :=
  let P := scaled_num m e 0 in
  let Q := scaled_den e 0 in
  if Q <=? P then first_from 400 1 (fun j => P <? Q * 10 ^ j)
  else - first_from 400 0 (fun j => Q <=? P * 10 ^ (j + 1)).

(** Does the decimal [s * 10 ^ E] read back as [m * 2 ^ e]? *)
Definition reads_back (m : positive) (e : Z) (c : Z * Z) : bool :=
  number_eqb (of_decimal false (fst c) (snd c)) (Finite false m e).

(** The [k]-digit decimals next to [m * 2 ^ e] that read back as it; of two,
    the closer one, and of two equally close ones, the even one. *)
Definition digits_at (m : positive) (e n0 k : Z) : option (Z * Z) :=
  let E := n0 - k in
  let P := scaled_num m e E in
  let Q := scaled_den e E in
  let lo := P / Q in
  let r := P mod Q in
  let c_lo := (lo, E) in
  let c_hi := if lo + 1 =? 10 ^ k then (1, n0) else (lo + 1, E) in
  let ok_lo := (0 <? lo) && reads_back m e c_lo in
  let ok_hi := reads_back m e c_hi in
  match ok_lo, ok_hi with
  | true, true =>
      Some (if (2 * r <? Q) || ((2 * r =? Q) && Z.even lo) then c_lo else c_hi)
  | true, false => Some c_lo
  | false, true => Some c_hi
  | false, false => None
  end.

Fixpoint find_digits (fuel : nat) (m : positive) (e n0 k : Z) : option (Z * Z) :=
  match fuel with
  | O => None
  | S fuel' =>
      match digits_at m e n0 k with
      | Some c => Some c
      | None => find_digits fuel' m e n0 (k + 1)
      end
  end.

(** The digits [s] and exponent [E] with [k] as small as possible such that
    [s * 10 ^ E] reads back as the number.  Seventeen digits always do; the
    bound of the search is the length of the longest exact expansion. *)
Definition shortest_digits (m : positive) (e : Z) : option (Z * Z) :=
  find_digits 1500 m e (decimal_exponent m e) 1.

Definition exponent_part (n : Z) : string :=
  "e" +:+ (if 0 <=? n - 1 then "+" else "-") +:+ decimal_string (Z.abs (n - 1)).

(** Steps 6 to 10 of Number::toString: [ds] are the digits of [s], [n] the
    position of the decimal point. *)
Definition format_digits (ds : string) (n : Z) : string :=
  let k := Z.of_nat (String.length ds) in
  if (k <=? n) && (n <=? 21) then ds +:+ zeros (Z.to_nat (n - k))
  else if (0 <? n) && (n <=? 21) then
    string_take (Z.to_nat n) ds +:+ "." +:+ string_drop (Z.to_nat n) ds
  else if (-6 <? n) && (n <=? 0) then "0." +:+ zeros (Z.to_nat (- n)) +:+ ds
  else if k =? 1 then ds +:+ exponent_part n
  else string_take 1 ds +:+ "." +:+ string_drop 1 ds +:+ exponent_part n.

Definition Number_toString (x : number) : string :=
  match x with
  | NaN => "NaN"
  | Infinity false => "Infinity"
  | Infinity true => "-Infinity"
  | Zero _ => "0"
  | Finite neg m e =>
      (if neg then "-" else "") +:+
      match shortest_digits m e with
      | Some (s, E) =>
          let ds := decimal_string s in
          format_digits ds (E + Z.of_nat (String.length ds))
      | None => ""
      end
  end.

(** *** Number.prototype.toFixed(1) (ECMA-262 21.1.3.3) *)

(** The integer [n] for which [n / 10 - m * 2 ^ e] is as close to zero as
    possible, the larger one of two. *)
Definition nearest_tenths (m : positive) (e : Z) : Z :=
  (2 * scaled_num m e (-1) + scaled_den e (-1)) / (2 * scaled_den e (-1)).

Definition fixed1_digits (n : Z) : string :=
  let m := decimal_string n in
  let m := if (String.length m <=? 1)%nat then "0" +:+ m else m in
  let k := String.length m in
  string_take (k - 1) m +:+ "." +:+ string_drop (k - 1) m.

Definition toFixed1 (x : number) : string :=
  match x with
  | NaN | Infinity _ => Number_toString x
  | Zero _ => "0.0"
  | Finite neg m e =>
      if scaled_den e 0 * 10 ^ 21 <=? scaled_num m e 0 then Number_toString x
      else (if neg then "-" else "") +:+ fixed1_digits (nearest_tenths m e)
  end.

(** Number::equal, the comparison [===] makes on two numbers. *)
Definition Number_equal (x y : number) : bool :=
  match x, y with
  | NaN, _ | _, NaN => false
  | Zero _, Zero _ => true
  | _, _ => number_eqb x y
  end.

(** ** JavaScript values and exceptions *)

(** Strings are sequences of code units; the model keeps the code units
    0 to 255, one [ascii] each. *)

Inductive error :=
| TypeError (msg : string)
| SyntaxError (msg : string)
| Error (msg : string)
| DOMException (name : string).

Inductive outcome (A : Type) :=
| Ok (a : A)
| Throw (e : error).
Arguments Ok {A} a.
Arguments Throw {A} e.

(** The values [JSON.parse] builds, and [undefined].  An object lists its own
    properties in property order. *)
Unset Elimination Schemes.
Inductive value :=
| VUndefined
| VNull
| VBool (b : bool)
| VNum (x : number)
| VStr (s : string)
| VArr (items : list value)
| VObj (props : list (string * value)).
Set Elimination Schemes.

Definition is_digit (c : ascii) : bool :=
  let n := N_of_ascii c in ((48 <=? n) && (n <=? 57))%N.

Definition digit_value (c : ascii) : Z := Z.of_N (N_of_ascii c) - 48.

Fixpoint digits_value (acc : Z) (s : string) : Z :=
  match s with
  | EmptyString => acc
  | String c s' => digits_value (10 * acc + digit_value c) s'
  end.

Fixpoint all_digits (s : string) : bool :=
  match s with
  | EmptyString => true
  | String c s' => is_digit c && all_digits s'
  end.

(** An array index is a canonical numeric string below [2^32 - 1]. *)
Definition array_index (k : string) : option Z :=
  match k with
  | EmptyString => None
  | _ =>
      let n := digits_value 0 k in
      if all_digits k && String.eqb (decimal_string n) k && (n <? 2 ^ 32 - 1)
      then Some n else None
  end.

Fixpoint lookup_prop (k : string) (props : list (string * value)) : option value :=
  match props with
  | [] => None
  | (k', v) :: rest => if String.eqb k' k then Some v else lookup_prop k rest
  end.

Fixpoint replace_prop (k : string) (v : value) (props : list (string * value))
  : list (string * value) :=
  match props with
  | [] => []
  | (k', v') :: rest =>
      if String.eqb k' k then (k', v) :: rest else (k', v') :: replace_prop k v rest
  end.

(** Property order (OrdinaryOwnPropertyKeys): array indices ascending, then the
    other keys in the order they were created. *)
Fixpoint insert_index (i : Z) (k : string) (v : value) (props : list (string * value))
  : list (string * value) :=
  match props with
  | [] => [(k, v)]
  | (k', v') :: rest =>
      match array_index k' with
      | Some j => if j <? i then (k', v') :: insert_index i k v rest
                  else (k, v) :: (k', v') :: rest
      | None => (k, v) :: (k', v') :: rest
      end
  end.

(** CreateDataProperty on an ordinary object. *)
Definition obj_set (k : string) (v : value) (props : list (string * value))
  : list (string * value) :=
  match lookup_prop k props with
  | Some _ => replace_prop k v props
  | None =>
      match array_index k with
      | Some i => insert_index i k v props
      | None => props ++ [(k, v)]
      end
  end.

Definition number_of_nat (n : nat) : number := of_decimal false (Z.of_nat n) 0.

Definition string_at (s : string) (i : nat) : value :=
  match String.get i s with
  | Some c => VStr (String c "")
  | None => VUndefined
  end.

(** [v.k] for the keys the script reads ([predicted_class], [confidence],
    [probabilities], [Covid], [Pneumonia], [Normal], [model_loaded]): none of
    them is a property of a built-in prototype, so only own properties and the
    [length] of arrays and strings answer. *)
Definition get (v : value) (k : string) : outcome value :=
  match v with
  | VUndefined | VNull =>
      Throw (TypeError ("Cannot read properties of null or undefined, reading " +:+ k))
  | VBool _ | VNum _ => Ok VUndefined
  | VStr s =>
      match array_index k with
      | Some i => Ok (string_at s (Z.to_nat i))
      | None =>
          Ok (if String.eqb k "length" then VNum (number_of_nat (String.length s))
              else VUndefined)
      end
  | VArr items =>
      match array_index k with
      | Some i => Ok (nth (Z.to_nat i) items VUndefined)
      | None =>
          Ok (if String.eqb k "length" then VNum (number_of_nat (length items))
              else VUndefined)
      end
  | VObj props => Ok (default VUndefined (lookup_prop k props))
  end.

(** [v.toFixed(1)]: only a number has a callable [toFixed]. *)
Definition call_toFixed1 (v : value) : outcome string :=
  match v with
  | VNum x => Ok (toFixed1 x)
  | VUndefined | VNull =>
      Throw (TypeError "Cannot read properties of null or undefined, reading toFixed")
  | _ => Throw (TypeError "toFixed is not a function")
  end.

(** ToString (ECMA-262 7.1.17).  A parsed object has no callable [toString] of
    its own: it prints through [Object.prototype.toString], unless an own
    [toString] property, which is never callable, shadows it. *)
Fixpoint ToString (v : value) : outcome string :=
  match v with
  | VUndefined => Ok "undefined"
  | VNull => Ok "null"
  | VBool b => Ok (if b then "true" else "false")
  | VNum x => Ok (Number_toString x)
  | VStr s => Ok s
  | VArr items =>
      (fix join (l : list value) : outcome string :=
         match l with
         | [] => Ok ""
         | v :: l' =>
             let piece := match v with
                          | VUndefined | VNull => Ok ""
                          | _ => ToString v
                          end in
             match piece with
             | Throw e => Throw e
             | Ok s =>
                 match l' with
                 | [] => Ok s
                 | _ => match join l' with
                        | Throw e => Throw e
                        | Ok t => Ok (s +:+ "," +:+ t)
                        end
                 end
             end
         end) items
  | VObj props =>
      match lookup_prop "toString" props with
      | Some _ => Throw (TypeError "Cannot convert object to primitive value")
      | None => Ok "[object Object]"
      end
  end.

(** ToBoolean (ECMA-262 7.1.2). *)
Definition ToBoolean (v : value) : bool :=
  match v with
  | VUndefined | VNull => false
  | VBool b => b
  | VNum x => match x with NaN | Zero _ => false | _ => true end
  | VStr s => negb (String.eqb s "")
  | VArr _ | VObj _ => true
  end.

(** The own enumerable properties the spread [{...v}] copies. *)
Fixpoint indexed {A} (f : A -> value) (i : nat) (l : list A) : list (string * value) :=
  match l with
  | [] => []
  | x :: l' => (decimal_string (Z.of_nat i), f x) :: indexed f (S i) l'
  end.

Definition own_properties (v : value) : list (string * value) :=
  match v with
  | VObj props => props
  | VArr items => indexed (fun x => x) 0 items
  | VStr s => indexed (fun c => VStr (String c "")) 0 (list_ascii_of_string s)
  | _ => []
  end.

(** [{...v}]: a fresh object with the own properties of [v]. *)
Definition spread (v : value) : list (string * value) :=
  fold_left (fun acc kv => obj_set (fst kv) (snd kv) acc) (own_properties v) [].

(** ** JSON.stringify (ECMA-262 25.5.2), no replacer and no indentation *)

Definition dquote : ascii := "034"%char.
Definition backslash : ascii := "\"%char.

Definition hex_char (n : N) : ascii :=
  if (n <? 10)%N then ascii_of_N (48 + n) else ascii_of_N (87 + n).

(** QuoteJSONString on one code unit. *)
Definition quote_char (c : ascii) : string :=
  let n := N_of_ascii c in
  if (n =? 8)%N then "\b"
  else if (n =? 9)%N then "\t"
  else if (n =? 10)%N then "\n"
  else if (n =? 12)%N then "\f"
  else if (n =? 13)%N then "\r"
  else if (n =? 34)%N then String backslash (String dquote "")
  else if (n =? 92)%N then "\\"
  else if (n <? 32)%N then
    "\u00" +:+ String (hex_char (n / 16)) (String (hex_char (n mod 16)) "")
  else String c "".

Fixpoint quote_chars (s : string) : string :=
  match s with
  | EmptyString => ""
  | String c s' => quote_char c +:+ quote_chars s'
  end.

Definition QuoteJSONString (s : string) : string :=
  String dquote (quote_chars s +:+ String dquote "").

(** SerializeJSONProperty: [None] stands for [undefined].  An array prints
    [null] for such an element, an object leaves such a property out. *)
Fixpoint serialize (v : value) : option string :=
  match v with
  | VUndefined => None
  | VNull => Some "null"
  | VBool b => Some (if b then "true" else "false")
  | VNum x => Some (if is_finite x then Number_toString x else "null")
  | VStr s => Some (QuoteJSONString s)
  | VArr items =>
      Some ("[" +:+
        (fix elements (l : list value) : string :=
           match l with
           | [] => "]"
           | v :: l' =>
               default "null" (serialize v) +:+
               match l' with [] => "]" | _ => "," +:+ elements l' end
           end) items)
  | VObj props =>
      Some ("{" +:+
        (fix members (first : bool) (l : list (string * value)) : string :=
           match l with
           | [] => "}"
           | (k, v) :: l' =>
               match serialize v with
               | None => members first l'
               | Some s =>
                   (if first then "" else ",") +:+
                   QuoteJSONString k +:+ ":" +:+ s +:+ members false l'
               end
           end) true props)
  end.

(** ** JSON.parse (ECMA-262 25.5.1), no reviver *)

Definition is_ws (c : ascii) : bool :=
  let n := N_of_ascii c in
  ((n =? 32) || (n =? 9) || (n =? 10) || (n =? 13))%N.

Fixpoint skip_ws (s : string) : string :=
  match s with
  | String c s' => if is_ws c then skip_ws s' else s
  | EmptyString => s
  end.

Fixpoint strip_prefix (p s : string) : option string :=
  match p, s with
  | EmptyString, _ => Some s
  | String a p', String b s' => if Ascii.eqb a b then strip_prefix p' s' else None
  | _, _ => None
  end.

(** The longest prefix of digits, and what follows it. *)
Fixpoint take_digits (s : string) : string * string :=
  match s with
  | String c s' =>
      if is_digit c then let (ds, r) := take_digits s' in (String c ds, r)
      else ("", s)
  | EmptyString => ("", s)
  end.

(** JSONNumber: an optional minus sign; an integer part, [0] or a nonzero
    digit and more digits; an optional fraction, a point and digits; an
    optional exponent, [e] or [E], an optional sign and digits. *)
Definition parse_sign (s : string) : bool * string :=
  match s with
  | String c r => if Ascii.eqb c "-" then (true, r) else (false, s)
  | EmptyString => (false, s)
  end.

Definition parse_int (s : string) : string * string :=
  match s with
  | String c r => if Ascii.eqb c "0" then ("0", r) else take_digits s
  | EmptyString => ("", s)
  end.

Definition parse_frac (s : string) : option (string * string) :=
  match s with
  | String c r =>
      if Ascii.eqb c "." then
        let (fp, s') := take_digits r in
        match fp with
        | EmptyString => None
        | _ => Some (fp, s')
        end
      else Some ("", s)
  | EmptyString => Some ("", s)
  end.

Definition parse_exp_sign (s : string) : bool * string :=
  match s with
  | String c r =>
      if Ascii.eqb c "-" then (true, r)
      else if Ascii.eqb c "+" then (false, r)
      else (false, s)
  | EmptyString => (false, s)
  end.

Definition parse_exp (s : string) : option (Z * string) :=
  match s with
  | String c r =>
      if Ascii.eqb c "e" || Ascii.eqb c "E" then
        let (eneg, r1) := parse_exp_sign r in
        let (ep, s') := take_digits r1 in
        match ep with
        | EmptyString => None
        | _ =>
            let x := digits_value 0 ep in
            Some (if eneg then - x else x, s')
        end
      else Some (0, s)
  | EmptyString => Some (0, s)
  end.

Definition parse_number (s : string) : option (number * string) :=
  let (neg, s1) := parse_sign s in
  let (ip, s2) := parse_int s1 in
  match ip with
  | EmptyString => None
  | _ =>
      match parse_frac s2 with
      | None => None
      | Some (fp, s3) =>
          match parse_exp s3 with
          | None => None
          | Some (x, s4) =>
              Some (of_decimal neg (digits_value 0 (ip +:+ fp))
                      (x - Z.of_nat (String.length fp)), s4)
          end
      end
  end.

Definition hex_value (c : ascii) : option N :=
  let n := N_of_ascii c in
  if ((48 <=? n) && (n <=? 57))%N then Some (n - 48)%N
  else if ((65 <=? n) && (n <=? 70))%N then Some (n - 55)%N
  else if ((97 <=? n) && (n <=? 102))%N then Some (n - 87)%N
  else None.

(** The code unit of [\uXXXX].  The strings of the model hold the code units
    0 to 255, so an escape above [00FF] is refused here, though [JSON.parse]
    reads it: what is stated of a text that does not parse leaves the texts
    with such an escape out ([narrow_escapes]). *)
Definition hex4 (a b c d : ascii) : option ascii :=
  match hex_value a, hex_value b, hex_value c, hex_value d with
  | Some x, Some y, Some z, Some w =>
      if ((x =? 0) && (y =? 0))%N then Some (ascii_of_N (16 * z + w)) else None
  | _, _, _, _ => None
  end.

Definition unescape (c : ascii) : option ascii :=
  if Ascii.eqb c dquote then Some dquote
  else if Ascii.eqb c backslash then Some backslash
  else if Ascii.eqb c "/" then Some "/"%char
  else if Ascii.eqb c "b" then Some "008"%char
  else if Ascii.eqb c "f" then Some "012"%char
  else if Ascii.eqb c "n" then Some "010"%char
  else if Ascii.eqb c "r" then Some "013"%char
  else if Ascii.eqb c "t" then Some "009"%char
  else None.

Definition cons_char (c : ascii) (r : option (string * string)) : option (string * string) :=
  match r with
  | Some (s, rest) => Some (String c s, rest)
  | None => None
  end.

(** JSONString after its opening quote: the code units up to the closing
    quote, and what follows it. *)
Fixpoint parse_string (s : string) : option (string * string) :=
  match s with
  | EmptyString => None
  | String c r =>
      if Ascii.eqb c dquote then Some ("", r)
      else if Ascii.eqb c backslash then
        match r with
        | String c2 r2 =>
            if Ascii.eqb c2 "u" then
              match r2 with
              | String h1 (String h2 (String h3 (String h4 r3))) =>
                  match hex4 h1 h2 h3 h4 with
                  | Some u => cons_char u (parse_string r3)
                  | None => None
                  end
              | _ => None
              end
            else
              match unescape c2 with
              | Some u => cons_char u (parse_string r2)
              | None => None
              end
        | EmptyString => None
        end
      else if (N_of_ascii c <? 32)%N then None
      else cons_char c (parse_string r)
  end.

(** JSONValue, with the elements of an array and the members of an object; a
    member is stored with CreateDataProperty, so a repeated key keeps its last
    value. *)
Fixpoint parse_value (fuel : nat) (s : string) : option (value * string) :=
  match fuel with
  | O => None
  | S fuel' =>
      match skip_ws s with
      | EmptyString => None
      | String c r as s0 =>
          if Ascii.eqb c "{" then
            match skip_ws r with
            | String "}" r' => Some (VObj [], r')
            | r1 => parse_members fuel' r1 []
            end
          else if Ascii.eqb c "[" then
            match skip_ws r with
            | String "]" r' => Some (VArr [], r')
            | r1 => parse_elements fuel' r1 []
            end
          else if Ascii.eqb c dquote then
            match parse_string r with
            | Some (str, r') => Some (VStr str, r')
            | None => None
            end
          else if Ascii.eqb c "t" then
            option_map (fun r' => (VBool true, r')) (strip_prefix "true" s0)
          else if Ascii.eqb c "f" then
            option_map (fun r' => (VBool false, r')) (strip_prefix "false" s0)
          else if Ascii.eqb c "n" then
            option_map (fun r' => (VNull, r')) (strip_prefix "null" s0)
          else
            match parse_number s0 with
            | Some (x, r') => Some (VNum x, r')
            | None => None
            end
      end
  end
with parse_elements (fuel : nat) (s : string) (acc : list value)
  : option (value * string) :=
  match fuel with
  | O => None
  | S fuel' =>
      match parse_value fuel' s with
      | Some (v, r) =>
          match skip_ws r with
          | String "," r' => parse_elements fuel' r' (v :: acc)
          | String "]" r' => Some (VArr (rev (v :: acc)), r')
          | _ => None
          end
      | None => None
      end
  end
with parse_members (fuel : nat) (s : string) (acc : list (string * value))
  : option (value * string) :=
  match fuel with
  | O => None
  | S fuel' =>
      match skip_ws s with
      | String c r =>
          if Ascii.eqb c dquote then
            match parse_string r with
            | Some (k, r1) =>
                match skip_ws r1 with
                | String ":" r2 =>
                    match parse_value fuel' r2 with
                    | Some (v, r3) =>
                        match skip_ws r3 with
                        | String "," r' => parse_members fuel' r' (obj_set k v acc)
                        | String "}" r' => Some (VObj (obj_set k v acc), r')
                        | _ => None
                        end
                    | None => None
                    end
                | _ => None
                end
            | None => None
            end
          else None
      | EmptyString => None
      end
  end.

Definition JSON_parse (text : string) : outcome value :=
  match parse_value (S (String.length text)) text with
  | Some (v, rest) =>
      match skip_ws rest with
      | EmptyString => Ok v
      | _ => Throw (SyntaxError "Unexpected non-whitespace character after JSON")
      end
  | None => Throw (SyntaxError "Unexpected token in JSON")
  end.

(** [JSON.stringify] returns [undefined] for [undefined], a string otherwise. *)
Definition JSON_stringify (v : value) : value :=
  match serialize v with
  | Some s => VStr s
  | None => VUndefined
  end.

(** ** The browser: DOM, storage, network, timers, console *)

Record Element := {
  textContent : string;
  classList : gset string;
  style_width : string;
  src : string
}.

Record File := {
  file_type : string;   (* the declared MIME type *)
  file_size : N         (* bytes *)
}.

Record request := {
  url : string;
  method : string;
  body : option File    (* the [file] field of the multipart form *)
}.

(** What [response.json()] settles to. *)
Inductive payload :=
| JsonBody (v : value)
| InvalidBody.

Record response := {
  status : N;
  content : payload
}.

(** [response.ok]: the status is in the range 200 to 299. *)
Definition ok (r : response) : bool :=
  ((200 <=? status r) && (status r <=? 299))%N.

(** What the promise of [fetch] settles to. *)
Inductive fetched :=
| Rejected (e : error)
| Responded (r : response).

Inductive logged :=
| LValue (v : value)
| LError (e : error).

Inductive console_entry :=
| ConsoleLog (label : string) (arg : logged)
| ConsoleError (label : string) (arg : logged).

(** A pending [setTimeout] callback; the script's only one on the diagnosis
    flow is the closure of [animateProgressBar], with its captured variables. *)
Inductive timer :=
| AnimateBar (bar : string) (percentage : value).

(** What the script does not decide: the server, the storage quota, the
    clock and the file reader. *)
Record World := {
  fetch_result : request -> fetched;
  quota_exceeded : gmap string string -> string -> string -> bool;
  now_iso : string;
  read_result : File -> option string
}.

(** The page.  An element is known by its id, the paragraph the script finds
    with [errorMessage.querySelector('p')] by [error-message p]; an id that is
    not in [document] is an element the page does not have, and the script's handle
    on it is [null]. *)
Record State := {
  document : gmap string Element;
  localStorage : gmap string string;
  console : list console_entry;
  requests : list request;      (* the calls of [fetch], oldest first *)
  timers : list timer;          (* pending callbacks, oldest first *)
  reads : list File;            (* pending [FileReader] loads *)
  uncaught : list error         (* unhandled rejections and callback errors *)
}.

Definition set_document (d : gmap string Element) (st : State) : State :=
  {| document := d; localStorage := localStorage st; console := console st;
     requests := requests st; timers := timers st; reads := reads st;
     uncaught := uncaught st |}.

Definition set_localStorage (l : gmap string string) (st : State) : State :=
  {| document := document st; localStorage := l; console := console st;
     requests := requests st; timers := timers st; reads := reads st;
     uncaught := uncaught st |}.

Definition set_console (c : list console_entry) (st : State) : State :=
  {| document := document st; localStorage := localStorage st; console := c;
     requests := requests st; timers := timers st; reads := reads st;
     uncaught := uncaught st |}.

Definition set_requests (r : list request) (st : State) : State :=
  {| document := document st; localStorage := localStorage st; console := console st;
     requests := r; timers := timers st; reads := reads st;
     uncaught := uncaught st |}.

Definition set_timers (t : list timer) (st : State) : State :=
  {| document := document st; localStorage := localStorage st; console := console st;
     requests := requests st; timers := t; reads := reads st;
     uncaught := uncaught st |}.

Definition set_reads (r : list File) (st : State) : State :=
  {| document := document st; localStorage := localStorage st; console := console st;
     requests := requests st; timers := timers st; reads := r;
     uncaught := uncaught st |}.

Definition set_uncaught (u : list error) (st : State) : State :=
  {| document := document st; localStorage := localStorage st; console := console st;
     requests := requests st; timers := timers st; reads := reads st;
     uncaught := u |}.

(** *** Statements: state passing with exceptions *)

Definition M (A : Type) : Type := State -> outcome A * State.

Definition ret {A} (a : A) : M A := fun st => (Ok a, st).

Definition throw {A} (e : error) : M A := fun st => (Throw e, st).

Definition bind {A B} (m : M A) (k : A -> M B) : M B :=
  fun st =>
    match m st with
    | (Ok a, st') => k a st'
    | (Throw e, st') => (Throw e, st')
    end.

Notation "x <- m ;; k" := (bind m (fun x => k))
  (at level 100, m at next level, right associativity).
Notation "m ;; k" := (bind m (fun _ => k))
  (at level 100, right associativity).

Definition lift {A} (o : outcome A) : M A := fun st => (o, st).

(** [try { m } catch (e) { h e }] *)
Definition try_catch {A} (m : M A) (h : error -> M A) : M A :=
  fun st =>
    match m st with
    | (Ok a, st') => (Ok a, st')
    | (Throw e, st') => h e st'
    end.

(** [try { m } finally { f }]: [f] runs on every exit of [m]; an exception of
    [f] replaces the completion of [m]. *)
Definition try_finally {A} (m : M A) (f : M unit) : M A :=
  fun st =>
    let (r, st') := m st in
    match f st' with
    | (Ok _, st'') => (r, st'')
    | (Throw e, st'') => (Throw e, st'')
    end.

(** Calling an async function without awaiting it: the caller gets a promise
    and never the exception, which ends as an unhandled rejection. *)
Definition async (m : M unit) : M unit :=
  fun st =>
    match m st with
    | (Ok _, st') => (Ok tt, st')
    | (Throw e, st') => (Ok tt, set_uncaught (uncaught st' ++ [e]) st')
    end.

(** *** DOM operations *)

(** A property write on the element behind handle [n]; on a [null] handle the
    write throws a TypeError. *)
Definition update_element (n : string) (f : Element -> Element) : M unit :=
  fun st =>
    match document st !! n with
    | Some _ => (Ok tt, set_document (alter f n (document st)) st)
    | None => (Throw (TypeError ("Cannot set properties of null: " +:+ n)), st)
    end.

Definition with_text (s : string) (el : Element) : Element :=
  {| textContent := s; classList := classList el;
     style_width := style_width el; src := src el |}.

Definition with_class (c : string) (el : Element) : Element :=
  {| textContent := textContent el; classList := {[c]} ∪ classList el;
     style_width := style_width el; src := src el |}.

Definition without_class (c : string) (el : Element) : Element :=
  {| textContent := textContent el; classList := classList el ∖ {[c]};
     style_width := style_width el; src := src el |}.

Definition with_width (w : string) (el : Element) : Element :=
  {| textContent := textContent el; classList := classList el;
     style_width := w; src := src el |}.

Definition with_src (s : string) (el : Element) : Element :=
  {| textContent := textContent el; classList := classList el;
     style_width := style_width el; src := s |}.

Definition set_textContent (n : string) (s : string) : M unit :=
  update_element n (with_text s).

Definition classList_add (n : string) (c : string) : M unit :=
  update_element n (with_class c).

Definition classList_remove (n : string) (c : string) : M unit :=
  update_element n (without_class c).

(** The values the script gives to [style.width] end in a percent sign, and
    such a value is a valid width when it is a percentage that is not
    negative: white space a declaration may have around it, a sign, a CSS
    number (digits, a fraction, an exponent) and the percent sign.  Comments
    and functional notations, which a number does not print, are not read. *)
Definition css_space (c : ascii) : bool :=
  let n := N_of_ascii c in
  ((n =? 32) || (n =? 9) || (n =? 10) || (n =? 12) || (n =? 13))%N.

Fixpoint skip_css_space (s : string) : string :=
  match s with
  | String c s' => if css_space c then skip_css_space s' else s
  | EmptyString => s
  end.

Definition css_sign (s : string) : bool * string :=
  match s with
  | String c r =>
      if Ascii.eqb c "-" then (true, r)
      else if Ascii.eqb c "+" then (false, r)
      else (false, s)
  | EmptyString => (false, s)
  end.

(** The fraction of a number: a point and at least one digit. *)
Definition css_fraction (s : string) : string * string :=
  match s with
  | String c r =>
      if Ascii.eqb c "." then
        let (fp, s') := take_digits r in
        match fp with
        | EmptyString => ("", s)
        | _ => (fp, s')
        end
      else ("", s)
  | EmptyString => ("", s)
  end.

(** The exponent of a number: [e] or [E], an optional sign and at least one
    digit; what is left when it is taken off. *)
Definition css_exponent (s : string) : string :=
  match s with
  | String c r =>
      if Ascii.eqb c "e" || Ascii.eqb c "E" then
        let (_, r1) := parse_exp_sign r in
        let (ep, s') := take_digits r1 in
        match ep with
        | EmptyString => s
        | _ => s'
        end
      else s
  | EmptyString => s
  end.

Fixpoint all_zeros (s : string) : bool :=
  match s with
  | EmptyString => true
  | String c s' => Ascii.eqb c "0" && all_zeros s'
  end.

(** A number without its sign: whether it is zero, and what follows it. *)
Definition css_number (s : string) : option (bool * string) :=
  let (ip, s1) := take_digits s in
  let (fp, s2) := css_fraction s1 in
  match ip, fp with
  | EmptyString, EmptyString => None
  | _, _ => Some (all_zeros ip && all_zeros fp, css_exponent s2)
  end.

Definition valid_width (w : string) : bool :=
  let (neg, s) := css_sign (skip_css_space w) in
  match css_number s with
  | Some (zero, String c r) =>
      Ascii.eqb c "%" && (negb neg || zero) &&
      match skip_css_space r with
      | EmptyString => true
      | _ => false
      end
  | _ => false
  end.

(** [n.style.width = w]: a value that is not valid is ignored and the
    declaration stays as it was; a valid one replaces it.  The store keeps
    the text that was assigned. *)
Definition set_style_width (n : string) (w : string) : M unit :=
  update_element n (fun el => if valid_width w then with_width w el else el).

Definition set_src (n : string) (s : string) : M unit :=
  update_element n (with_src s).

(** [n.textContent = v] for a value: the attribute is a nullable DOMString,
    so [null] and [undefined] clear the text and any other value is converted
    with ToString. *)
Definition to_DOMString (v : value) : outcome string :=
  match v with
  | VUndefined | VNull => Ok ""
  | _ => ToString v
  end.

Definition assign_textContent (n : string) (v : value) : M unit :=
  fun st =>
    match document st !! n with
    | None => (Throw (TypeError ("Cannot set properties of null: " +:+ n)), st)
    | Some _ => (s <- lift (to_DOMString v) ;; set_textContent n s) st
    end.

Definition setTimeout (t : timer) : M unit :=
  fun st => (Ok tt, set_timers (timers st ++ [t]) st).

Definition console_log (label : string) (arg : logged) : M unit :=
  fun st => (Ok tt, set_console (console st ++ [ConsoleLog label arg]) st).

Definition console_error (label : string) (arg : logged) : M unit :=
  fun st => (Ok tt, set_console (console st ++ [ConsoleError label arg]) st).

(** [fetch(url, init)]: the request leaves when [fetch] is called; awaiting
    the promise gives the response or throws the rejection. *)
Definition fetch_send (req : request) : M unit :=
  fun st => (Ok tt, set_requests (requests st ++ [req]) st).

Definition await_fetch (o : fetched) : M response :=
  match o with
  | Rejected e => throw e
  | Responded r => ret r
  end.

Definition fetch (w : World) (req : request) : M response :=
  fetch_send req ;; await_fetch (fetch_result w req).

(** [await response.json()] *)
Definition response_json (r : response) : M value :=
  match content r with
  | JsonBody v => ret v
  | InvalidBody => throw (SyntaxError "Unexpected token in JSON")
  end.

Definition localStorage_setItem (w : World) (k v : string) : M unit :=
  fun st =>
    if quota_exceeded w (localStorage st) k v
    then (Throw (DOMException "QuotaExceededError"), st)
    else (Ok tt, set_localStorage (<[k := v]> (localStorage st)) st).

Definition localStorage_getItem (k : string) : M (option string) :=
  fun st => (Ok (localStorage st !! k), st).

(** ** app.js *)

Definition API_BASE_URL : string := "http://localhost:8000".

(** The handles the script takes at load. *)
Definition dropZone : string := "drop-zone".
Definition fileInput : string := "file-input".
Definition imagePreview : string := "image-preview".
Definition previewImg : string := "preview-img".
Definition resultsSection : string := "results-section".
Definition loading : string := "loading".
Definition resultCard : string := "result-card".
Definition predictionText : string := "prediction-text".
Definition confidenceText : string := "confidence-text".
Definition covidProb : string := "covid-prob".
Definition pneumoniaProb : string := "pneumonia-prob".
Definition normalProb : string := "normal-prob".
Definition covidBar : string := "covid-bar".
Definition pneumoniaBar : string := "pneumonia-bar".
Definition normalBar : string := "normal-bar".
Definition errorMessage : string := "error-message".
Definition errorText : string := "error-message p".
Definition serverStatusBadge : string := "server-status-badge".

Definition showError (message : string) : M unit :=
  set_textContent errorText message ;;
  classList_remove errorMessage "hidden" ;;
  classList_add resultsSection "hidden".

Definition showLoading : M unit :=
  classList_remove loading "hidden" ;;
  classList_remove resultsSection "hidden" ;;
  classList_add resultCard "hidden" ;;
  classList_add errorMessage "hidden".

Definition hideLoading : M unit :=
  classList_add loading "hidden".

Definition allowedTypes : list string := ["image/png"; "image/jpeg"; "image/jpg"].

(** [Array.prototype.includes] on strings. *)
Definition includes (l : list string) (x : string) : bool :=
  existsb (String.eqb x) l.

Definition maxSize : N := 10 * 1024 * 1024.

Definition validateFile (file : File) : M bool :=
  if negb (includes allowedTypes (file_type file)) then
    showError "Please select a valid image file (PNG, JPG, or JPEG)." ;;
    ret false
  else if (maxSize <? file_size file)%N then
    showError "File size must be less than 10MB." ;;
    ret false
  else ret true.

(** [showImagePreview] starts the read; [reader.onload] runs when it ends. *)
Definition showImagePreview (file : File) : M unit :=
  fun st => (Ok tt, set_reads (reads st ++ [file]) st).

Definition reader_onload (result : string) : M unit :=
  set_src previewImg result ;;
  classList_remove imagePreview "hidden".

(** The callback of [animateProgressBar]. *)
Definition run_timer (t : timer) : M unit :=
  match t with
  | AnimateBar bar percentage =>
      s <- lift (ToString percentage) ;;
      set_style_width bar (s +:+ "%")
  end.

Definition animateProgressBar (bar : string) (percentage : value) : M unit :=
  set_style_width bar "0%" ;;
  setTimeout (AnimateBar bar percentage).

Definition displayResults (result : value) : M unit :=
  predicted_class <- lift (get result "predicted_class") ;;
  assign_textContent predictionText predicted_class ;;
  confidence <- lift (get result "confidence") ;;
  c <- lift (call_toFixed1 confidence) ;;
  set_textContent confidenceText ("Confidence: " +:+ c +:+ "%") ;;
  probabilities <- lift (get result "probabilities") ;;
  Covid <- lift (get probabilities "Covid") ;;
  p <- lift (call_toFixed1 Covid) ;;
  set_textContent covidProb (p +:+ "%") ;;
  probabilities <- lift (get result "probabilities") ;;
  Pneumonia <- lift (get probabilities "Pneumonia") ;;
  p <- lift (call_toFixed1 Pneumonia) ;;
  set_textContent pneumoniaProb (p +:+ "%") ;;
  probabilities <- lift (get result "probabilities") ;;
  Normal <- lift (get probabilities "Normal") ;;
  p <- lift (call_toFixed1 Normal) ;;
  set_textContent normalProb (p +:+ "%") ;;
  probabilities <- lift (get result "probabilities") ;;
  Covid <- lift (get probabilities "Covid") ;;
  animateProgressBar covidBar Covid ;;
  probabilities <- lift (get result "probabilities") ;;
  Pneumonia <- lift (get probabilities "Pneumonia") ;;
  animateProgressBar pneumoniaBar Pneumonia ;;
  probabilities <- lift (get result "probabilities") ;;
  Normal <- lift (get probabilities "Normal") ;;
  animateProgressBar normalBar Normal ;;
  classList_remove resultCard "hidden" ;;
  classList_remove resultsSection "hidden".

Definition saveLastDiagnosis (w : World) (result : value) : M unit :=
  try_catch
    (text <- lift (ToString (JSON_stringify
       (VObj (obj_set "timestamp" (VStr (now_iso w)) (spread result))))) ;;
     localStorage_setItem w "lastDiagnosis" text)
    (fun error => console_error "Failed to save diagnosis:" (LError error)).

Definition loadLastDiagnosis : M unit :=
  try_catch
    (lastDiagnosis <- localStorage_getItem "lastDiagnosis" ;;
     match lastDiagnosis with
     | Some text =>
         if negb (String.eqb text "") then
           data <- lift (JSON_parse text) ;;
           console_log "Last diagnosis:" (LValue data)
         else ret tt
     | None => ret tt
     end)
    (fun error => console_error "Failed to load last diagnosis:" (LError error)).

Definition predict_request (file : File) : request :=
  {| url := API_BASE_URL +:+ "/predict"; method := "POST"; body := Some file |}.

(** The [try] block of [predictXray]. *)
Definition predictXray_try (w : World) (file : File) : M unit :=
  response <- fetch w (predict_request file) ;;
  (if negb (ok response) then
     throw (Error ("HTTP error! status: " +:+
                   decimal_string (Z.of_N (status response))))
   else ret tt) ;;
  result <- response_json response ;;
  displayResults result ;;
  saveLastDiagnosis w result.

(** Its [catch] block. *)
Definition predictXray_catch (error : error) : M unit :=
  console_error "Prediction error:" (LError error) ;;
  showError "Failed to analyze the image. Please try again.".

Definition predictXray (w : World) (file : File) : M unit :=
  showLoading ;;
  try_finally
    (try_catch (predictXray_try w file) predictXray_catch)
    hideLoading.

(** What [predictXray] does before its first [await] gives control back. *)
Definition predictXray_sync (file : File) : M unit :=
  showLoading ;;
  fetch_send (predict_request file).

(** What [predictXray] does when the promise of [fetch] settles. *)
Definition predictXray_resume (w : World) (file : File) : M unit :=
  try_finally
    (try_catch
       (response <- await_fetch (fetch_result w (predict_request file)) ;;
        (if negb (ok response) then
           throw (Error ("HTTP error! status: " +:+
                         decimal_string (Z.of_N (status response))))
         else ret tt) ;;
        result <- response_json response ;;
        displayResults result ;;
        saveLastDiagnosis w result)
       predictXray_catch)
    hideLoading.

Definition handleFiles (w : World) (files : list File) : M unit :=
  match files with
  | file :: _ =>
      valid <- validateFile file ;;
      if valid then
        showImagePreview file ;;
        async (predictXray w file)
      else ret tt
  | [] => ret tt
  end.


Definition status_request : request :=
  {| url := API_BASE_URL +:+ "/"; method := "GET"; body := None |}.

Definition checkServerStatus (w : World) : M unit :=
  try_catch
    (res <- fetch w status_request ;;
     (if negb (ok res) then throw (Error "Server unreachable") else ret tt) ;;
     json <- response_json res ;;
     model_loaded <- lift (get json "model_loaded") ;;
     if ToBoolean model_loaded then
       set_textContent serverStatusBadge "Ready (model loaded)" ;;
       classList_add serverStatusBadge "text-green-600"
     else
       set_textContent serverStatusBadge "Ready (no model)" ;;
       classList_add serverStatusBadge "text-yellow-600")
    (fun err =>
       set_textContent serverStatusBadge "Offline" ;;
       classList_add serverStatusBadge "text-red-600").

(** A timer fires: an exception of its callback is reported, not thrown. *)
Definition fire (s : State) (t : timer) : State :=
  match run_timer t s with
  | (Ok _, s') => s'
  | (Throw e, s') => set_uncaught (uncaught s' ++ [e]) s'
  end.

(** The pending timers fire, oldest first. *)
Definition run_timers (st : State) : State :=
  fold_left fire (timers st) (set_timers [] st).

(** ** The rest of the page: listeners, events, the contact form, toasts *)

(** The functions of the script that are registered as listeners. *)
Inductive callback :=
| PreventDefaults
| Highlight
| Unhighlight
| HandleDrop
| HandleFileSelect
| HandleContactSubmit.

Definition callback_eqb (a b : callback) : bool :=
  match a, b with
  | PreventDefaults, PreventDefaults
  | Highlight, Highlight
  | Unhighlight, Unhighlight
  | HandleDrop, HandleDrop
  | HandleFileSelect, HandleFileSelect
  | HandleContactSubmit, HandleContactSubmit => true
  | _, _ => false
  end.

(** An event as the script reads it: [files] is [e.dataTransfer.files] of a
    drag event and [e.target.files] of a change event. *)
Record Event := {
  event_type : string;
  target : string;
  cancelable : bool;
  files : list File
}.

(** A form as the script uses it: the entries [new FormData(form)] lists, with
    text values, and the entries of the form after [reset()]. *)
Record Form := {
  form_entries : list (string * string);
  reset_entries : list (string * string)
}.

(** The [div] of a toast, with the properties [showToast] writes. *)
Record Toast := {
  className : string;
  innerHTML : string
}.

(** The page around [State]: the registered listeners (target, type,
    callback), oldest first; the forms by id; the toasts the script appended
    to the body, each with the number of its creation, and the pending
    removals; the flags of the event that is dispatched. *)
Record Page := {
  state : State;
  listeners : list (string * string * callback);
  forms : gmap string Form;
  toasts : list (nat * Toast);
  created : nat;
  toast_timers : list nat;
  defaultPrevented : bool;
  propagationStopped : bool
}.

Definition set_state (s : State) (pg : Page) : Page :=
  {| state := s; listeners := listeners pg; forms := forms pg;
     toasts := toasts pg; created := created pg;
     toast_timers := toast_timers pg;
     defaultPrevented := defaultPrevented pg;
     propagationStopped := propagationStopped pg |}.

Definition set_listeners (l : list (string * string * callback)) (pg : Page) : Page :=
  {| state := state pg; listeners := l; forms := forms pg;
     toasts := toasts pg; created := created pg;
     toast_timers := toast_timers pg;
     defaultPrevented := defaultPrevented pg;
     propagationStopped := propagationStopped pg |}.

Definition set_forms (f : gmap string Form) (pg : Page) : Page :=
  {| state := state pg; listeners := listeners pg; forms := f;
     toasts := toasts pg; created := created pg;
     toast_timers := toast_timers pg;
     defaultPrevented := defaultPrevented pg;
     propagationStopped := propagationStopped pg |}.

Definition set_toasts (t : list (nat * Toast)) (pg : Page) : Page :=
  {| state := state pg; listeners := listeners pg; forms := forms pg;
     toasts := t; created := created pg;
     toast_timers := toast_timers pg;
     defaultPrevented := defaultPrevented pg;
     propagationStopped := propagationStopped pg |}.

Definition set_created (n : nat) (pg : Page) : Page :=
  {| state := state pg; listeners := listeners pg; forms := forms pg;
     toasts := toasts pg; created := n;
     toast_timers := toast_timers pg;
     defaultPrevented := defaultPrevented pg;
     propagationStopped := propagationStopped pg |}.

Definition set_toast_timers (t : list nat) (pg : Page) : Page :=
  {| state := state pg; listeners := listeners pg; forms := forms pg;
     toasts := toasts pg; created := created pg;
     toast_timers := t;
     defaultPrevented := defaultPrevented pg;
     propagationStopped := propagationStopped pg |}.

Definition set_flags (prevented stopped : bool) (pg : Page) : Page :=
  {| state := state pg; listeners := listeners pg; forms := forms pg;
     toasts := toasts pg; created := created pg;
     toast_timers := toast_timers pg;
     defaultPrevented := prevented;
     propagationStopped := stopped |}.

(** Statements on the page. *)
Definition PageM (A : Type) : Type := Page -> outcome A * Page.

Definition page_ret {A} (a : A) : PageM A := fun pg => (Ok a, pg).

Definition page_bind {A B} (m : PageM A) (k : A -> PageM B) : PageM B :=
  fun pg =>
    match m pg with
    | (Ok a, pg') => k a pg'
    | (Throw e, pg') => (Throw e, pg')
    end.

Notation "x <-- m ;;; k" := (page_bind m (fun x => k))
  (at level 100, m at next level, right associativity).
Notation "m ;;; k" := (page_bind m (fun _ => k))
  (at level 100, right associativity).

(** A statement of [M] run on the state of the page. *)
Definition on_state {A} (m : M A) : PageM A :=
  fun pg => let (r, s) := m (state pg) in (r, set_state s pg).

(** [array.forEach(f)] *)
Fixpoint forEach {A} (l : list A) (f : A -> PageM unit) : PageM unit :=
  match l with
  | [] => page_ret tt
  | x :: l' => f x ;;; forEach l' f
  end.

Definition same_listener (a b : string * string * callback) : bool :=
  String.eqb (fst (fst a)) (fst (fst b)) &&
  String.eqb (snd (fst a)) (snd (fst b)) &&
  callback_eqb (snd a) (snd b).

(** The list of listeners with one more: a listener that is in the list
    already is not added again. *)
Definition register (l : string * string * callback)
    (ls : list (string * string * callback)) : list (string * string * callback) :=
  if existsb (same_listener l) ls then ls else ls ++ [l].

(** [n.addEventListener(type, cb, false)]; on a [null] handle the call
    throws. *)
Definition addEventListener (n type : string) (cb : callback) : PageM unit :=
  fun pg =>
    match document (state pg) !! n with
    | None => (Throw (TypeError ("Cannot read properties of null: " +:+ n)), pg)
    | Some _ => (Ok tt, set_listeners (register (n, type, cb) (listeners pg)) pg)
    end.

Definition preventDefault (e : Event) : PageM unit :=
  fun pg =>
    (Ok tt,
     if cancelable e then set_flags true (propagationStopped pg) pg else pg).

Definition stopPropagation (e : Event) : PageM unit :=
  fun pg => (Ok tt, set_flags (defaultPrevented pg) true pg).

(** [new FormData(form)]: the argument has to be a form. *)
Definition new_FormData (n : string) : PageM (list (string * string)) :=
  fun pg =>
    match forms pg !! n with
    | Some f => (Ok (form_entries f), pg)
    | None => (Throw (TypeError "FormData: parameter 1 is not a form"), pg)
    end.

(** [Object.fromEntries]: each entry is stored with CreateDataProperty. *)
Definition Object_fromEntries (entries : list (string * string)) : value :=
  VObj (fold_left (fun acc kv => obj_set (fst kv) (VStr (snd kv)) acc) entries []).

Definition form_reset (n : string) : PageM unit :=
  fun pg =>
    match forms pg !! n with
    | Some f =>
        (Ok tt,
         set_forms (<[n := {| form_entries := reset_entries f;
                              reset_entries := reset_entries f |}]> (forms pg)) pg)
    | None => (Throw (TypeError "reset is not a function"), pg)
    end.

(** *** app.js, continued *)

Definition contactForm : string := "contact-form".

Definition setupDragAndDrop : PageM unit :=
  forEach ["dragenter"; "dragover"; "dragleave"; "drop"]
    (fun eventName => addEventListener dropZone eventName PreventDefaults) ;;;
  forEach ["dragenter"; "dragover"]
    (fun eventName => addEventListener dropZone eventName Highlight) ;;;
  forEach ["dragleave"; "drop"]
    (fun eventName => addEventListener dropZone eventName Unhighlight) ;;;
  addEventListener dropZone "drop" HandleDrop.

Definition setupFileInput : PageM unit :=
  addEventListener fileInput "change" HandleFileSelect.

Definition preventDefaults (e : Event) : PageM unit :=
  preventDefault e ;;;
  stopPropagation e.

Definition highlight : PageM unit :=
  on_state (classList_add dropZone "dragover").

Definition unhighlight : PageM unit :=
  on_state (classList_remove dropZone "dragover").

Definition handleDrop (w : World) (e : Event) : PageM unit :=
  on_state (handleFiles w (files e)).

Definition handleFileSelect (w : World) (e : Event) : PageM unit :=
  on_state (handleFiles w (files e)).

Definition setupContactForm : PageM unit :=
  fun pg =>
    match document (state pg) !! contactForm with
    | Some _ => addEventListener contactForm "submit" HandleContactSubmit pg
    | None => (Ok tt, pg)
    end.

(** [showToast(message, type = 'info')]: the toast is appended to the body,
    and a timer of three seconds is set that removes it. *)
Definition showToast (message : string) (type : option string) : PageM unit :=
  fun pg =>
    let toast := {| className := "toast " +:+ default "info" type;
                    innerHTML := "<p>" +:+ message +:+ "</p>" |} in
    (Ok tt,
     set_created (S (created pg))
       (set_toast_timers (toast_timers pg ++ [created pg])
          (set_toasts (toasts pg ++ [(created pg, toast)]) pg))).

Definition handleContactSubmit (e : Event) : PageM unit :=
  preventDefault e ;;;
  formData <-- new_FormData (target e) ;;;
  let data := Object_fromEntries formData in
  on_state (console_log "Contact form submitted:" (LValue data)) ;;;
  showToast "Message sent successfully!" (Some "success") ;;;
  form_reset (target e).

Definition init (w : World) : PageM unit :=
  setupDragAndDrop ;;;
  setupFileInput ;;;
  setupContactForm ;;;
  on_state loadLastDiagnosis ;;;
  on_state (async (checkServerStatus w)).

(** *** Events, timers and file reads as the browser runs them *)

Definition call (w : World) (cb : callback) (e : Event) : PageM unit :=
  match cb with
  | PreventDefaults => preventDefaults e
  | Highlight => highlight
  | Unhighlight => unhighlight
  | HandleDrop => handleDrop w e
  | HandleFileSelect => handleFileSelect w e
  | HandleContactSubmit => handleContactSubmit e
  end.

Definition listens (e : Event) (l : string * string * callback) : bool :=
  String.eqb (fst (fst l)) (target e) && String.eqb (snd (fst l)) (event_type e).

(** One listener of the target runs; its exception is reported and the
    dispatch goes on. *)
Definition run_listener (w : World) (e : Event) (pg : Page)
    (l : string * string * callback) : Page :=
  if listens e l then
    match call w (snd l) e pg with
    | (Ok _, pg') => pg'
    | (Throw err, pg') =>
        set_state (set_uncaught (uncaught (state pg') ++ [err]) (state pg')) pg'
    end
  else pg.

(** The event is dispatched at its target: the listeners registered when the
    dispatch starts run in the order of their registration. *)
Definition dispatchEvent (w : World) (e : Event) (pg : Page) : Page :=
  fold_left (run_listener w e) (listeners pg) (set_flags false false pg).

(** The timer of a toast fires: [toast.remove()]. *)
Definition remove_toast (pg : Page) (n : nat) : Page :=
  set_toasts (List.filter (fun t => negb (Nat.eqb (fst t) n)) (toasts pg)) pg.

Definition run_toast_timers (pg : Page) : Page :=
  fold_left remove_toast (toast_timers pg) (set_toast_timers [] pg).

(** A file read ends: with a result [reader.onload] runs; a read that fails
    fires [error], which has no listener. *)
Definition finish_read (w : World) (s : State) (file : File) : State :=
  match read_result w file with
  | Some result =>
      match reader_onload result s with
      | (Ok _, s') => s'
      | (Throw e, s') => set_uncaught (uncaught s' ++ [e]) s'
      end
  | None => s
  end.

(** The pending reads end, oldest first. *)
Definition run_reads (w : World) (st : State) : State :=
  fold_left (finish_read w) (reads st) (set_reads [] st).

(** ** What a user sees *)

Definition present (st : State) (n : string) : Prop :=
  is_Some (document st !! n).

Definition text_of (st : State) (n : string) : option string :=
  textContent <$> document st !! n.

Definition width_of (st : State) (n : string) : option string :=
  style_width <$> document st !! n.

Definition src_of (st : State) (n : string) : option string :=
  src <$> document st !! n.

(** The element carries the class [hidden], which takes it off the page. *)
Definition hidden (st : State) (n : string) : Prop :=
  exists el, document st !! n = Some el /\ "hidden" ∈ classList el.

Definition shown (st : State) (n : string) : Prop :=
  exists el, document st !! n = Some el /\ "hidden" ∉ classList el.

(** The elements [showLoading] and [hideLoading] touch, those [showError]
    touches, and those [displayResults] writes. *)
Definition loading_elements (st : State) : Prop :=
  present st loading /\ present st resultsSection /\
  present st resultCard /\ present st errorMessage.

Definition error_elements (st : State) : Prop :=
  present st errorText /\ present st errorMessage /\ present st resultsSection.

Definition result_elements (st : State) : Prop :=
  present st predictionText /\ present st confidenceText /\
  present st covidProb /\ present st pneumoniaProb /\ present st normalProb /\
  present st covidBar /\ present st pneumoniaBar /\ present st normalBar /\
  present st resultCard /\ present st resultsSection.

(** The shape of a prediction: numbers where [displayResults] calls
    [toFixed]. *)
Definition numeric_shape (result : value) : Prop :=
  exists c probabilities p1 p2 p3,
    get result "confidence" = Ok (VNum c) /\
    get result "probabilities" = Ok probabilities /\
    get probabilities "Covid" = Ok (VNum p1) /\
    get probabilities "Pneumonia" = Ok (VNum p2) /\
    get probabilities "Normal" = Ok (VNum p3).

(** The probe failed: the request was rejected, the status is not in
    200..299, or the body is not JSON. *)
Definition probe_failed (w : World) : Prop :=
  match fetch_result w status_request with
  | Rejected _ => True
  | Responded r => ok r = false \/ content r = InvalidBody
  end.

(** The messages of [validateFile] and of [predictXray]. *)
Definition type_message : string :=
  "Please select a valid image file (PNG, JPG, or JPEG).".
Definition size_message : string := "File size must be less than 10MB.".
Definition failure_message : string :=
  "Failed to analyze the image. Please try again.".

(** ** Notions used by the statements and their proofs *)

(** A statement keeps the relation [R] between the state before and the
    state after. *)
Definition stable (R : State -> State -> Prop) {A} (m : M A) : Prop :=
  forall st, R st (m st).2.

(** The script never adds or removes an element. *)
Definition same_elements (st st' : State) : Prop :=
  forall n, present st' n <-> present st n.

(** Only the DOM changes. *)
Definition dom_only (st st' : State) : Prop :=
  localStorage st' = localStorage st /\ requests st' = requests st.

(** The storage is as it was. *)
Definition same_storage (st st' : State) : Prop :=
  localStorage st' = localStorage st.

(** The elements of [K] are as they were. *)
Definition untouched (K : list string) (st st' : State) : Prop :=
  Forall (fun n => document st' !! n = document st !! n) K.

(** The elements the catch block and [hideLoading] write, and the result
    card. *)
Definition outcome_elements : list string :=
  [errorText; errorMessage; resultsSection; resultCard; loading].

(** If [m] throws, the elements of [K] are as before [m]. *)
Definition throws_clean {A} (K : list string) (m : M A) : Prop :=
  forall st e st',
    Forall (present st) K -> m st = (Throw e, st') -> untouched K st st'.

(** A prediction as the server documents it: a string for the class and
    numbers for the confidence and the three probabilities. *)
Definition prediction_shape (result : value) (label : string) (c : number)
    (probabilities : value) (p1 p2 p3 : number) : Prop :=
  get result "predicted_class" = Ok (VStr label) /\
  get result "confidence" = Ok (VNum c) /\
  get result "probabilities" = Ok probabilities /\
  get probabilities "Covid" = Ok (VNum p1) /\
  get probabilities "Pneumonia" = Ok (VNum p2) /\
  get probabilities "Normal" = Ok (VNum p3).

(** The page after [displayResults]. *)
Definition rendered (label : string) (c p1 p2 p3 : number) (st : State) : State :=
  set_timers
    (((timers st ++ [AnimateBar covidBar (VNum p1)])
        ++ [AnimateBar pneumoniaBar (VNum p2)])
       ++ [AnimateBar normalBar (VNum p3)])
    (set_document
       (alter (without_class "hidden") resultsSection
       (alter (without_class "hidden") resultCard
       (alter (with_width "0%") normalBar
       (alter (with_width "0%") pneumoniaBar
       (alter (with_width "0%") covidBar
       (alter (with_text (toFixed1 p3 +:+ "%")) normalProb
       (alter (with_text (toFixed1 p2 +:+ "%")) pneumoniaProb
       (alter (with_text (toFixed1 p1 +:+ "%")) covidProb
       (alter (with_text ("Confidence: " +:+ toFixed1 c +:+ "%")) confidenceText
       (alter (with_text label) predictionText (document st)))))))))))
       st).

Definition quota_error : error := DOMException "QuotaExceededError".

(** The page after [showLoading]. *)
Definition loading_state (st : State) : State :=
  set_document
    (alter (with_class "hidden") errorMessage
       (alter (with_class "hidden") resultCard
          (alter (without_class "hidden") resultsSection
             (alter (without_class "hidden") loading (document st))))) st.

(** The state after [saveLastDiagnosis] tried to store [text]. *)
Definition cached (w : World) (text : string) (st : State) : State :=
  if quota_exceeded w (localStorage st) "lastDiagnosis" text
  then set_console (console st ++
         [ConsoleError "Failed to save diagnosis:" (LError quota_error)]) st
  else set_localStorage (<["lastDiagnosis" := text]> (localStorage st)) st.

Definition blank : Element :=
  {| textContent := ""; classList := ∅; style_width := ""; src := "" |}.

Definition concealed : Element := with_class "hidden" blank.

(** The diagnosis page as it loads: the preview, the results section, the
    loading indicator, the result card and the error message are hidden. *)
Definition diagnosis_page : State :=
  {| document :=
       list_to_map
         [(dropZone, blank); (fileInput, blank); (imagePreview, concealed);
          (previewImg, blank); (resultsSection, concealed);
          (loading, concealed); (resultCard, concealed);
          (predictionText, blank); (confidenceText, blank);
          (covidProb, blank); (pneumoniaProb, blank); (normalProb, blank);
          (covidBar, blank); (pneumoniaBar, blank); (normalBar, blank);
          (errorMessage, concealed); (errorText, blank);
          (serverStatusBadge, blank)];
     localStorage := ∅; console := []; requests := []; timers := [];
     reads := []; uncaught := [] |}.

Definition decimal (M E : Z) : value := VNum (of_decimal false M E).

(** The probabilities of the mock response. *)
Definition mock_probabilities : value :=
  VObj [("Covid", decimal 42 (-1));
        ("Pneumonia", decimal 85 (-1));
        ("Normal", decimal 873 (-1))].

(** The mock response of the specification's scenario. *)
Definition mock_result : value :=
  VObj [("predicted_class", VStr "Normal");
        ("confidence", decimal 873 (-1));
        ("probabilities", mock_probabilities)].

(** A server that answers every request the same way; the storage has room. *)
Definition server (answer : fetched) : World :=
  {| fetch_result := fun _ => answer;
     quota_exceeded := fun _ _ _ => false;
     now_iso := "2026-01-01T00:00:00.000Z";
     read_result := fun _ => None |}.

Definition json_response (code : N) (v : value) : fetched :=
  Responded {| status := code; content := JsonBody v |}.

(** A server whose client has no room left in the storage. *)
Definition full_storage (answer : fetched) : World :=
  {| fetch_result := fun _ => answer;
     quota_exceeded := fun _ _ _ => true;
     now_iso := "2026-01-01T00:00:00.000Z";
     read_result := fun _ => None |}.

(** Files: the PNG of the scenario, one of exactly 10 MiB, one of a byte more,
    and a PDF. *)
Definition png_2KB : File := {| file_type := "image/png"; file_size := 2048 |}.

Definition png_10MiB : File :=
  {| file_type := "image/png"; file_size := 10 * 1024 * 1024 |}.

Definition oversized_png : File :=
  {| file_type := "image/png"; file_size := 10 * 1024 * 1024 + 1 |}.

Definition pdf : File := {| file_type := "application/pdf"; file_size := 2048 |}.


(** A body without [probabilities]. *)
Definition truncated_result : value :=
  VObj [("predicted_class", VStr "Normal"); ("confidence", decimal 873 (-1))].

(** The first digit. *)
Definition leading (s : string) : option ascii :=
  match s with
  | String c _ => Some c
  | EmptyString => None
  end.

Definition starts_with (P : ascii -> bool) (s : string) : bool :=
  match s with
  | String c _ => P c
  | EmptyString => false
  end.

(** A character that can continue a number. *)
Definition number_char (c : ascii) : bool :=
  is_digit c || Ascii.eqb c "." || Ascii.eqb c "e" || Ascii.eqb c "E".

(** The text of a number: integer part, fraction and exponent. *)
Definition exponent_text (ex : option (bool * string)) : string :=
  match ex with
  | None => ""
  | Some (eneg, ed) => "e" +:+ (if eneg then "-" else "+") +:+ ed
  end.

Definition exponent_of (ex : option (bool * string)) : Z :=
  match ex with
  | None => 0
  | Some (eneg, ed) => if eneg then - digits_value 0 ed else digits_value 0 ed
  end.

Definition fraction_text (fp : string) : string :=
  match fp with
  | EmptyString => ""
  | _ => "." +:+ fp
  end.

Definition number_text (neg : bool) (ip fp : string) (ex : option (bool * string))
  : string :=
  (if neg then "-" else "") +:+ ip +:+ fraction_text fp +:+ exponent_text ex.

Definition good_int (ip : string) : Prop :=
  ip = "0" \/
  (all_digits ip = true /\
   exists c, leading ip = Some c /\ c <> "0"%char).

Definition good_exponent (ex : option (bool * string)) : Prop :=
  match ex with
  | None => True
  | Some (_, ed) => all_digits ed = true /\ ed <> ""
  end.

Definition with_sign (neg : bool) (x : number) : number :=
  match x with
  | NaN => NaN
  | Infinity _ => Infinity neg
  | Zero _ => Zero neg
  | Finite _ m e => Finite neg m e
  end.

(** The exact decimal expansion of a binary64 value: its digits and its
    exponent. *)
Definition exact_digits (m : positive) (e : Z) : Z * Z :=
  if e <? 0 then (Zpos m * 5 ^ (- e), e) else (Zpos m * 2 ^ e, 0).

(** [k1] may stand before [k2] in property order. *)
Definition key_before (k1 k2 : string) : bool :=
  match array_index k1, array_index k2 with
  | Some i, Some j => i <? j
  | None, Some _ => false
  | _, None => true
  end.

(** The keys of an object: no key twice, array indices ascending and first. *)
Fixpoint ordered_keys (ks : list string) : bool :=
  match ks with
  | [] => true
  | k :: rest =>
      negb (existsb (String.eqb k) rest) && forallb (key_before k) rest &&
      ordered_keys rest
  end.

(** The values [JSON.parse] builds: numbers are binary64 values, nothing is
    [undefined], and objects list their properties in property order. *)
Fixpoint wf_value (v : value) : Prop :=
  match v with
  | VUndefined => False
  | VNull | VBool _ | VStr _ => True
  | VNum x => wf_number x
  | VArr items =>
      (fix all (l : list value) : Prop :=
         match l with
         | [] => True
         | x :: l' => wf_value x /\ all l'
         end) items
  | VObj props =>
      ordered_keys (map fst props) = true /\
      (fix all (l : list (string * value)) : Prop :=
         match l with
         | [] => True
         | kv :: l' => wf_value (snd kv) /\ all l'
         end) props
  end.

(** What [JSON.parse (JSON.stringify v)] is: [v] with [null] for the numbers
    that are not finite and without the sign of zero. *)
Fixpoint normalize (v : value) : value :=
  match v with
  | VNum x =>
      if is_finite x then VNum (match x with Zero _ => Zero false | _ => x end)
      else VNull
  | VArr items => VArr (map normalize items)
  | VObj props => VObj (map (fun kv => (fst kv, normalize (snd kv))) props)
  | _ => v
  end.

Fixpoint size (v : value) : nat :=
  match v with
  | VArr items => S (fold_right (fun x n => S (size x + n)) O items)
  | VObj props => S (fold_right (fun kv n => S (size (snd kv) + n)) O props)
  | _ => 1
  end.

(** The text of the elements of an array after the bracket, and of the
    members of an object after the brace. *)
Fixpoint elements_text (l : list value) : string :=
  match l with
  | [] => "]"
  | v :: l' =>
      default "null" (serialize v) +:+
      match l' with
      | [] => "]"
      | _ => "," +:+ elements_text l'
      end
  end.

Fixpoint members_text (l : list (string * value)) : string :=
  match l with
  | [] => "}"
  | kv :: l' =>
      QuoteJSONString (fst kv) +:+ ":" +:+ default "null" (serialize (snd kv)) +:+
      match l' with
      | [] => "}"
      | _ => "," +:+ members_text l'
      end
  end.

Definition set_property (acc : list (string * value)) (kv : string * value) :=
  obj_set (fst kv) (snd kv) acc.

(** The text of a value starts neither with white space nor with a closing
    bracket. *)
Definition value_start (s : string) : Prop :=
  exists c t, s = String c t /\ is_ws c = false /\ c <> "]"%char.

(** [parse_value] on the text of [v], for the fuel and the rest at hand. *)
Definition reads_value (v : value) : Prop :=
  wf_value v ->
  forall fuel rest text,
    serialize v = Some text ->
    (size v <= fuel)%nat ->
    starts_with number_char rest = false ->
    parse_value fuel (text +:+ rest) = Some (normalize v, rest).

Definition elements_fuel (l : list value) : nat :=
  fold_right (fun x n => S (size x + n)) O l.

Definition members_fuel (l : list (string * value)) : nat :=
  fold_right (fun kv n => S (size (snd kv) + n)) O l.

(** The requests are as they were. *)
Definition same_requests (st st' : State) : Prop :=
  requests st' = requests st.

(** Why [predictXray] could not get a body to render: the rejection of
    [fetch], the error thrown on a status outside 200..299, or the rejection
    of [response.json()]. *)
Definition failure_cause (o : fetched) : option error :=
  match o with
  | Rejected e => Some e
  | Responded r =>
      if negb (ok r) then
        Some (Error ("HTTP error! status: " +:+
                     decimal_string (Z.of_N (status r))))
      else
        match content r with
        | InvalidBody => Some (SyntaxError "Unexpected token in JSON")
        | JsonBody _ => None
        end
  end.

(** What the status probe learns: whether [model_loaded] of a 2xx JSON body is
    truthy, or nothing. *)
Definition probe_answer (o : fetched) : option bool :=
  match o with
  | Rejected _ => None
  | Responded r =>
      if ok r then
        match content r with
        | JsonBody json =>
            match get json "model_loaded" with
            | Ok v => Some (ToBoolean v)
            | Throw _ => None
            end
        | InvalidBody => None
        end
      else None
  end.

Definition badge_text (answer : option bool) : string :=
  match answer with
  | Some true => "Ready (model loaded)"
  | Some false => "Ready (no model)"
  | None => "Offline"
  end.

Definition badge_colour (answer : option bool) : string :=
  match answer with
  | Some true => "text-green-600"
  | Some false => "text-yellow-600"
  | None => "text-red-600"
  end.

(** The elements [displayResults] shows a result with, after the texts. *)
Definition bar_elements : list string :=
  [covidBar; pneumoniaBar; normalBar; resultCard; resultsSection].

(** The page after a prediction was rendered and cached and the loading state
    left. *)
Definition answered (w : World) (text label : string) (c p1 p2 p3 : number)
    (st : State) : State :=
  let st3 := cached w text (rendered label c p1 p2 p3 st) in
  set_document (alter (with_class "hidden") loading (document st3)) st3.

(** The state a callback leaves: its exception is reported. *)
Definition reported {A} (r : outcome A * State) : State :=
  match r with
  | (Ok _, s) => s
  | (Throw e, s) => set_uncaught (uncaught s ++ [e]) s
  end.

(** The listeners [setupDragAndDrop] registers, those of [setupFileInput]
    with them, and the one of [setupContactForm]. *)
Definition drag_listeners : list (string * string * callback) :=
  [(dropZone, "dragenter", PreventDefaults); (dropZone, "dragover", PreventDefaults);
   (dropZone, "dragleave", PreventDefaults); (dropZone, "drop", PreventDefaults);
   (dropZone, "dragenter", Highlight); (dropZone, "dragover", Highlight);
   (dropZone, "dragleave", Unhighlight); (dropZone, "drop", Unhighlight);
   (dropZone, "drop", HandleDrop)].

Definition upload_listeners : list (string * string * callback) :=
  drag_listeners ++ [(fileInput, "change", HandleFileSelect)].

Definition contact_listeners : list (string * string * callback) :=
  [(contactForm, "submit", HandleContactSubmit)].

(** Every toast on the page has a timer that will remove it. *)
Definition timed (pg : Page) : Prop :=
  forall t, In t (toasts pg) -> In (fst t) (toast_timers pg).


(** The diagnosis page with a contact form on it, a page with the contact
    form and the badge only, the first page without its file input, and the
    fields of the form. *)
Definition site_state : State :=
  set_document (<[contactForm := blank]> (document diagnosis_page)) diagnosis_page.

Definition contact_state : State :=
  set_document (list_to_map [(contactForm, blank); (serverStatusBadge, blank)])
    diagnosis_page.

Definition no_input_state : State :=
  set_document (delete fileInput (document site_state)) site_state.

Definition contact_fields : Form :=
  {| form_entries := [("name", "Ada"); ("topic", "first"); ("topic", "second")];
     reset_entries := [("name", ""); ("topic", "")] |}.

(** A page at its load, before [init]. *)
Definition fresh_page (st : State) : Page :=
  {| state := st; listeners := []; forms := {[contactForm := contact_fields]};
     toasts := []; created := 0; toast_timers := [];
     defaultPrevented := false; propagationStopped := false |}.

(** The page with every listener of the script. *)
Definition wired_page : Page :=
  set_listeners (upload_listeners ++ contact_listeners) (fresh_page site_state).

Definition drag_event (type : string) (dropped : list File) : Event :=
  {| event_type := type; target := dropZone; cancelable := true;
     files := dropped |}.

Definition change_event (chosen : list File) : Event :=
  {| event_type := "change"; target := fileInput; cancelable := false;
     files := chosen |}.


(** A world in which a file read gives [data]. *)
Definition reading (data : string) : World :=
  {| fetch_result := fun _ => Rejected (TypeError "Failed to fetch");
     quota_exceeded := fun _ _ _ => false;
     now_iso := "2026-01-01T00:00:00.000Z";
     read_result := fun _ => Some data |}.

(** A second prediction, and a server that answers the file of 2 KB with the
    mock response and any other file with the second prediction. *)
Definition pneumonia_probabilities : value :=
  VObj [("Covid", decimal 21 (-1));
        ("Pneumonia", decimal 915 (-1));
        ("Normal", decimal 64 (-1))].

Definition pneumonia_result : value :=
  VObj [("predicted_class", VStr "Pneumonia");
        ("confidence", decimal 915 (-1));
        ("probabilities", pneumonia_probabilities)].

Definition server_by_size : World :=
  {| fetch_result := fun req =>
       match body req with
       | Some f =>
           if (file_size f =? 2048)%N then json_response 200 mock_result
           else json_response 200 pneumonia_result
       | None => Rejected (TypeError "Failed to fetch")
       end;
     quota_exceeded := fun _ _ _ => false;
     now_iso := "2026-01-01T00:00:00.000Z";
     read_result := fun _ => None |}.

(** A percentage of the data model: a binary64 value from 0 to 100. *)
Definition percentage (x : number) : Prop :=
  match x with
  | Zero _ => True
  | Finite false m e =>
      canonical m e /\ Zpos m * 2 ^ Z.max e 0 <= 100 * 2 ^ Z.max (- e) 0
  | _ => False
  end.

(** [n] tenths are [x] rounded to one decimal: [n / 10] is at most half a
    tenth from [x], and the larger of two tenths that are equally near.  For
    [x = m * 2 ^ e] this is [-1/2 < n - 10 * x <= 1/2] without fractions. *)
Definition nearest_tenth (x : number) (n : Z) : Prop :=
  match x with
  | Zero _ => n = 0
  | Finite false m e =>
      let num := Zpos m * 2 ^ Z.max e 0 in
      let den := 2 ^ Z.max (- e) 0 in
      - den < 2 * (n * den - 10 * num) <= den
  | _ => False
  end.

(** [n] tenths in decimal: the units, a point and one digit. *)
Definition tenths_text (n : Z) : string :=
  decimal_string (n / 10) +:+ "." +:+ decimal_string (n mod 10).

(** The numeral [s] denotes [x]: read as a decimal it is [x]. *)
Definition denotes (s : string) (x : number) : Prop :=
  exists y, parse_number s = Some (y, "") /\ Number_equal y x = true.

(** [s] is [x] written with one digit after the point, rounded to the nearest
    tenth and upwards from the middle. *)
Definition one_decimal (x : number) (s : string) : Prop :=
  exists n, nearest_tenth x n /\ s = tenths_text n.

(** A response whose numbers have two decimals: 87.25 lies in the middle of
    two tenths, and the binary64 value of 0.35 lies below the middle. *)
Definition two_decimal_probabilities : value :=
  VObj [("Covid", decimal 35 (-2));
        ("Pneumonia", decimal 124 (-1));
        ("Normal", decimal 8725 (-2))].

Definition two_decimal_result : value :=
  VObj [("predicted_class", VStr "Normal");
        ("confidence", decimal 8725 (-2));
        ("probabilities", two_decimal_probabilities)].

(** Every [\u] of a text is followed by [00]: its escapes stay in the code
    units 0 to 255 that the strings of the model hold. *)
Fixpoint narrow_escapes (s : string) : bool :=
  match s with
  | String c r =>
      (if Ascii.eqb c backslash then
         match r with
         | String "u" (String a (String b _)) => Ascii.eqb a "0" && Ascii.eqb b "0"
         | _ => true
         end
       else true) && narrow_escapes r
  | EmptyString => true
  end.

(** ** Proofs *)

(** *** Running DOM writes *)

Lemma update_element_run (n : string) (f : Element -> Element) (st : State) :
  present st n ->
  update_element n f st = (Ok tt, set_document (alter f n (document st)) st).
Proof.
  intros [el Hel]. unfold update_element. now rewrite Hel.
Qed.

Lemma update_element_null (n : string) (f : Element -> Element) (st : State) :
  document st !! n = None ->
  exists e, update_element n f st = (Throw e, st).
Proof.
  intros Hn. unfold update_element. rewrite Hn. eauto.
Qed.

Lemma present_alter (f : Element -> Element) (n k : string) (st : State) :
  present (set_document (alter f n (document st)) st) k <-> present st k.
Proof.
  unfold present. simpl. apply lookup_alter_is_Some.
Qed.

(** A relation between the state before and the state after that every step
    of a statement keeps, is kept by the statement. *)
Section Stable.
Variable R : State -> State -> Prop.
Hypothesis R_refl : forall st, R st st.
Hypothesis R_trans : forall a b c, R a b -> R b c -> R a c.

Lemma stable_ret {A} (a : A) : stable R (ret a).
Proof. intros st. apply R_refl. Qed.

Lemma stable_throw {A} (e : error) : stable R (@throw A e).
Proof. intros st. apply R_refl. Qed.

Lemma stable_lift {A} (o : outcome A) : stable R (lift o).
Proof. intros st. apply R_refl. Qed.

Lemma stable_bind {A B} (m : M A) (k : A -> M B) :
  stable R m -> (forall a, stable R (k a)) -> stable R (bind m k).
Proof.
  intros Hm Hk st. unfold bind. specialize (Hm st).
  destruct (m st) as [[a|e] st']; simpl in *; [|assumption].
  eapply R_trans; [eassumption|]. apply Hk.
Qed.

Lemma stable_try_catch {A} (m : M A) (h : error -> M A) :
  stable R m -> (forall e, stable R (h e)) -> stable R (try_catch m h).
Proof.
  intros Hm Hh st. unfold try_catch. specialize (Hm st).
  destruct (m st) as [[a|e] st']; simpl in *; [assumption|].
  eapply R_trans; [eassumption|]. apply Hh.
Qed.

Lemma stable_try_finally {A} (m : M A) (f : M unit) :
  stable R m -> stable R f -> stable R (try_finally m f).
Proof.
  intros Hm Hf st. unfold try_finally. specialize (Hm st).
  destruct (m st) as [r st']; simpl in *. specialize (Hf st').
  destruct (f st') as [[u|e] st'']; simpl in *;
    eapply R_trans; eassumption.
Qed.

Lemma stable_if {A} (b : bool) (m1 m2 : M A) :
  stable R m1 -> stable R m2 -> stable R (if b then m1 else m2).
Proof. now destruct b. Qed.
End Stable.

Lemma same_elements_refl st : same_elements st st.
Proof. now intros n. Qed.

Lemma same_elements_trans a b c :
  same_elements a b -> same_elements b c -> same_elements a c.
Proof. intros H1 H2 n. etransitivity; [apply H2 | apply H1]. Qed.

Lemma same_storage_refl st : same_storage st st.
Proof. reflexivity. Qed.

Lemma same_storage_trans a b c :
  same_storage a b -> same_storage b c -> same_storage a c.
Proof. unfold same_storage. congruence. Qed.

Lemma dom_only_refl st : dom_only st st.
Proof. now split. Qed.

Lemma dom_only_trans a b c : dom_only a b -> dom_only b c -> dom_only a c.
Proof. unfold dom_only. intros [] []. split; congruence. Qed.

Lemma update_element_elements n f : stable same_elements (update_element n f).
Proof.
  intros st k. unfold update_element.
  destruct (document st !! n) eqn:Hn; simpl; [|reflexivity].
  unfold present. simpl. apply lookup_alter_is_Some.
Qed.

Lemma update_element_dom_only n f : stable dom_only (update_element n f).
Proof.
  intros st. unfold update_element.
  destruct (document st !! n); simpl; now split.
Qed.

Lemma update_element_storage n f : stable same_storage (update_element n f).
Proof.
  intros st. unfold update_element.
  destruct (document st !! n); reflexivity.
Qed.

Lemma assign_textContent_elements n v : stable same_elements (assign_textContent n v).
Proof.
  intros st. unfold assign_textContent.
  destruct (document st !! n) eqn:Hn; [|apply same_elements_refl].
  apply stable_bind;
    [ apply same_elements_trans | apply stable_lift, same_elements_refl
    | intros; apply update_element_elements ].
Qed.

Lemma assign_textContent_storage n v : stable same_storage (assign_textContent n v).
Proof.
  intros st. unfold assign_textContent.
  destruct (document st !! n) eqn:Hn; [|reflexivity].
  apply stable_bind;
    [ apply same_storage_trans | apply stable_lift, same_storage_refl
    | intros; apply update_element_storage ].
Qed.

Create HintDb stable discriminated.

#[local] Hint Resolve same_elements_refl same_elements_trans
  same_storage_refl same_storage_trans dom_only_refl dom_only_trans : stable.
#[local] Hint Resolve stable_ret stable_throw stable_lift stable_if : stable.
#[local] Hint Resolve update_element_elements update_element_storage
  update_element_dom_only assign_textContent_elements
  assign_textContent_storage : stable.

(** Splits a statement into its steps and settles each with the hints. *)
Ltac stable_steps :=
  repeat first
    [ progress intros
    | apply stable_bind
    | apply stable_try_catch
    | apply stable_try_finally
    | apply stable_if
    | solve [eauto with stable] ].

Lemma keeps_document_elements {A} (m : M A) :
  (forall st, document (m st).2 = document st) -> stable same_elements m.
Proof. intros H st n. unfold present. now rewrite H. Qed.

Lemma keeps_storage {A} (m : M A) :
  (forall st, localStorage (m st).2 = localStorage st) -> stable same_storage m.
Proof. intros H st. apply H. Qed.

Lemma fetch_send_elements req : stable same_elements (fetch_send req).
Proof. now apply keeps_document_elements. Qed.

Lemma fetch_send_storage req : stable same_storage (fetch_send req).
Proof. now apply keeps_storage. Qed.

Lemma await_fetch_elements o : stable same_elements (await_fetch o).
Proof. destruct o; now apply keeps_document_elements. Qed.

Lemma await_fetch_storage o : stable same_storage (await_fetch o).
Proof. destruct o; now apply keeps_storage. Qed.

Lemma response_json_elements r : stable same_elements (response_json r).
Proof.
  unfold response_json. destruct (content r); now apply keeps_document_elements.
Qed.

Lemma response_json_storage r : stable same_storage (response_json r).
Proof. unfold response_json. destruct (content r); now apply keeps_storage. Qed.

Lemma setTimeout_elements t : stable same_elements (setTimeout t).
Proof. now apply keeps_document_elements. Qed.

Lemma setTimeout_storage t : stable same_storage (setTimeout t).
Proof. now apply keeps_storage. Qed.

Lemma console_error_elements l a : stable same_elements (console_error l a).
Proof. now apply keeps_document_elements. Qed.

Lemma console_error_storage l a : stable same_storage (console_error l a).
Proof. now apply keeps_storage. Qed.

Lemma console_log_elements l a : stable same_elements (console_log l a).
Proof. now apply keeps_document_elements. Qed.

Lemma localStorage_setItem_elements w k v :
  stable same_elements (localStorage_setItem w k v).
Proof.
  apply keeps_document_elements. intros st. unfold localStorage_setItem.
  now destruct (quota_exceeded w (localStorage st) k v).
Qed.

Lemma localStorage_getItem_elements k : stable same_elements (localStorage_getItem k).
Proof. now apply keeps_document_elements. Qed.

#[local] Hint Resolve fetch_send_elements fetch_send_storage
  await_fetch_elements await_fetch_storage response_json_elements
  response_json_storage setTimeout_elements setTimeout_storage
  console_error_elements console_error_storage console_log_elements
  localStorage_setItem_elements localStorage_getItem_elements : stable.

Ltac handles :=
  unfold loading_elements, error_elements, result_elements,
    dropZone, fileInput, imagePreview, previewImg, resultsSection, loading,
    resultCard, predictionText, confidenceText, covidProb, pneumoniaProb,
    normalProb, covidBar, pneumoniaBar, normalBar, errorMessage, errorText,
    serverStatusBadge in *.

Ltac reduce_state :=
  cbn [document localStorage console requests timers reads uncaught
       set_document set_localStorage set_console set_requests set_timers
       set_reads set_uncaught fst snd].

Ltac solve_present :=
  unfold present in *; reduce_state; rewrite ?lookup_alter_is_Some; assumption.

(** Proves that elements are on the page after writes to the page. *)
Ltac solve_elements :=
  handles; unfold present in *;
  repeat match goal with H : _ /\ _ |- _ => destruct H end;
  reduce_state; rewrite ?lookup_alter_is_Some; repeat split; assumption.

(** Runs the next write to an element that is on the page. *)
Ltac run_update :=
  match goal with
  | |- context [update_element ?n ?f ?st] =>
      rewrite (update_element_run n f st) by solve_present;
      cbv beta iota; reduce_state
  end.

(** Reads an element back through the writes made since. *)
Ltac lookup_dom :=
  reduce_state;
  repeat first [ rewrite lookup_alter_eq
               | rewrite lookup_alter_ne by discriminate ].

Lemma with_class_in (c : string) (el : Element) : c ∈ classList (with_class c el).
Proof. simpl. apply elem_of_union_l, elem_of_singleton. reflexivity. Qed.

Lemma without_class_out (c : string) (el : Element) :
  c ∉ classList (without_class c el).
Proof.
  simpl. rewrite elem_of_difference, elem_of_singleton. now intros [_ H].
Qed.

Lemma with_class_keeps (c d : string) (el : Element) :
  d ∈ classList el -> d ∈ classList (with_class c el).
Proof. simpl. apply elem_of_union_r. Qed.

(** *** The statements of the script, run on a page that has their elements *)

Lemma showError_run (message : string) (st : State) :
  error_elements st ->
  showError message st =
    (Ok tt,
     set_document
       (alter (with_class "hidden") resultsSection
          (alter (without_class "hidden") errorMessage
             (alter (with_text message) errorText (document st)))) st).
Proof.
  intros (H1 & H2 & H3).
  unfold showError, set_textContent, classList_remove, classList_add, bind.
  handles. repeat run_update. reflexivity.
Qed.

Lemma showLoading_run (st : State) :
  loading_elements st ->
  showLoading st =
    (Ok tt,
     set_document
       (alter (with_class "hidden") errorMessage
          (alter (with_class "hidden") resultCard
             (alter (without_class "hidden") resultsSection
                (alter (without_class "hidden") loading (document st))))) st).
Proof.
  intros (H1 & H2 & H3 & H4).
  unfold showLoading, classList_remove, classList_add, bind.
  handles. repeat run_update. reflexivity.
Qed.

Lemma hideLoading_run (st : State) :
  present st loading ->
  hideLoading st =
    (Ok tt, set_document (alter (with_class "hidden") loading (document st)) st).
Proof.
  intros H. unfold hideLoading, classList_add. now rewrite update_element_run.
Qed.

Lemma showError_elements message : stable same_elements (showError message).
Proof.
  unfold showError, set_textContent, classList_remove, classList_add.
  stable_steps.
Qed.

Lemma showError_storage message : stable same_storage (showError message).
Proof.
  unfold showError, set_textContent, classList_remove, classList_add.
  stable_steps.
Qed.

Lemma showError_dom_only message : stable dom_only (showError message).
Proof.
  unfold showError, set_textContent, classList_remove, classList_add.
  stable_steps.
Qed.

Lemma animateProgressBar_elements bar p :
  stable same_elements (animateProgressBar bar p).
Proof. unfold animateProgressBar, set_style_width. stable_steps. Qed.

Lemma animateProgressBar_storage bar p :
  stable same_storage (animateProgressBar bar p).
Proof. unfold animateProgressBar, set_style_width. stable_steps. Qed.

#[local] Hint Resolve showError_elements showError_storage
  animateProgressBar_elements animateProgressBar_storage : stable.

Lemma displayResults_elements result : stable same_elements (displayResults result).
Proof.
  unfold displayResults, set_textContent, classList_remove. stable_steps.
Qed.

Lemma displayResults_storage result : stable same_storage (displayResults result).
Proof.
  unfold displayResults, set_textContent, classList_remove. stable_steps.
Qed.

Lemma saveLastDiagnosis_elements w result :
  stable same_elements (saveLastDiagnosis w result).
Proof. unfold saveLastDiagnosis. stable_steps. Qed.

Lemma predictXray_catch_elements e : stable same_elements (predictXray_catch e).
Proof. unfold predictXray_catch. stable_steps. Qed.

Lemma predictXray_catch_storage e : stable same_storage (predictXray_catch e).
Proof. unfold predictXray_catch. stable_steps. Qed.

#[local] Hint Resolve displayResults_elements displayResults_storage
  saveLastDiagnosis_elements predictXray_catch_elements
  predictXray_catch_storage : stable.

Lemma predictXray_try_elements w file : stable same_elements (predictXray_try w file).
Proof. unfold predictXray_try, fetch. stable_steps. Qed.

(** *** validateFile and handleFiles *)

Lemma validateFile_invalid (file : File) (st : State) :
  includes allowedTypes (file_type file) = false \/ (maxSize < file_size file)%N ->
  exists message,
    (message = type_message \/ message = size_message) /\
    validateFile file st = (showError message ;; ret false) st.
Proof.
  intros Hbad. unfold validateFile.
  destruct (includes allowedTypes (file_type file)) eqn:Ht; simpl.
  - destruct Hbad as [Hbad | Hbad]; [discriminate|].
    apply N.ltb_lt in Hbad. rewrite Hbad.
    exists size_message. split; [now right | reflexivity].
  - exists type_message. split; [now left | reflexivity].
Qed.

Lemma validateFile_valid (file : File) (st : State) :
  includes allowedTypes (file_type file) = true ->
  (file_size file <= maxSize)%N ->
  validateFile file st = (Ok true, st).
Proof.
  intros Ht Hs. unfold validateFile. rewrite Ht. simpl.
  apply N.ltb_ge in Hs. now rewrite Hs.
Qed.

(** C1: a file of a type outside the allowed ones, or larger than 10 MiB, is
    answered with a validation message the user can see, and no request
    leaves: [handleFiles] ends without a call of [fetch], a file read, a timer
    or a change of the storage. *)
Theorem handleFiles_rejects_invalid_file (w : World) (file : File)
    (rest : list File) (st : State) :
  error_elements st ->
  includes allowedTypes (file_type file) = false \/ (maxSize < file_size file)%N ->
  exists st' message,
    handleFiles w (file :: rest) st = (Ok tt, st') /\
    (message = type_message \/ message = size_message) /\
    text_of st' errorText = Some message /\
    shown st' errorMessage /\
    requests st' = requests st /\
    reads st' = reads st /\
    timers st' = timers st /\
    localStorage st' = localStorage st.
Proof.
  intros Hel Hbad.
  destruct (validateFile_invalid file st Hbad) as (msg & Hmsg & Hv).
  pose proof (showError_run msg st Hel) as Hrun.
  eexists _, msg. split.
  { unfold handleFiles, bind at 1. rewrite Hv. unfold bind. rewrite Hrun.
    reflexivity. }
  destruct Hel as ([t Ht] & [m Hm] & [r Hr]). handles.
  repeat split; try assumption.
  - unfold text_of. lookup_dom. now rewrite Ht.
  - unfold shown. lookup_dom. rewrite Hm. eexists. split; [reflexivity|].
    apply without_class_out.
Qed.

(** Without the elements of the error message the write of the message
    throws; still no request leaves. *)
Lemma handleFiles_invalid_no_request (w : World) (file : File) (rest : list File)
    (st : State) :
  includes allowedTypes (file_type file) = false \/ (maxSize < file_size file)%N ->
  requests (handleFiles w (file :: rest) st).2 = requests st.
Proof.
  intros Hbad. destruct (validateFile_invalid file st Hbad) as (msg & _ & Hv).
  unfold handleFiles, bind at 1. rewrite Hv.
  pose proof (showError_dom_only msg st) as Hs. unfold bind.
  destruct (showError msg st) as [[[]|e] st']; simpl in *; apply Hs.
Qed.

(** C9: a file of exactly 10 MiB and an allowed type passes [validateFile],
    which changes nothing; one byte more is rejected, with the message that
    the size must be less than 10MB. *)
Theorem validateFile_accepts_exactly_10MiB (file : File) (st : State) :
  includes allowedTypes (file_type file) = true ->
  file_size file = (10 * 1024 * 1024)%N ->
  validateFile file st = (Ok true, st) /\
  forall extra : N,
    (0 < extra)%N ->
    validateFile {| file_type := file_type file;
                    file_size := file_size file + extra |} st =
    (showError "File size must be less than 10MB." ;; ret false) st.
Proof.
  intros Ht Hs. split.
  - apply validateFile_valid; [assumption|]. rewrite Hs. reflexivity.
  - intros extra Hextra. unfold validateFile. cbn [file_type file_size].
    rewrite Ht. cbn [negb].
    assert (Hlt : (maxSize <? file_size file + extra)%N = true).
    { apply N.ltb_lt. rewrite Hs. unfold maxSize. lia. }
    now rewrite Hlt.
Qed.

(** *** What an exception leaves behind *)

Lemma untouched_refl K st : untouched K st st.
Proof. unfold untouched. now apply Forall_forall. Qed.

Lemma untouched_trans K a b c :
  untouched K a b -> untouched K b c -> untouched K a c.
Proof.
  unfold untouched. rewrite !Forall_forall. intros H1 H2 n Hn.
  now rewrite H2, H1.
Qed.

Lemma update_element_untouched K n f :
  Forall (fun k => n <> k) K -> stable (untouched K) (update_element n f).
Proof.
  intros HK st. unfold update_element.
  destruct (document st !! n); [|apply untouched_refl].
  unfold untouched. simpl. eapply Forall_impl; [exact HK|].
  intros k Hk. now apply lookup_alter_ne.
Qed.

Lemma keeps_document_untouched {A} K (m : M A) :
  (forall st, document (m st).2 = document st) -> stable (untouched K) m.
Proof.
  intros H st. unfold untouched. apply Forall_forall. intros n _. now rewrite H.
Qed.

Lemma assign_textContent_untouched K n v :
  Forall (fun k => n <> k) K -> stable (untouched K) (assign_textContent n v).
Proof.
  intros HK st. unfold assign_textContent.
  destruct (document st !! n); [|apply untouched_refl].
  apply stable_bind;
    [ apply untouched_trans | apply stable_lift, untouched_refl
    | intros; now apply update_element_untouched ].
Qed.

Ltac other_elements :=
  unfold outcome_elements; handles; repeat constructor; discriminate.

Ltac untouched_steps :=
  repeat first
    [ exact (untouched_trans _)
    | exact (untouched_refl _)
    | progress intros
    | apply stable_bind
    | apply stable_if
    | apply stable_lift
    | apply stable_ret
    | apply stable_throw
    | apply update_element_untouched; other_elements
    | apply assign_textContent_untouched; other_elements
    | apply keeps_document_untouched; solve [intros; reflexivity] ].

Lemma throws_clean_bind {A B} K (m : M A) (k : A -> M B) :
  stable (untouched K) m -> stable same_elements m ->
  (forall a, throws_clean K (k a)) -> throws_clean K (bind m k).
Proof.
  intros Hu Hs Hk st e st' HK. unfold bind.
  specialize (Hu st). specialize (Hs st).
  destruct (m st) as [[a|e1] st1]; simpl in *.
  - intros Hka. eapply untouched_trans; [exact Hu|].
    eapply Hk; [|exact Hka]. eapply Forall_impl; [exact HK|].
    intros n Hn. now apply Hs.
  - intros [= <- <-]. exact Hu.
Qed.

Lemma throws_clean_never {A} K (m : M A) :
  (forall st, Forall (present st) K -> exists a st', m st = (Ok a, st')) ->
  throws_clean K m.
Proof.
  intros H st e st' HK Hm. destruct (H st HK) as (a & st1 & Heq).
  rewrite Heq in Hm. discriminate.
Qed.

Lemma saveLastDiagnosis_returns w result st :
  exists st', saveLastDiagnosis w result st = (Ok tt, st').
Proof.
  unfold saveLastDiagnosis, try_catch.
  match goal with |- context [match ?m st with _ => _ end] => destruct (m st) as [[[]|e] st1] end;
    eauto.
Qed.

Lemma displayResults_throws_clean result :
  throws_clean outcome_elements (displayResults result).
Proof.
  unfold displayResults, animateProgressBar, set_textContent, set_style_width.
  repeat (apply throws_clean_bind;
          [ solve [untouched_steps] | solve [stable_steps] | intros ]).
  apply throws_clean_never. intros st HK.
  unfold outcome_elements in HK.
  repeat match goal with H : Forall _ (_ :: _) |- _ => inversion_clear H end.
  unfold classList_remove, bind. handles. repeat run_update. eauto.
Qed.

Lemma throws_clean_then {A B} K (m : M A) (k : A -> M B) :
  throws_clean K m ->
  (forall a st, exists b st', k a st = (Ok b, st')) ->
  throws_clean K (bind m k).
Proof.
  intros Hm Hk st e st' HK. unfold bind.
  specialize (Hm st).
  destruct (m st) as [[a|e1] st1].
  - destruct (Hk a st1) as (b & st2 & Heq). rewrite Heq. discriminate.
  - intros [= <- <-]. now apply (Hm e1).
Qed.

Lemma await_fetch_untouched K o : stable (untouched K) (await_fetch o).
Proof. destruct o; now apply keeps_document_untouched. Qed.

Lemma response_json_untouched K r : stable (untouched K) (response_json r).
Proof.
  unfold response_json. destruct (content r); now apply keeps_document_untouched.
Qed.

Lemma predictXray_try_throws_clean w file :
  throws_clean outcome_elements (predictXray_try w file).
Proof.
  unfold predictXray_try, fetch.
  apply throws_clean_bind; [ | solve [stable_steps] | intros response ].
  { apply stable_bind; [exact (untouched_trans _) | | intros; apply await_fetch_untouched].
    now apply keeps_document_untouched. }
  apply throws_clean_bind; [ solve [untouched_steps] | solve [stable_steps] | intros _ ].
  apply throws_clean_bind;
    [ apply response_json_untouched | solve [stable_steps] | intros result ].
  apply throws_clean_then; [apply displayResults_throws_clean|].
  intros [] st. destruct (saveLastDiagnosis_returns w result st) as [st' H].
  eauto.
Qed.

(** The catch block and the finally block, after the try block threw. *)
Lemma predictXray_caught (w : World) (file : File) (st st2 : State) (e : error) :
  loading_elements st ->
  present st errorText ->
  predictXray_try w file (showLoading st).2 = (Throw e, st2) ->
  exists st',
    predictXray w file st = (Ok tt, st') /\
    text_of st' errorText = Some failure_message /\
    shown st' errorMessage /\
    hidden st' resultsSection /\
    hidden st' resultCard /\
    hidden st' loading /\
    localStorage st' = localStorage st2 /\
    timers st' = timers st2 /\
    console st' = console st2 ++ [ConsoleError "Prediction error:" (LError e)].
Proof.
  intros Hl Ht Htry.
  rewrite showLoading_run in Htry by assumption. cbn [snd] in Htry.
  assert (HK : Forall (present (set_document
       (alter (with_class "hidden") errorMessage
          (alter (with_class "hidden") resultCard
             (alter (without_class "hidden") resultsSection
                (alter (without_class "hidden") loading (document st))))) st))
     outcome_elements).
  { unfold outcome_elements. repeat constructor; solve_elements. }
  pose proof (predictXray_try_throws_clean w file _ _ _ HK Htry) as Hclean.
  pose proof (predictXray_try_elements w file _ : same_elements _ (_ (set_document
       (alter (with_class "hidden") errorMessage
          (alter (with_class "hidden") resultCard
             (alter (without_class "hidden") resultsSection
                (alter (without_class "hidden") loading (document st))))) st)).2)
    as Hsame.
  rewrite Htry in Hsame. cbn [snd] in Hsame.
  unfold outcome_elements, untouched in Hclean. reduce_state.
  repeat match goal with H : Forall _ (_ :: _) |- _ => inversion_clear H end.
  assert (Hel2 : error_elements st2 /\ present st2 loading).
  { unfold error_elements. unfold same_elements in Hsame.
    repeat split; apply Hsame; solve_elements. }
  destruct Hel2 as [Hel2 Hlo2].
  unfold predictXray, bind at 1. rewrite showLoading_run by assumption.
  unfold try_finally, try_catch. rewrite Htry.
  unfold predictXray_catch, console_error, bind. reduce_state.
  rewrite showError_run by solve_elements. reduce_state.
  rewrite hideLoading_run by solve_elements. reduce_state.
  eexists. split; [reflexivity|].
  destruct Hl as ([l Hl] & [r Hr] & [c Hc] & [m Hm]). destruct Ht as [t Ht].
  handles. reduce_state.
  repeat split.
  - unfold text_of. lookup_dom.
    match goal with H : document st2 !! "error-message p" = _ |- _ => rewrite H end.
    lookup_dom. now rewrite Ht.
  - unfold shown. lookup_dom.
    match goal with H : document st2 !! "error-message" = _ |- _ => rewrite H end.
    lookup_dom. rewrite Hm. eexists. split; [reflexivity|].
    apply without_class_out.
  - unfold hidden. lookup_dom.
    match goal with H : document st2 !! "results-section" = _ |- _ => rewrite H end.
    lookup_dom. rewrite Hr. eexists. split; [reflexivity|]. apply with_class_in.
  - unfold hidden. lookup_dom.
    match goal with H : document st2 !! "result-card" = _ |- _ => rewrite H end.
    lookup_dom. rewrite Hc. eexists. split; [reflexivity|]. apply with_class_in.
  - unfold hidden. lookup_dom.
    match goal with H : document st2 !! "loading" = _ |- _ => rewrite H end.
    lookup_dom. rewrite Hl. eexists. split; [reflexivity|]. apply with_class_in.
Qed.

(** *** Inverting a statement that ended normally *)

Lemma bind_Ok_inv {A B} (m : M A) (k : A -> M B) st b st' :
  bind m k st = (Ok b, st') ->
  exists a st1, m st = (Ok a, st1) /\ k a st1 = (Ok b, st').
Proof.
  unfold bind. destruct (m st) as [[a|e] st1]; [eauto | discriminate].
Qed.

Lemma lift_Ok_inv {A} (o : outcome A) st a st' :
  lift o st = (Ok a, st') -> o = Ok a /\ st' = st.
Proof. unfold lift. now intros [= -> ->]. Qed.

Lemma call_toFixed1_Ok_inv v s :
  call_toFixed1 v = Ok s -> exists x, v = VNum x.
Proof. destruct v; try discriminate. eauto. Qed.

Lemma not_Ok_throws {A} (m : M A) st :
  (forall a st', m st <> (Ok a, st')) -> exists e st', m st = (Throw e, st').
Proof.
  intros H. destruct (m st) as [[a|e] st']; [now destruct (H a st') | eauto].
Qed.

(** [displayResults] ends normally only on a result with numbers. *)
Lemma displayResults_Ok_shape result st st' :
  displayResults result st = (Ok tt, st') -> numeric_shape result.
Proof.
  unfold displayResults. intros H.
  repeat (apply bind_Ok_inv in H; destruct H as (? & ? & ? & H)).
  repeat match goal with
         | H : lift _ _ = (Ok _, _) |- _ => apply lift_Ok_inv in H; destruct H as [H ?]
         end.
  repeat match goal with
         | H : call_toFixed1 _ = Ok _ |- _ =>
             apply call_toFixed1_Ok_inv in H; destruct H as [? ->]
         end.
  subst.
  repeat match goal with
         | H1 : get result "probabilities" = Ok ?a,
           H2 : get result "probabilities" = Ok ?b |- _ =>
             assert (b = a) by congruence; subst b; clear H2
         end.
  unfold numeric_shape. eauto 10.
Qed.

Lemma displayResults_throws result st :
  ~ numeric_shape result ->
  exists e st', displayResults result st = (Throw e, st').
Proof.
  intros Hn. apply not_Ok_throws. intros [] st' H.
  apply Hn. eapply displayResults_Ok_shape. exact H.
Qed.

(** *** predictXray *)

Lemma predictXray_try_fails (w : World) (file : File) (st : State) :
  (exists e, fetch_result w (predict_request file) = Rejected e) \/
  (exists r, fetch_result w (predict_request file) = Responded r /\
             (ok r = false \/ content r = InvalidBody)) ->
  exists e,
    predictXray_try w file st =
    (Throw e, set_requests (requests st ++ [predict_request file]) st).
Proof.
  intros Hfail. unfold predictXray_try, fetch, fetch_send, bind at 1 2.
  destruct Hfail as [[e He] | (r & Hr & Hbad)].
  - rewrite He. eexists. reflexivity.
  - rewrite Hr. cbn [await_fetch ret]. unfold bind at 1.
    destruct (ok r) eqn:Hok; cbn [negb throw ret]; [|eexists; reflexivity].
    destruct Hbad as [Hbad | Hbad]; [discriminate|].
    unfold bind at 1, response_json. rewrite Hbad. eexists. reflexivity.
Qed.

(** C3: when the request fails in transport or the server answers outside
    200..299, [predictXray] shows the generic failure message and hides the
    results panel; the result card stays hidden and no bar is animated. *)
Theorem predictXray_failure_shows_error (w : World) (file : File) (st : State) :
  loading_elements st ->
  present st errorText ->
  (exists e, fetch_result w (predict_request file) = Rejected e) \/
  (exists r, fetch_result w (predict_request file) = Responded r /\ ok r = false) ->
  exists st',
    predictXray w file st = (Ok tt, st') /\
    text_of st' errorText = Some "Failed to analyze the image. Please try again." /\
    shown st' errorMessage /\
    hidden st' resultsSection /\
    hidden st' resultCard /\
    hidden st' loading /\
    timers st' = timers st.
Proof.
  intros Hl Ht Hfail.
  destruct (predictXray_try_fails w file (showLoading st).2) as [e He].
  { destruct Hfail as [H | (r & Hr & Hok)]; [now left | right; eauto]. }
  destruct (predictXray_caught w file st _ e Hl Ht He)
    as (st' & Hrun & H1 & H2 & H3 & H4 & H5 & _ & H6 & _).
  exists st'. repeat split; try assumption.
  rewrite H6, showLoading_run by assumption. reflexivity.
Qed.

(** C4: however the request ends, [predictXray] leaves the loading state:
    when it is over the loading element carries the class [hidden]. *)
Theorem predictXray_always_hides_loading (w : World) (file : File) (st : State) :
  loading_elements st ->
  hidden (predictXray w file st).2 loading.
Proof.
  intros Hl. unfold predictXray, bind at 1.
  rewrite showLoading_run by assumption. unfold try_finally.
  match goal with
  | |- context [try_catch ?m ?h ?s] =>
      pose proof (stable_try_catch same_elements same_elements_trans m h
                    (predictXray_try_elements w file)
                    predictXray_catch_elements s) as Hsame;
      destruct (try_catch m h s) as [r st2]
  end.
  cbn [snd] in Hsame.
  assert (Hp : present st2 loading) by (apply Hsame; solve_elements).
  rewrite hideLoading_run by assumption.
  destruct Hp as [el Hel]. unfold hidden. cbn [snd]. lookup_dom.
  rewrite Hel. eexists. split; [reflexivity|]. apply with_class_in.
Qed.

(** [predictXray] is its synchronous part followed by its resumption. *)
Lemma predictXray_sync_resume (w : World) (file : File) (st : State) :
  predictXray w file st = (predictXray_sync file ;; predictXray_resume w file) st.
Proof.
  unfold predictXray, predictXray_sync, predictXray_resume, predictXray_try,
    fetch, try_finally, try_catch, bind, fetch_send.
  destruct (showLoading st) as [[[]|e] st1]; reflexivity.
Qed.


(** *** checkServerStatus *)

Lemma badge_run (text colour : string) (st : State) (el : Element) :
  document st !! serverStatusBadge = Some el ->
  (set_textContent serverStatusBadge text ;;
   classList_add serverStatusBadge colour) st =
  (Ok tt,
   set_document
     (<[serverStatusBadge := with_class colour (with_text text el)]> (document st))
     st).
Proof.
  intros Hel. assert (Hp : present st serverStatusBadge) by (now exists el).
  unfold set_textContent, classList_add, bind. repeat run_update.
  f_equal. unfold set_document. f_equal. apply map_eq. intros k.
  destruct (decide (k = serverStatusBadge)) as [->|Hne].
  - rewrite lookup_insert_eq, !lookup_alter_eq, Hel. reflexivity.
  - rewrite lookup_insert_ne, !lookup_alter_ne by congruence. reflexivity.
Qed.

(** C8: the probe leaves the badge in one of three states, and in the
    offline state whenever the probe failed; it returns normally, nothing is
    thrown to its caller. *)
Theorem checkServerStatus_sets_badge (w : World) (st : State) (el : Element) :
  document st !! serverStatusBadge = Some el ->
  exists text colour,
    ((text = "Ready (model loaded)" /\ colour = "text-green-600") \/
     (text = "Ready (no model)" /\ colour = "text-yellow-600") \/
     (text = "Offline" /\ colour = "text-red-600")) /\
    checkServerStatus w st =
      (Ok tt,
       set_document
         (<[serverStatusBadge := with_class colour (with_text text el)]>
            (document st))
         (set_requests (requests st ++ [status_request]) st)) /\
    (probe_failed w -> text = "Offline").
Proof.
  intros Hel. unfold probe_failed.
  unfold checkServerStatus, try_catch, fetch, fetch_send, bind at 1 2.
  destruct (fetch_result w status_request) as [e | r].
  { exists "Offline", "text-red-600". cbn [await_fetch throw].
    rewrite (badge_run _ _ _ el) by assumption. auto 10. }
  cbn [await_fetch ret]. unfold bind at 1.
  destruct (ok r) eqn:Hok; cbn [negb throw ret].
  2:{ exists "Offline", "text-red-600".
      rewrite (badge_run _ _ _ el) by assumption. auto 10. }
  unfold bind at 1, response_json.
  destruct (content r) as [json|] eqn:Hbody; cbn [throw ret].
  2:{ exists "Offline", "text-red-600".
      rewrite (badge_run _ _ _ el) by assumption. auto 10. }
  unfold bind at 1, lift.
  destruct (get json "model_loaded") as [model_loaded | e].
  2:{ exists "Offline", "text-red-600".
      rewrite (badge_run _ _ _ el) by assumption. auto 10. }
  destruct (ToBoolean model_loaded).
  - exists "Ready (model loaded)", "text-green-600".
    rewrite (badge_run _ _ _ el) by assumption.
    repeat split; auto. intros [|]; congruence.
  - exists "Ready (no model)", "text-yellow-600".
    rewrite (badge_run _ _ _ el) by assumption.
    repeat split; auto. intros [|]; congruence.
Qed.

(** *** displayResults *)

Lemma displayResults_run (result : value) (label : string) (c : number)
    (probabilities : value) (p1 p2 p3 : number) (st : State) :
  result_elements st ->
  prediction_shape result label c probabilities p1 p2 p3 ->
  displayResults result st = (Ok tt, rendered label c p1 p2 p3 st).
Proof.
  intros Hel (Hl & Hc & Hp & H1 & H2 & H3).
  unfold displayResults, animateProgressBar, assign_textContent, set_textContent,
    set_style_width, classList_remove, setTimeout, lift, bind.
  rewrite Hl, Hc, Hp, H1, H2, H3. cbn [call_toFixed1 to_DOMString ToString].
  destruct Hel as (E1 & E2 & E3 & E4 & E5 & E6 & E7 & E8 & E9 & E10).
  handles.
  destruct E1 as [el1 E1]. rewrite E1.
  assert (E1' : present st "prediction-text") by (now exists el1).
  repeat run_update. reflexivity.
Qed.

(** *** Timers *)

Lemma run_timers_fold (st : State) :
  run_timers st = fold_left fire (timers st) (set_timers [] st).
Proof. reflexivity. Qed.

Lemma fire_elements (s : State) (t : timer) : same_elements s (fire s t).
Proof.
  unfold fire.
  assert (H : stable same_elements (run_timer t)).
  { destruct t. unfold run_timer, set_style_width. stable_steps. }
  specialize (H s). destruct (run_timer t s) as [[[]|e] s']; exact H.
Qed.

Lemma fold_fire_elements (l : list timer) (s : State) :
  same_elements s (fold_left fire l s).
Proof.
  revert s. induction l as [|t l IH]; intros s; simpl.
  - apply same_elements_refl.
  - eapply same_elements_trans; [apply fire_elements | apply IH].
Qed.

(** *** The cache *)

Lemma bind_Throw_inv {A B} (m : M A) (k : A -> M B) st e st' :
  bind m k st = (Throw e, st') ->
  m st = (Throw e, st') \/
  exists a st1, m st = (Ok a, st1) /\ k a st1 = (Throw e, st').
Proof.
  unfold bind. destruct (m st) as [[a|e1] st1]; [eauto | intros [= <- <-]; auto].
Qed.

Lemma stable_result {A} (R : State -> State -> Prop) (m : M A) st r st' :
  stable R m -> m st = (r, st') -> R st st'.
Proof. intros H Hm. specialize (H st). now rewrite Hm in H. Qed.

Lemma fetch_storage w req : stable same_storage (fetch w req).
Proof. unfold fetch. stable_steps. Qed.

Lemma showLoading_storage : stable same_storage showLoading.
Proof. unfold showLoading, classList_remove, classList_add. stable_steps. Qed.

Lemma hideLoading_storage : stable same_storage hideLoading.
Proof. unfold hideLoading, classList_add. stable_steps. Qed.

(** An exception of the try block leaves the storage as it was: the write to
    the storage is the last step, and [saveLastDiagnosis] does not throw. *)
Lemma predictXray_try_throw_storage (w : World) (file : File) st e st' :
  predictXray_try w file st = (Throw e, st') ->
  localStorage st' = localStorage st.
Proof.
  unfold predictXray_try. intros H.
  apply bind_Throw_inv in H as [H | (response & s1 & H1 & H)].
  { exact (stable_result same_storage _ _ _ _ (fetch_storage w _) H). }
  pose proof (stable_result same_storage _ _ _ _ (fetch_storage w _) H1) as S1.
  apply bind_Throw_inv in H as [H | ([] & s2 & H2 & H)].
  { destruct (negb (ok response)); [|discriminate].
    unfold throw in H. injection H as _ <-. exact S1. }
  assert (S2 : same_storage s1 s2).
  { destruct (negb (ok response)); [discriminate|].
    unfold ret in H2. injection H2 as <-. reflexivity. }
  apply bind_Throw_inv in H as [H | (result & s3 & H3 & H)].
  { pose proof (stable_result same_storage _ _ _ _ (response_json_storage _) H).
    unfold same_storage in *. congruence. }
  pose proof (stable_result same_storage _ _ _ _ (response_json_storage _) H3) as S3.
  apply bind_Throw_inv in H as [H | ([] & s4 & H4 & H)].
  { pose proof (stable_result same_storage _ _ _ _ (displayResults_storage _) H).
    unfold same_storage in *. congruence. }
  destruct (saveLastDiagnosis_returns w result s4) as [s5 Hs]. congruence.
Qed.

Lemma predictXray_throw_storage (w : World) (file : File) st e st1 st2 :
  showLoading st = (Ok tt, st1) ->
  predictXray_try w file st1 = (Throw e, st2) ->
  localStorage (predictXray w file st).2 = localStorage st.
Proof.
  intros Hshow Htry. unfold predictXray, bind at 1. rewrite Hshow.
  unfold try_finally, try_catch. rewrite Htry.
  pose proof (stable_result same_storage _ _ _ _ showLoading_storage Hshow) as S1.
  pose proof (predictXray_try_throw_storage _ _ _ _ _ Htry) as S2.
  pose proof (predictXray_catch_storage e st2) as S3.
  destruct (predictXray_catch e st2) as [r3 st3]. cbn [snd] in S3.
  pose proof (hideLoading_storage st3) as S4.
  destruct (hideLoading st3) as [[[]|e4] st4]; cbn [snd] in *;
    unfold same_storage in *; congruence.
Qed.

Lemma serialize_object (props : list (string * value)) :
  exists text, serialize (VObj props) = Some text.
Proof. simpl. eauto. Qed.

Lemma saveLastDiagnosis_run (w : World) (result : value) (text : string) st :
  serialize (VObj (obj_set "timestamp" (VStr (now_iso w)) (spread result))) =
    Some text ->
  saveLastDiagnosis w result st =
  (Ok tt,
   if quota_exceeded w (localStorage st) "lastDiagnosis" text
   then set_console (console st ++
          [ConsoleError "Failed to save diagnosis:" (LError quota_error)]) st
   else set_localStorage (<["lastDiagnosis" := text]> (localStorage st)) st).
Proof.
  intros Hs. unfold saveLastDiagnosis, try_catch, bind, lift, JSON_stringify.
  rewrite Hs. cbn [ToString]. unfold localStorage_setItem.
  destruct (quota_exceeded w (localStorage st) "lastDiagnosis" text); reflexivity.
Qed.

Lemma cached_document w text st : document (cached w text st) = document st.
Proof.
  unfold cached.
  now destruct (quota_exceeded w (localStorage st) "lastDiagnosis" text).
Qed.

(** The whole of [predictXray] on a response that carries a prediction. *)
Lemma predictXray_success (w : World) (file : File) (st : State) (r : response)
    (result : value) (label : string) (c : number) (probabilities : value)
    (p1 p2 p3 : number) (text : string) :
  loading_elements st ->
  result_elements st ->
  fetch_result w (predict_request file) = Responded r ->
  ok r = true ->
  content r = JsonBody result ->
  prediction_shape result label c probabilities p1 p2 p3 ->
  serialize (VObj (obj_set "timestamp" (VStr (now_iso w)) (spread result))) =
    Some text ->
  let st3 :=
    cached w text
      (rendered label c p1 p2 p3
         (set_requests (requests st ++ [predict_request file])
            (loading_state st))) in
  predictXray w file st =
  (Ok tt, set_document (alter (with_class "hidden") loading (document st3)) st3).
Proof.
  intros Hl Hr Hf Hok Hbody Hshape Htext st3.
  unfold predictXray, bind at 1. rewrite showLoading_run by assumption.
  fold (loading_state st).
  unfold try_finally, try_catch, predictXray_try, fetch, fetch_send, bind at 1 2.
  rewrite Hf. cbn [await_fetch ret]. unfold bind at 1. rewrite Hok.
  cbn [negb ret]. unfold bind at 1, response_json. rewrite Hbody. cbn [ret].
  unfold bind at 1.
  rewrite (displayResults_run result label c probabilities p1 p2 p3)
    by (try assumption; unfold loading_state; solve_elements).
  rewrite (saveLastDiagnosis_run w result text) by assumption.
  fold (cached w text (rendered label c p1 p2 p3
          (set_requests (requests st ++ [predict_request file])
             (loading_state st)))).
  fold st3.
  rewrite hideLoading_run; [reflexivity|].
  match goal with |- context [if ?b then _ else _] => destruct b end;
    unfold rendered, loading_state; solve_elements.
Qed.

Lemma predictXray_try_render_throws (w : World) (file : File) (st : State)
    (r : response) (result : value) :
  fetch_result w (predict_request file) = Responded r ->
  content r = JsonBody result ->
  ~ numeric_shape result ->
  exists e st2, predictXray_try w file st = (Throw e, st2).
Proof.
  intros Hf Hbody Hn.
  unfold predictXray_try, fetch, fetch_send, bind at 1 2.
  rewrite Hf. cbn [await_fetch ret]. unfold bind at 1.
  destruct (ok r); cbn [negb throw ret]; [|eauto].
  unfold bind at 1, response_json. rewrite Hbody. cbn [ret]. unfold bind at 1.
  match goal with
  | |- context [displayResults result ?s] =>
      destruct (displayResults_throws result s Hn) as (e & st2 & ->)
  end.
  eauto.
Qed.

(** *** A page, a server and a file to run the script on *)


Lemma diagnosis_page_elements :
  loading_elements diagnosis_page /\ error_elements diagnosis_page /\
  result_elements diagnosis_page /\ present diagnosis_page serverStatusBadge.
Proof.
  unfold loading_elements, error_elements, result_elements, present.
  repeat split; vm_compute; eauto.
Defined.





(** ** JSON text: [JSON.parse] reads what [JSON.stringify] writes *)

(** *** Strings *)

Lemma append_assoc (a b c : string) : (a +:+ b) +:+ c = a +:+ (b +:+ c).
Proof. induction a as [|x a IH]; simpl; [reflexivity | now rewrite IH]. Qed.

Lemma append_nil_r (a : string) : a +:+ "" = a.
Proof. induction a as [|x a IH]; simpl; [reflexivity | now rewrite IH]. Qed.

Lemma length_append (a b : string) :
  String.length (a +:+ b) = (String.length a + String.length b)%nat.
Proof. induction a as [|x a IH]; simpl; [reflexivity | now rewrite IH]. Qed.

(** *** Decimal digits *)

Lemma decimal_induction (P : Z -> Prop) :
  (forall n, 0 <= n < 10 -> P n) ->
  (forall n, 10 <= n -> P (n / 10) -> P n) ->
  forall n, 0 <= n -> P n.
Proof.
  intros Hsmall Hstep n Hn. pattern n. apply Zlt_0_ind; [|assumption].
  intros x IH Hx. destruct (Z_lt_dec x 10) as [Hlt | Hge].
  - apply Hsmall. lia.
  - apply Hstep; [lia|]. apply IH. split.
    + apply Z.div_pos; lia.
    + apply Z.div_lt; lia.
Qed.

Lemma decimal_aux_app (fuel : nat) (n : Z) (acc : string) :
  decimal_aux fuel n acc = decimal_aux fuel n "" +:+ acc.
Proof.
  revert n acc. induction fuel as [|fuel IH]; intros n acc; simpl; [reflexivity|].
  destruct (n <? 10); [reflexivity|].
  rewrite IH, (IH _ (String _ "")), append_assoc. reflexivity.
Qed.

Lemma decimal_aux_fuel (f1 f2 : nat) (n : Z) (acc : string) :
  (1 <= f1)%nat -> (1 <= f2)%nat ->
  0 <= n < 2 ^ Z.of_nat f1 -> n < 2 ^ Z.of_nat f2 ->
  decimal_aux f1 n acc = decimal_aux f2 n acc.
Proof.
  revert f2 n acc. induction f1 as [|f1 IH]; intros f2 n acc H1 H2 Hn1 Hn2; [lia|].
  destruct f2 as [|f2]; [lia|]. simpl.
  destruct (n <? 10) eqn:Hlt; [reflexivity|]. apply Z.ltb_ge in Hlt.
  rewrite Nat2Z.inj_succ, Z.pow_succ_r in Hn1, Hn2 by lia.
  assert (Hdiv : 0 <= n / 10) by (apply Z.div_pos; lia).
  assert (Hdiv1 : n / 10 < 2 ^ Z.of_nat f1).
  { apply Z.div_lt_upper_bound; lia. }
  assert (Hdiv2 : n / 10 < 2 ^ Z.of_nat f2).
  { apply Z.div_lt_upper_bound; lia. }
  apply IH; try lia.
  - destruct f1; [simpl in Hn1; lia | lia].
  - destruct f2; [simpl in Hn2; lia | lia].
Qed.

Lemma log2_fuel (n : Z) : 0 <= n -> n < 2 ^ Z.of_nat (S (Z.to_nat (Z.log2 n))).
Proof.
  intros Hn. rewrite Nat2Z.inj_succ, Z2Nat.id by apply Z.log2_nonneg.
  destruct (Z.eq_dec n 0) as [->|Hne]; [reflexivity|].
  apply Z.log2_spec. lia.
Qed.

Lemma decimal_string_small (n : Z) :
  0 <= n < 10 -> decimal_string n = String (digit_char n) "".
Proof.
  intros Hn. unfold decimal_string. simpl.
  rewrite Z.mod_small by lia.
  destruct (n <? 10) eqn:Hlt; [reflexivity|]. apply Z.ltb_ge in Hlt. lia.
Qed.

Lemma decimal_string_step (n : Z) :
  10 <= n ->
  decimal_string n =
  decimal_string (n / 10) +:+ String (digit_char (n mod 10)) "".
Proof.
  intros Hn. unfold decimal_string at 1. simpl.
  destruct (n <? 10) eqn:Hlt; [apply Z.ltb_lt in Hlt; lia|].
  rewrite decimal_aux_app. f_equal. unfold decimal_string.
  assert (Hdiv : 0 <= n / 10 < n).
  { split; [apply Z.div_pos; lia | apply Z.div_lt; lia]. }
  assert (Hlog : 1 <= Z.log2 n).
  { apply Z.log2_le_pow2; simpl; lia. }
  apply decimal_aux_fuel; try lia.
  - split; [lia|].
    assert (H := log2_fuel n ltac:(lia)).
    rewrite Nat2Z.inj_succ, Z2Nat.id in H by lia.
    rewrite Z2Nat.id by lia. rewrite Z.pow_succ_r in H by lia.
    apply Z.div_lt_upper_bound; lia.
  - apply log2_fuel. lia.
Qed.

Lemma digit_char_spec (d : Z) :
  0 <= d < 10 ->
  is_digit (digit_char d) = true /\ digit_value (digit_char d) = d.
Proof.
  intros Hd.
  assert (H : d = 0 \/ d = 1 \/ d = 2 \/ d = 3 \/ d = 4 \/ d = 5 \/ d = 6 \/
              d = 7 \/ d = 8 \/ d = 9) by lia.
  repeat destruct H as [-> | H]; try subst d; split; reflexivity.
Qed.

Lemma all_digits_app (a b : string) :
  all_digits (a +:+ b) = all_digits a && all_digits b.
Proof.
  induction a as [|x a IH]; simpl; [reflexivity|].
  rewrite IH. now rewrite andb_assoc.
Qed.

Lemma digits_value_app (acc : Z) (a b : string) :
  digits_value acc (a +:+ b) = digits_value (digits_value acc a) b.
Proof. revert acc. induction a as [|x a IH]; intros acc; simpl; auto. Qed.

Lemma decimal_string_digits (n : Z) : 0 <= n -> all_digits (decimal_string n) = true.
Proof.
  intros Hn. pattern n. apply decimal_induction; [| |assumption]; clear n Hn.
  - intros n Hn. rewrite decimal_string_small by assumption. simpl.
    now rewrite (proj1 (digit_char_spec n Hn)).
  - intros n Hn IH. rewrite decimal_string_step, all_digits_app, IH by assumption.
    assert (Hm : 0 <= n mod 10 < 10) by (apply Z.mod_pos_bound; lia).
    simpl. now rewrite (proj1 (digit_char_spec (n mod 10) Hm)).
Qed.

Lemma decimal_string_value (n : Z) :
  0 <= n -> digits_value 0 (decimal_string n) = n.
Proof.
  intros Hn. pattern n. apply decimal_induction; [| |assumption]; clear n Hn.
  - intros n Hn. rewrite decimal_string_small by assumption. simpl.
    rewrite (proj2 (digit_char_spec n Hn)). lia.
  - intros n Hn IH. rewrite decimal_string_step, digits_value_app, IH by assumption.
    assert (Hm : 0 <= n mod 10 < 10) by (apply Z.mod_pos_bound; lia).
    simpl. rewrite (proj2 (digit_char_spec (n mod 10) Hm)).
    pose proof (Z.div_mod n 10). lia.
Qed.

Lemma leading_app (a b : string) :
  a <> "" -> leading (a +:+ b) = leading a.
Proof. destruct a; [congruence | reflexivity]. Qed.

(** The representation of a positive number starts with a digit 1 to 9. *)
Lemma decimal_string_leading (n : Z) :
  0 < n ->
  exists c, leading (decimal_string n) = Some c /\
            is_digit c = true /\ c <> "0"%char.
Proof.
  intros Hn. assert (H0 : 0 <= n) by lia. revert Hn. pattern n.
  apply decimal_induction; [| |assumption]; clear n H0.
  - intros n Hn Hpos. rewrite decimal_string_small by assumption.
    exists (digit_char n). split; [reflexivity|].
    split; [apply digit_char_spec; assumption|].
    assert (H : n = 1 \/ n = 2 \/ n = 3 \/ n = 4 \/ n = 5 \/ n = 6 \/
                n = 7 \/ n = 8 \/ n = 9) by lia.
    repeat destruct H as [-> | H]; try subst n; discriminate.
  - intros n Hn IH _. rewrite decimal_string_step by assumption.
    destruct IH as (c & Hc & Hd & Hz).
    { apply Z.div_str_pos. lia. }
    exists c. rewrite leading_app; [auto|].
    intros Hempty. rewrite Hempty in Hc. discriminate.
Qed.

Lemma decimal_string_nonempty (n : Z) : decimal_string n <> "".
Proof.
  unfold decimal_string. simpl. destruct (n <? 10); [discriminate|].
  rewrite decimal_aux_app. destruct (decimal_aux _ _ ""); discriminate.
Qed.

(** *** Reading a number back *)

#[local] Arguments is_digit : simpl never.
#[local] Arguments Ascii.eqb : simpl never.

Lemma is_digit_cases (c : ascii) :
  is_digit c = true ->
  c = "0"%char \/ c = "1"%char \/ c = "2"%char \/ c = "3"%char \/ c = "4"%char \/
  c = "5"%char \/ c = "6"%char \/ c = "7"%char \/ c = "8"%char \/ c = "9"%char.
Proof.
  destruct c as [[] [] [] [] [] [] [] []]; intros H; try discriminate H; auto 10.
Qed.

Lemma take_digits_app (ds rest : string) :
  all_digits ds = true ->
  starts_with is_digit rest = false ->
  take_digits (ds +:+ rest) = (ds, rest).
Proof.
  intros Hds Hrest. induction ds as [|c ds IH]; simpl in *.
  - destruct rest as [|c r]; [reflexivity|]. simpl in *. now rewrite Hrest.
  - apply andb_prop in Hds as [Hc Hds]. rewrite Hc, IH by assumption. reflexivity.
Qed.

Lemma starts_with_number_digit (s : string) :
  starts_with number_char s = false -> starts_with is_digit s = false.
Proof.
  destruct s as [|c s]; [reflexivity|]. unfold number_char. simpl.
  intros H. repeat (apply orb_false_elim in H as [H ?]). assumption.
Qed.

Lemma parse_exp_text (ex : option (bool * string)) (rest : string) :
  good_exponent ex ->
  starts_with number_char rest = false ->
  parse_exp (exponent_text ex +:+ rest) = Some (exponent_of ex, rest).
Proof.
  intros Hex Hrest. destruct ex as [[eneg ed]|]; simpl.
  - destruct Hex as [Hd Hne].
    assert (Hl : exists c, leading ed = Some c /\ is_digit c = true).
    { destruct ed as [|c ed]; [congruence|]. simpl in Hd.
      apply andb_prop in Hd as [Hc _]. eauto. }
    destruct Hl as (c & Hl & Hc).
    assert (Htake : take_digits (ed +:+ rest) = (ed, rest)).
    { apply take_digits_app; [assumption|].
      now apply starts_with_number_digit. }
    destruct eneg; simpl; rewrite Htake.
    + destruct ed; [congruence | reflexivity].
    + destruct ed; [congruence | reflexivity].
  - destruct rest as [|c r]; [reflexivity|]. simpl in *.
    unfold number_char in Hrest.
    repeat (apply orb_false_elim in Hrest as [Hrest ?]).
    unfold parse_exp.
    replace (Ascii.eqb c "e" || Ascii.eqb c "E") with false; [reflexivity|].
    symmetry. apply orb_false_intro; assumption.
Qed.

Lemma parse_frac_text (fp tail : string) :
  all_digits fp = true ->
  starts_with is_digit tail = false ->
  starts_with (fun c => Ascii.eqb c ".") tail = false ->
  parse_frac (fraction_text fp +:+ tail) = Some (fp, tail).
Proof.
  intros Hfp Hd Hdot. destruct fp as [|c fp].
  - simpl. destruct tail as [|c r]; [reflexivity|]. simpl in *.
    now rewrite Hdot.
  - change (fraction_text (String c fp) +:+ tail)
      with (String "." (String c fp +:+ tail)).
    unfold parse_frac. simpl Ascii.eqb. cbv iota.
    rewrite (take_digits_app (String c fp) tail) by assumption. reflexivity.
Qed.

Lemma exponent_text_start (ex : option (bool * string)) (rest : string) :
  starts_with number_char rest = false ->
  starts_with is_digit (exponent_text ex +:+ rest) = false /\
  starts_with (fun c => Ascii.eqb c ".") (exponent_text ex +:+ rest) = false.
Proof.
  intros Hrest. destruct ex as [[eneg ed]|]; simpl; [split; reflexivity|].
  destruct rest as [|c r]; [split; reflexivity|]. simpl in *.
  unfold number_char in Hrest.
  repeat (apply orb_false_elim in Hrest as [Hrest ?]). auto.
Qed.

Lemma parse_int_text (ip tail : string) :
  good_int ip ->
  starts_with is_digit tail = false ->
  parse_int (ip +:+ tail) = (ip, tail).
Proof.
  intros [-> | (Hd & c & Hl & Hc)] Htail; [reflexivity|].
  destruct ip as [|c' ip]; [discriminate|]. injection Hl as ->.
  change (String c ip +:+ tail) with (String c (ip +:+ tail)).
  unfold parse_int. apply Ascii.eqb_neq in Hc. rewrite Hc.
  change (String c (ip +:+ tail)) with (String c ip +:+ tail).
  now apply take_digits_app.
Qed.

Lemma good_int_nonempty (ip : string) : good_int ip -> ip <> "".
Proof.
  intros [-> | (_ & c & Hl & _)]; [discriminate|].
  intros ->. discriminate.
Qed.

Lemma good_int_start (ip tail : string) :
  good_int ip ->
  exists c, leading (ip +:+ tail) = Some c /\ is_digit c = true.
Proof.
  intros [-> | (Hd & c & Hl & _)]; [eexists; split; reflexivity|].
  destruct ip as [|c' ip]; [discriminate|]. injection Hl as ->.
  simpl in Hd. apply andb_prop in Hd as [Hc _]. exists c. split; [reflexivity|].
  assumption.
Qed.

Lemma parse_sign_text (neg : bool) (s : string) (c : ascii) :
  leading s = Some c -> is_digit c = true ->
  parse_sign ((if neg then "-" else "") +:+ s) = (neg, s).
Proof.
  intros Hl Hc. destruct neg; [reflexivity|]. simpl.
  destruct s as [|c' s]; [discriminate|]. injection Hl as ->.
  unfold parse_sign.
  destruct (is_digit_cases c Hc) as [H|[H|[H|[H|[H|[H|[H|[H|[H|H]]]]]]]]];
    subst c; reflexivity.
Qed.

(** [parse_number] reads the text of a number as the decimal it spells. *)
Lemma parse_number_text (neg : bool) (ip fp : string)
    (ex : option (bool * string)) (rest : string) :
  good_int ip ->
  all_digits fp = true ->
  good_exponent ex ->
  starts_with number_char rest = false ->
  parse_number (number_text neg ip fp ex +:+ rest) =
  Some (of_decimal neg (digits_value 0 (ip +:+ fp))
          (exponent_of ex - Z.of_nat (String.length fp)), rest).
Proof.
  intros Hip Hfp Hex Hrest. unfold number_text, parse_number.
  destruct (exponent_text_start ex rest Hrest) as [He1 He2].
  assert (Htail : starts_with is_digit
                    (fraction_text fp +:+ exponent_text ex +:+ rest) = false).
  { destruct fp; [exact He1 | reflexivity]. }
  destruct (good_int_start ip (fraction_text fp +:+ exponent_text ex +:+ rest) Hip)
    as (c & Hl & Hc).
  rewrite !append_assoc.
  rewrite (parse_sign_text neg _ c Hl Hc).
  rewrite (parse_int_text ip _ Hip Htail).
  pose proof (good_int_nonempty ip Hip) as Hne.
  destruct ip as [|c0 ip0]; [congruence|].
  rewrite (parse_frac_text fp _ Hfp He1 He2).
  rewrite (parse_exp_text ex rest Hex Hrest). reflexivity.
Qed.

(** *** The formats of Number::toString *)

Lemma all_digits_zeros (j : nat) : all_digits (zeros j) = true.
Proof. induction j; simpl; auto. Qed.

Lemma digits_value_zeros (acc : Z) (j : nat) :
  digits_value acc (zeros j) = acc * 10 ^ Z.of_nat j.
Proof.
  revert acc. induction j as [|j IH]; intros acc.
  - simpl. lia.
  - cbn [zeros digits_value]. rewrite IH.
    change (digit_value "0") with 0.
    rewrite Nat2Z.inj_succ, Z.pow_succ_r by lia. lia.
Qed.

Lemma length_zeros (j : nat) : String.length (zeros j) = j.
Proof. induction j; simpl; auto. Qed.

Lemma take_drop (n : nat) (s : string) : string_take n s +:+ string_drop n s = s.
Proof.
  revert s. induction n as [|n IH]; intros [|c s]; simpl; try reflexivity.
  now rewrite IH.
Qed.

Lemma length_drop (n : nat) (s : string) :
  String.length (string_drop n s) = (String.length s - n)%nat.
Proof.
  revert s. induction n as [|n IH]; intros [|c s]; simpl; auto.
Qed.

Lemma all_digits_take (n : nat) (s : string) :
  all_digits s = true -> all_digits (string_take n s) = true.
Proof.
  revert s. induction n as [|n IH]; intros [|c s]; simpl; auto.
  intros H. apply andb_prop in H as [Hc Hs]. rewrite Hc. now apply IH.
Qed.

Lemma all_digits_drop (n : nat) (s : string) :
  all_digits s = true -> all_digits (string_drop n s) = true.
Proof.
  revert s. induction n as [|n IH]; intros [|c s]; simpl; auto.
  intros H. apply andb_prop in H as [Hc Hs]. now apply IH.
Qed.

Lemma leading_take (n : nat) (s : string) :
  (1 <= n)%nat -> leading (string_take n s) = leading s.
Proof. destruct n; [lia|]. now destruct s. Qed.

Lemma decimal_string_good (s : Z) : 0 < s -> good_int (decimal_string s).
Proof.
  intros Hs. right. split; [apply decimal_string_digits; lia|].
  destruct (decimal_string_leading s Hs) as (c & Hl & _ & Hc). eauto.
Qed.

Lemma exponent_part_text (n : Z) :
  exists ex,
    exponent_part n = exponent_text ex /\ good_exponent ex /\
    exponent_of ex = n - 1.
Proof.
  unfold exponent_part.
  exists (Some (negb (0 <=? n - 1), decimal_string (Z.abs (n - 1)))).
  assert (Habs : 0 <= Z.abs (n - 1)) by lia.
  split; [|split].
  - simpl. destruct (0 <=? n - 1); reflexivity.
  - split; [now apply decimal_string_digits | apply decimal_string_nonempty].
  - simpl. rewrite decimal_string_value by assumption.
    destruct (0 <=? n - 1) eqn:H; simpl; lia.
Qed.

Lemma of_decimal_scaled (neg : bool) (s j : Z) :
  0 < s -> 0 <= j -> of_decimal neg (s * 10 ^ j) 0 = of_decimal neg s j.
Proof.
  intros Hs Hj. unfold of_decimal.
  assert (Hp : 0 < 10 ^ j) by (apply Z.pow_pos_nonneg; lia).
  assert (Hm : 0 < s * 10 ^ j) by lia.
  destruct (s * 10 ^ j <=? 0) eqn:H1; [apply Z.leb_le in H1; lia|].
  destruct (s <=? 0) eqn:H2; [apply Z.leb_le in H2; lia|].
  simpl (0 <=? 0). cbv iota.
  destruct (0 <=? j) eqn:H3; [|apply Z.leb_gt in H3; lia].
  now rewrite Z.pow_0_r, Z.mul_1_r.
Qed.

Ltac same_exponent :=
  match goal with
  | |- Some (of_decimal ?g ?s ?a, ?r) = Some (of_decimal ?g ?s ?b, ?r) =>
      replace a with b by lia; reflexivity
  end.

(** The text Number::toString makes of the digits [s] with the decimal point
    at [n] reads back as the decimal [s * 10 ^ (n - k)]. *)
Lemma format_digits_reads (neg : bool) (s n : Z) (rest : string) :
  0 < s ->
  starts_with number_char rest = false ->
  parse_number ((if neg then "-" else "") +:+
                format_digits (decimal_string s) n +:+ rest) =
  Some (of_decimal neg s (n - Z.of_nat (String.length (decimal_string s))), rest).
Proof.
  intros Hs Hrest.
  pose proof (decimal_string_good s Hs) as Hgood.
  pose proof (decimal_string_digits s ltac:(lia)) as Hdig.
  pose proof (decimal_string_value s ltac:(lia)) as Hval.
  pose proof (decimal_string_nonempty s) as Hne.
  set (ds := decimal_string s) in *.
  assert (Hk : (1 <= String.length ds)%nat).
  { destruct ds; [congruence | simpl; lia]. }
  unfold format_digits.
  set (k := Z.of_nat (String.length ds)).
  assert (Hkdef : k = Z.of_nat (String.length ds)) by reflexivity.
  clearbody k.
  destruct ((k <=? n) && (n <=? 21)) eqn:C1.
  { apply andb_prop in C1 as [C1 _]. apply Z.leb_le in C1.
    change ((if neg then "-" else "") +:+ (ds +:+ zeros (Z.to_nat (n - k))) +:+ rest)
      with ((if neg then "-" else "") +:+ (ds +:+ zeros (Z.to_nat (n - k))) +:+ rest).
    replace (ds +:+ zeros (Z.to_nat (n - k)))
      with (number_text false (ds +:+ zeros (Z.to_nat (n - k))) "" None)
      by (unfold number_text; simpl; now rewrite !append_nil_r).
    replace ((if neg then "-" else "") +:+
             number_text false (ds +:+ zeros (Z.to_nat (n - k))) "" None +:+ rest)
      with (number_text neg (ds +:+ zeros (Z.to_nat (n - k))) "" None +:+ rest)
      by (unfold number_text; simpl; now rewrite !append_assoc).
    rewrite parse_number_text; try assumption; try reflexivity.
    - rewrite append_nil_r, digits_value_app, Hval, digits_value_zeros.
      rewrite Z2Nat.id by lia. simpl. rewrite Z.sub_0_r.
      now rewrite of_decimal_scaled by lia.
    - right. split.
      + rewrite all_digits_app, Hdig. apply all_digits_zeros.
      + destruct Hgood as [H0 | (_ & c & Hl & Hc)].
        * exists "0"%char. rewrite H0 in Hval. vm_compute in Hval. lia.
        * exists c. rewrite leading_app by assumption. auto. }
  destruct ((0 <? n) && (n <=? 21)) eqn:C2.
  { apply andb_prop in C2 as [C2 C2']. apply Z.ltb_lt in C2.
    apply andb_false_iff in C1 as [C1 | C1];
      [apply Z.leb_gt in C1 | apply Z.leb_le in C2'; apply Z.leb_gt in C1; lia].
    assert (Hdrop : string_drop (Z.to_nat n) ds <> "").
    { intros H. apply (f_equal String.length) in H.
      rewrite length_drop in H. simpl in H. lia. }
    replace ((if neg then "-" else "") +:+
             (string_take (Z.to_nat n) ds +:+ "." +:+ string_drop (Z.to_nat n) ds)
             +:+ rest)
      with (number_text neg (string_take (Z.to_nat n) ds)
              (string_drop (Z.to_nat n) ds) None +:+ rest).
    2:{ unfold number_text, fraction_text.
        destruct (string_drop (Z.to_nat n) ds); [congruence|].
        simpl. now rewrite !append_assoc, append_nil_r. }
    rewrite parse_number_text; try assumption; try reflexivity.
    - rewrite take_drop, Hval, length_drop. simpl. same_exponent.
    - right. split; [now apply all_digits_take|].
      destruct Hgood as [H0 | (_ & c & Hl & Hc)].
      + rewrite H0 in Hval. vm_compute in Hval. lia.
      + exists c. rewrite leading_take by lia. auto.
    - now apply all_digits_drop. }
  destruct ((-6 <? n) && (n <=? 0)) eqn:C3.
  { apply andb_prop in C3 as [C3 C3']. apply Z.leb_le in C3'.
    replace ((if neg then "-" else "") +:+
             ("0." +:+ zeros (Z.to_nat (- n)) +:+ ds) +:+ rest)
      with (number_text neg "0" (zeros (Z.to_nat (- n)) +:+ ds) None +:+ rest).
    2:{ unfold number_text, fraction_text.
        destruct (zeros (Z.to_nat (- n)) +:+ ds) eqn:Hz.
        - destruct (zeros (Z.to_nat (- n))); [simpl in Hz; congruence | discriminate].
        - simpl. now rewrite !append_assoc, append_nil_r. }
    rewrite parse_number_text; try assumption; try reflexivity.
    - change ("0" +:+ zeros (Z.to_nat (- n)) +:+ ds)
        with (zeros (S (Z.to_nat (- n))) +:+ ds).
      rewrite digits_value_app, digits_value_zeros, Z.mul_0_l, Hval.
      rewrite length_append, length_zeros. simpl. same_exponent.
    - now left.
    - rewrite all_digits_app, Hdig. now rewrite all_digits_zeros. }
  destruct (exponent_part_text n) as (ex & Hex & Hgex & Hvex).
  destruct (k =? 1) eqn:C4.
  { apply Z.eqb_eq in C4.
    replace ((if neg then "-" else "") +:+ (ds +:+ exponent_part n) +:+ rest)
      with (number_text neg ds "" ex +:+ rest).
    2:{ unfold number_text. rewrite Hex. simpl. now rewrite !append_assoc. }
    rewrite parse_number_text; try assumption; try reflexivity.
    rewrite append_nil_r, Hval, Hvex. simpl. same_exponent. }
  apply Z.eqb_neq in C4.
  assert (Hdrop : string_drop 1 ds <> "").
  { intros H. apply (f_equal String.length) in H.
    rewrite length_drop in H. simpl in H. lia. }
  replace ((if neg then "-" else "") +:+
           (string_take 1 ds +:+ "." +:+ string_drop 1 ds +:+ exponent_part n)
           +:+ rest)
    with (number_text neg (string_take 1 ds) (string_drop 1 ds) ex +:+ rest).
  2:{ unfold number_text, fraction_text. rewrite Hex.
      destruct (string_drop 1 ds); [congruence|].
      simpl. now rewrite !append_assoc. }
  rewrite parse_number_text; try assumption; try reflexivity.
  - rewrite take_drop, Hval, Hvex, length_drop. same_exponent.
  - right. split; [now apply all_digits_take|].
    destruct Hgood as [H0 | (_ & c & Hl & Hc)].
    + rewrite H0 in Hval. vm_compute in Hval. lia.
    + exists c. rewrite leading_take by lia. auto.
  - now apply all_digits_drop.
Qed.

(** *** Number::toString reads back *)

Lemma number_eqb_eq (x y : number) : number_eqb x y = true -> x = y.
Proof.
  destruct x, y; simpl; try discriminate; intros H.
  - reflexivity.
  - apply Bool.eqb_prop in H. now subst.
  - apply Bool.eqb_prop in H. now subst.
  - apply andb_prop in H as [H He]. apply andb_prop in H as [Hn Hm].
    apply Bool.eqb_prop in Hn. apply Pos.eqb_eq in Hm. apply Z.eqb_eq in He.
    now subst.
Qed.

Lemma round_ratio_sign (neg : bool) (p q : Z) :
  round_ratio neg p q = with_sign neg (round_ratio false p q).
Proof.
  unfold round_ratio.
  repeat match goal with
         | |- context [if ?b then _ else _] => destruct b
         end; reflexivity.
Qed.

Lemma of_decimal_sign (neg : bool) (M E : Z) :
  of_decimal neg M E = with_sign neg (of_decimal false M E).
Proof.
  unfold of_decimal. destruct (M <=? 0); [reflexivity|].
  destruct (0 <=? E); apply round_ratio_sign.
Qed.

Lemma reads_back_spec (m : positive) (e : Z) (c : Z * Z) :
  reads_back m e c = true ->
  of_decimal false (fst c) (snd c) = Finite false m e /\ 0 < fst c.
Proof.
  unfold reads_back. intros H. apply number_eqb_eq in H. split; [assumption|].
  unfold of_decimal in H. destruct (fst c <=? 0) eqn:Hc; [discriminate|].
  now apply Z.leb_gt in Hc.
Qed.

Lemma digits_at_reads_back (m : positive) (e n0 k : Z) (c : Z * Z) :
  digits_at m e n0 k = Some c -> reads_back m e c = true.
Proof.
  unfold digits_at.
  set (lo := scaled_num m e (n0 - k) / scaled_den e (n0 - k)).
  set (c_hi := if lo + 1 =? 10 ^ k then (1, n0) else (lo + 1, n0 - k)).
  destruct ((0 <? lo) && reads_back m e (lo, n0 - k)) eqn:Hlo;
    destruct (reads_back m e c_hi) eqn:Hhi; try discriminate.
  - apply andb_prop in Hlo as [_ Hlo].
    destruct (_ || _); intros [= <-]; assumption.
  - apply andb_prop in Hlo as [_ Hlo]. now intros [= <-].
  - now intros [= <-].
Qed.

Lemma find_digits_reads_back (fuel : nat) (m : positive) (e n0 k : Z) (c : Z * Z) :
  find_digits fuel m e n0 k = Some c -> reads_back m e c = true.
Proof.
  revert k. induction fuel as [|fuel IH]; intros k; simpl; [discriminate|].
  destruct (digits_at m e n0 k) as [c'|] eqn:Hat.
  - intros [= <-]. eapply digits_at_reads_back; eassumption.
  - apply IH.
Qed.

(** The text of a finite number reads back as the number, up to the sign of
    zero, provided the search for its digits succeeds. *)
Lemma Number_toString_reads (neg : bool) (m : positive) (e : Z) (rest : string) :
  shortest_digits m e <> None ->
  starts_with number_char rest = false ->
  parse_number (Number_toString (Finite neg m e) +:+ rest) =
  Some (Finite neg m e, rest).
Proof.
  intros Hsome Hrest. unfold Number_toString.
  destruct (shortest_digits m e) as [[s E]|] eqn:Hd; [|congruence].
  apply find_digits_reads_back, reads_back_spec in Hd as [Hd Hs].
  cbn [fst snd] in Hd, Hs. cbv zeta.
  rewrite append_assoc, format_digits_reads by assumption.
  replace (E + Z.of_nat (String.length (decimal_string s)) -
           Z.of_nat (String.length (decimal_string s))) with E by lia.
  now rewrite of_decimal_sign, Hd.
Qed.

Lemma Number_toString_zero_reads (neg : bool) (rest : string) :
  starts_with number_char rest = false ->
  parse_number (Number_toString (Zero neg) +:+ rest) = Some (Zero false, rest).
Proof.
  intros Hrest.
  change (Number_toString (Zero neg)) with (number_text false "0" "" None).
  rewrite parse_number_text; try assumption; try reflexivity. now left.
Qed.

(** *** Every binary64 value has digits *)

Lemma pow2_pos (z : Z) : 0 <= z -> 0 < 2 ^ z.
Proof. intros. apply Z.pow_pos_nonneg; lia. Qed.

Lemma pow10_pos (z : Z) : 0 <= z -> 0 < 10 ^ z.
Proof. intros. apply Z.pow_pos_nonneg; lia. Qed.

(** [m * 2 ^ x < 2 ^ y] for a positive [m] says that [m] has at most [y - x]
    bits. *)
Lemma mul_pow2_lt (m x y : Z) :
  0 < m -> 0 <= x -> 0 <= y ->
  (m * 2 ^ x < 2 ^ y <-> Z.log2 m < y - x).
Proof.
  intros Hm Hx Hy. split.
  - intros H. destruct (Z_lt_dec x y) as [Hlt | Hge].
    + replace y with ((y - x) + x) in H by lia.
      rewrite Z.pow_add_r in H by lia.
      apply Z.mul_lt_mono_pos_r in H; [|now apply pow2_pos].
      apply Z.log2_lt_pow2; assumption.
    + exfalso. assert (2 ^ y <= 2 ^ x) by (apply Z.pow_le_mono_r; lia).
      pose proof (pow2_pos x Hx). nia.
  - intros H. pose proof (Z.log2_nonneg m).
    replace y with ((y - x) + x) by lia. rewrite Z.pow_add_r by lia.
    apply Z.mul_lt_mono_pos_r; [now apply pow2_pos|].
    apply Z.log2_lt_pow2; assumption.
Qed.

Lemma max_neg_split (z : Z) : Z.max z 0 - Z.max (- z) 0 = z.
Proof. lia. Qed.

(** On a ratio that is [m * 2 ^ e], the comparison with [2 ^ l] compares the
    bits of [m] with [l - e]. *)
Lemma ratio_lt_pow2_exact (p q m e l : Z) :
  0 < p -> 0 < q -> 0 < m ->
  p * 2 ^ Z.max (- e) 0 = m * q * 2 ^ Z.max e 0 ->
  (ratio_lt_pow2 p q l = true <-> Z.log2 m + e < l).
Proof.
  intros Hp Hq Hm EQ. unfold ratio_lt_pow2. rewrite Z.ltb_lt.
  set (A := Z.max (- e) 0) in *. set (B := Z.max e 0) in *.
  set (X := Z.max (- l) 0). set (Y := Z.max l 0).
  assert (HA : 0 <= A) by lia. assert (HB : 0 <= B) by lia.
  assert (HX : 0 <= X) by lia. assert (HY : 0 <= Y) by lia.
  pose proof (pow2_pos A HA) as PA.
  assert (Hiff : p * 2 ^ X < q * 2 ^ Y <-> m * 2 ^ (B + X) < 2 ^ (Y + A)).
  { rewrite !Z.pow_add_r by lia. split; intros H.
    - apply (Z.mul_lt_mono_pos_l q); [assumption|].
      replace (q * (m * (2 ^ B * 2 ^ X))) with ((m * q * 2 ^ B) * 2 ^ X) by ring.
      rewrite <- EQ.
      replace (p * 2 ^ A * 2 ^ X) with ((p * 2 ^ X) * 2 ^ A) by ring.
      replace (q * (2 ^ Y * 2 ^ A)) with ((q * 2 ^ Y) * 2 ^ A) by ring.
      now apply Z.mul_lt_mono_pos_r.
    - apply (Z.mul_lt_mono_pos_r (2 ^ A)); [assumption|].
      replace (p * 2 ^ X * 2 ^ A) with ((p * 2 ^ A) * 2 ^ X) by ring.
      rewrite EQ.
      replace (m * q * 2 ^ B * 2 ^ X) with (q * (m * (2 ^ B * 2 ^ X))) by ring.
      replace (q * 2 ^ Y * 2 ^ A) with (q * (2 ^ Y * 2 ^ A)) by ring.
      now apply Z.mul_lt_mono_pos_l. }
  rewrite Hiff, mul_pow2_lt by lia. unfold A, B, X, Y. lia.
Qed.

Lemma ratio_lt_pow2_above (p q : Z) :
  0 < p -> 0 < q -> ratio_lt_pow2 p q (Z.log2 p - Z.log2 q + 1) = true.
Proof.
  intros Hp Hq. unfold ratio_lt_pow2. apply Z.ltb_lt.
  destruct (Z.log2_spec p Hp) as [_ Hp2]. destruct (Z.log2_spec q Hq) as [Hq1 _].
  pose proof (Z.log2_nonneg p). pose proof (Z.log2_nonneg q).
  set (lp := Z.log2 p) in *. set (lq := Z.log2 q) in *.
  set (l := lp - lq + 1).
  destruct (Z_le_dec 0 l) as [Hl | Hl].
  - rewrite (Z.max_r (- l)), (Z.max_l l) by lia. rewrite Z.pow_0_r, Z.mul_1_r.
    assert (H2 : 2 ^ Z.succ lp = 2 ^ l * 2 ^ lq).
    { rewrite <- Z.pow_add_r by lia. f_equal. lia. }
    pose proof (pow2_pos l Hl). nia.
  - rewrite (Z.max_l (- l)), (Z.max_r l) by lia. rewrite Z.pow_0_r, Z.mul_1_r.
    assert (H2 : 2 ^ Z.succ lp * 2 ^ (- l) = 2 ^ lq).
    { rewrite <- Z.pow_add_r by lia. f_equal. lia. }
    pose proof (pow2_pos (- l) ltac:(lia)). nia.
Qed.

Lemma ratio_lt_pow2_below (p q : Z) :
  0 < p -> 0 < q -> ratio_lt_pow2 p q (Z.log2 p - Z.log2 q - 1) = false.
Proof.
  intros Hp Hq. unfold ratio_lt_pow2. apply Z.ltb_ge.
  destruct (Z.log2_spec p Hp) as [Hp1 _]. destruct (Z.log2_spec q Hq) as [_ Hq2].
  pose proof (Z.log2_nonneg p). pose proof (Z.log2_nonneg q).
  set (lp := Z.log2 p) in *. set (lq := Z.log2 q) in *.
  set (l := lp - lq - 1).
  destruct (Z_le_dec 0 l) as [Hl | Hl].
  - rewrite (Z.max_r (- l)), (Z.max_l l) by lia. rewrite Z.pow_0_r, Z.mul_1_r.
    assert (H2 : 2 ^ Z.succ lq * 2 ^ l = 2 ^ lp).
    { rewrite <- Z.pow_add_r by lia. f_equal. lia. }
    pose proof (pow2_pos l Hl). nia.
  - rewrite (Z.max_l (- l)), (Z.max_r l) by lia. rewrite Z.pow_0_r, Z.mul_1_r.
    assert (H2 : 2 ^ lp * 2 ^ (- l) = 2 ^ Z.succ lq).
    { rewrite <- Z.pow_add_r by lia. f_equal. lia. }
    pose proof (pow2_pos (- l) ltac:(lia)). nia.
Qed.

Lemma ilog2_ratio_exact (p q m e : Z) :
  0 < p -> 0 < q -> 0 < m ->
  p * 2 ^ Z.max (- e) 0 = m * q * 2 ^ Z.max e 0 ->
  ilog2_ratio p q = Z.log2 m + e.
Proof.
  intros Hp Hq Hm EQ. unfold ilog2_ratio.
  pose proof (ratio_lt_pow2_exact p q m e) as Hex.
  pose proof (ratio_lt_pow2_above p q Hp Hq) as Ha.
  pose proof (ratio_lt_pow2_below p q Hp Hq) as Hb.
  set (l := Z.log2 p - Z.log2 q) in *.
  apply (Hex (l + 1)) in Ha; try assumption.
  assert (Hb' : ~ Z.log2 m + e < l - 1).
  { intros H. apply (Hex (l - 1)) in H; try assumption. congruence. }
  destruct (ratio_lt_pow2 p q l) eqn:Hl.
  - apply (Hex l) in Hl; try assumption. lia.
  - assert (~ Z.log2 m + e < l).
    { intros H. apply (Hex l) in H; try assumption. congruence. }
    lia.
Qed.

Lemma canonical_exponent (m : positive) (e : Z) :
  canonical m e -> Z.max (-1074) (Z.log2 (Zpos m) + e - 52) = e.
Proof.
  intros [[[H1 H2] He] | [H1 He]].
  - assert (Z.log2 (Zpos m) = 52).
    { apply Z.log2_unique; [lia|]. split; [assumption|]. exact H2. }
    lia.
  - assert (Z.log2 (Zpos m) < 52) by (apply Z.log2_lt_pow2; lia). lia.
Qed.

(** A ratio that is a binary64 value rounds to it. *)
Lemma round_ratio_exact (neg : bool) (p q : Z) (m : positive) (e : Z) :
  canonical m e ->
  0 < p -> 0 < q ->
  p * 2 ^ Z.max (- e) 0 = Zpos m * q * 2 ^ Z.max e 0 ->
  round_ratio neg p q = Finite neg m e.
Proof.
  intros Hc Hp Hq EQ. unfold round_ratio.
  rewrite (ilog2_ratio_exact p q (Zpos m) e) by (try assumption; lia).
  rewrite canonical_exponent by assumption.
  set (den := q * 2 ^ Z.max e 0).
  assert (Hden : 0 < den).
  { unfold den. pose proof (pow2_pos (Z.max e 0) ltac:(lia)). nia. }
  replace (p * 2 ^ Z.max (- e) 0) with (Zpos m * den) by (unfold den; lia).
  rewrite Z.div_mul, Z.mod_mul by lia.
  replace (den <? 2 * 0) with false by (symmetry; apply Z.ltb_ge; lia).
  replace (den =? 2 * 0) with false by (symmetry; apply Z.eqb_neq; lia).
  cbn [orb andb].
  assert (Hm : Zpos m < 2 ^ 53).
  { destruct Hc as [[[_ H] _] | [H _]]; [assumption|].
    eapply Z.lt_trans; [exact H | reflexivity]. }
  replace (Zpos m =? 2 ^ 53) with false by (symmetry; apply Z.eqb_neq; lia).
  replace (Zpos m =? 0) with false by (symmetry; apply Z.eqb_neq; lia).
  replace (971 <? e) with false; [reflexivity|].
  symmetry. apply Z.ltb_ge. destruct Hc as [[_ H] | [_ H]]; lia.
Qed.

Lemma pow10_split (z : Z) : 0 <= z -> 10 ^ z = 2 ^ z * 5 ^ z.
Proof. intros Hz. rewrite <- Z.pow_mul_l. reflexivity. Qed.

Lemma exact_digits_read_back (m : positive) (e : Z) :
  canonical m e -> reads_back m e (exact_digits m e) = true.
Proof.
  intros Hc. unfold reads_back, exact_digits.
  destruct (e <? 0) eqn:He; cbn [fst snd]; unfold of_decimal.
  - apply Z.ltb_lt in He.
    pose proof (Z.pow_pos_nonneg 5 (- e) ltac:(lia) ltac:(lia)) as H5.
    replace (Zpos m * 5 ^ (- e) <=? 0) with false
      by (symmetry; apply Z.leb_gt; nia).
    replace (0 <=? e) with false by (symmetry; apply Z.leb_gt; lia).
    rewrite (round_ratio_exact false _ _ m e); try assumption.
    + simpl. now rewrite Pos.eqb_refl, Z.eqb_refl.
    + nia.
    + apply pow10_pos. lia.
    + rewrite (Z.max_l (- e)), (Z.max_r e) by lia.
      rewrite Z.pow_0_r, pow10_split by lia. ring.
  - apply Z.ltb_ge in He. pose proof (pow2_pos e He) as H2.
    replace (Zpos m * 2 ^ e <=? 0) with false
      by (symmetry; apply Z.leb_gt; nia).
    simpl (0 <=? 0). cbv iota.
    rewrite (round_ratio_exact false _ _ m e); try assumption.
    + simpl. now rewrite Pos.eqb_refl, Z.eqb_refl.
    + rewrite Z.pow_0_r. nia.
    + lia.
    + rewrite (Z.max_r (- e)), (Z.max_l e) by lia.
      rewrite !Z.pow_0_r. ring.
Qed.

(** With the exponent of the exact expansion, the lower candidate of
    [digits_at] is the exact expansion. *)
Lemma digits_at_exact (m : positive) (e n0 : Z) :
  canonical m e ->
  digits_at m e n0 (n0 - snd (exact_digits m e)) <> None.
Proof.
  intros Hc. pose proof (exact_digits_read_back m e Hc) as Hrb.
  unfold digits_at.
  replace (n0 - (n0 - snd (exact_digits m e))) with (snd (exact_digits m e)) by lia.
  assert (Hlo : scaled_num m e (snd (exact_digits m e)) /
                scaled_den e (snd (exact_digits m e)) = fst (exact_digits m e) /\
                0 < fst (exact_digits m e)).
  { unfold exact_digits, scaled_num, scaled_den.
    destruct (e <? 0) eqn:He; cbn [fst snd].
    - apply Z.ltb_lt in He.
      rewrite (Z.max_r e), (Z.max_l (- e)) by lia.
      rewrite Z.pow_0_r, !Z.mul_1_r, pow10_split by lia.
      pose proof (pow2_pos (- e) ltac:(lia)).
      pose proof (Z.pow_pos_nonneg 5 (- e) ltac:(lia) ltac:(lia)).
      replace (Zpos m * (2 ^ (- e) * 5 ^ (- e)))
        with (Zpos m * 5 ^ (- e) * 2 ^ (- e)) by ring.
      rewrite Z.div_mul by lia. split; [reflexivity | nia].
    - apply Z.ltb_ge in He.
      rewrite (Z.max_l e), (Z.max_r (- e)) by lia.
      simpl (Z.max (- 0) 0). simpl (Z.max 0 0).
      rewrite !Z.pow_0_r, !Z.mul_1_r, Z.div_1_r.
      pose proof (pow2_pos e He). split; [reflexivity | nia]. }
  destruct Hlo as [Hlo Hpos]. rewrite Hlo.
  replace (0 <? fst (exact_digits m e)) with true
    by (symmetry; now apply Z.ltb_lt).
  replace (fst (exact_digits m e), snd (exact_digits m e))
    with (exact_digits m e) by now destruct (exact_digits m e).
  rewrite Hrb. cbn [andb].
  match goal with
  | |- (if ?b then _ else _) <> None => destruct b
  end; discriminate.
Qed.

Lemma find_digits_finds (fuel : nat) (m : positive) (e n0 k k' : Z) :
  k <= k' < k + Z.of_nat fuel ->
  digits_at m e n0 k' <> None ->
  find_digits fuel m e n0 k <> None.
Proof.
  revert k. induction fuel as [|fuel IH]; intros k Hk Hat; [lia|].
  cbn [find_digits]. destruct (digits_at m e n0 k) eqn:Hd; [discriminate|].
  apply IH; [|assumption].
  assert (k <> k') by (intros ->; congruence). lia.
Qed.

Lemma first_from_bounds (fuel : nat) (j : Z) (test : Z -> bool) :
  j <= first_from fuel j test <= j + Z.of_nat fuel.
Proof.
  revert j. induction fuel as [|fuel IH]; intros j; cbn [first_from]; [lia|].
  destruct (test j); [lia|]. specialize (IH (j + 1)). lia.
Qed.

Lemma first_from_le (fuel : nat) (j j' : Z) (test : Z -> bool) :
  test j' = true -> j <= j' -> first_from fuel j test <= j'.
Proof.
  revert j. induction fuel as [|fuel IH]; intros j Ht Hj; cbn [first_from]; [lia|].
  destruct (test j) eqn:Hj0; [lia|].
  apply IH; [assumption|]. assert (j <> j') by (intros ->; congruence). lia.
Qed.

Lemma decimal_exponent_bounds (m : positive) (e : Z) :
  -1074 <= e ->
  0 < decimal_exponent m e - Z.min e 0 <= 1475.
Proof.
  intros He. unfold decimal_exponent, scaled_num, scaled_den.
  simpl (Z.max (- 0) 0). simpl (Z.max 0 0). rewrite !Z.pow_0_r, !Z.mul_1_r.
  destruct (_ <=? _) eqn:Hq.
  - match goal with
    | |- context [first_from ?f ?j ?t] =>
        pose proof (first_from_bounds f j t) as Hb
    end.
    lia.
  - apply Z.leb_gt in Hq.
    assert (He0 : e < 0).
    { destruct (Z_lt_dec e 0); [assumption|]. exfalso.
      rewrite (Z.max_r (- e)), Z.pow_0_r in Hq by lia.
      pose proof (pow2_pos (Z.max e 0) ltac:(lia)). nia. }
    rewrite (Z.max_l (- e)), (Z.max_r e), Z.pow_0_r, Z.mul_1_r in * by lia.
    match goal with
    | |- context [first_from ?f ?j ?t] =>
        pose proof (first_from_bounds f j t) as Hb;
        pose proof (first_from_le f j (- e - 1) t) as Hle
    end.
    cbv beta in Hle.
    assert (Ht : (2 ^ (- e) <=? Zpos m * 10 ^ (- e - 1 + 1)) = true).
    { apply Z.leb_le. replace (- e - 1 + 1) with (- e) by lia.
      rewrite pow10_split by lia.
      pose proof (pow2_pos (- e) ltac:(lia)) as H2.
      pose proof (Z.pow_pos_nonneg 5 (- e) ltac:(lia) ltac:(lia)) as H5.
      replace (Zpos m * (2 ^ (- e) * 5 ^ (- e)))
        with (2 ^ (- e) * (Zpos m * 5 ^ (- e))) by ring.
      assert (H1 : 1 <= Zpos m * 5 ^ (- e)) by nia.
      rewrite <- (Z.mul_1_r (2 ^ (- e))) at 1.
      apply Z.mul_le_mono_nonneg_l; lia. }
    specialize (Hle Ht ltac:(lia)). lia.
Qed.

(** The search for digits succeeds on every binary64 value: at the latest it
    finds the exact expansion. *)
Lemma shortest_digits_total (m : positive) (e : Z) :
  canonical m e -> shortest_digits m e <> None.
Proof.
  intros Hc. unfold shortest_digits.
  assert (He : -1074 <= e) by (destruct Hc as [[_ H] | [_ H]]; lia).
  pose proof (decimal_exponent_bounds m e He) as Hb.
  apply (find_digits_finds _ _ _ _ _
           (decimal_exponent m e - snd (exact_digits m e))).
  - unfold exact_digits. destruct (e <? 0) eqn:H0; cbn [snd].
    + apply Z.ltb_lt in H0. rewrite Z.min_l in Hb by lia. lia.
    + apply Z.ltb_ge in H0. rewrite Z.min_r in Hb by lia. lia.
  - now apply digits_at_exact.
Qed.

Lemma Number_toString_parse (x : number) (rest : string) :
  wf_number x -> is_finite x = true ->
  starts_with number_char rest = false ->
  parse_number (Number_toString x +:+ rest) =
  Some (match x with Zero _ => Zero false | _ => x end, rest).
Proof.
  intros Hwf Hfin Hrest. destruct x as [| |neg|neg m e]; try discriminate.
  - now apply Number_toString_zero_reads.
  - apply Number_toString_reads; [|assumption].
    now apply shortest_digits_total.
Qed.

(** *** Reading a string back *)

Lemma parse_string_quote_char (c : ascii) (tail : string) :
  parse_string (quote_char c +:+ tail) = cons_char c (parse_string tail).
Proof.
  destruct c as [[] [] [] [] [] [] [] []]; reflexivity.
Qed.

Lemma parse_string_quoted (s rest : string) :
  parse_string (quote_chars s +:+ String dquote rest) = Some (s, rest).
Proof.
  induction s as [|c s IH].
  - reflexivity.
  - cbn [quote_chars]. rewrite append_assoc, parse_string_quote_char, IH.
    reflexivity.
Qed.

(** *** Values that JSON carries *)

Lemma wf_value_arr (items : list value) :
  wf_value (VArr items) <-> Forall wf_value items.
Proof.
  induction items as [|x l IH].
  - split; [constructor | reflexivity].
  - split.
    + intros [Hx Hl]. constructor; [assumption | now apply IH].
    + intros H. inversion_clear H. split; [assumption | now apply IH].
Qed.

Lemma wf_value_obj (props : list (string * value)) :
  wf_value (VObj props) <->
  ordered_keys (map fst props) = true /\ Forall (fun kv => wf_value (snd kv)) props.
Proof.
  cbn [wf_value]. apply and_iff_compat_l.
  induction props as [|x l IH].
  - split; [constructor | reflexivity].
  - split.
    + intros [Hx Hl]. constructor; [assumption | now apply IH].
    + intros H. inversion_clear H. split; [assumption | now apply IH].
Qed.

(** Induction on a value, with the hypothesis for every element of an array
    and every property of an object. *)
Lemma value_induction (P : value -> Prop) :
  P VUndefined -> P VNull -> (forall b, P (VBool b)) -> (forall x, P (VNum x)) ->
  (forall s, P (VStr s)) ->
  (forall items, Forall P items -> P (VArr items)) ->
  (forall props, Forall (fun kv => P (snd kv)) props -> P (VObj props)) ->
  forall v, P v.
Proof.
  intros Hu Hn Hb Hx Hs Ha Ho.
  fix IH 1. intros [| |b|x|s|items|props].
  - exact Hu.
  - exact Hn.
  - apply Hb.
  - apply Hx.
  - apply Hs.
  - apply Ha. induction items as [|v l IHl]; constructor; [apply IH | exact IHl].
  - apply Ho. induction props as [|[k v] l IHl]; constructor;
      [apply IH | exact IHl].
Qed.

Lemma serialize_arr (items : list value) :
  serialize (VArr items) = Some ("[" +:+ elements_text items).
Proof.
  cbn [serialize].
  match goal with
  | |- Some (_ +:+ ?f items) = _ => assert (H : f items = elements_text items)
  end.
  { induction items as [|v l IH]; [reflexivity|].
    cbn [elements_text]. destruct l as [|v' l']; [reflexivity|].
    now rewrite IH. }
  now rewrite H.
Qed.

Lemma wf_serialize (v : value) : wf_value v -> exists text, serialize v = Some text.
Proof. destruct v; simpl; intros H; try contradiction; eauto. Qed.

Lemma serialize_obj (props : list (string * value)) :
  Forall (fun kv => wf_value (snd kv)) props ->
  serialize (VObj props) = Some ("{" +:+ members_text props).
Proof.
  intros Hwf. cbn [serialize].
  match goal with
  | |- Some (_ +:+ ?f true props) = _ =>
      assert (H : f true props = members_text props); [|now rewrite H]
  end.
  assert (Hrest : forall l,
    Forall (fun kv => wf_value (snd kv)) l -> l <> [] ->
    (fix members (first : bool) (l : list (string * value)) : string :=
       match l with
       | [] => "}"
       | (k, v) :: l' =>
           match serialize v with
           | None => members first l'
           | Some s =>
               (if first then "" else ",") +:+
               QuoteJSONString k +:+ ":" +:+ s +:+ members false l'
           end
       end) false l = "," +:+ members_text l).
  { intros l Hl. induction l as [|[k v] l IH]; [congruence|]. intros _.
    inversion_clear Hl as [|? ? Hv Hl'].
    destruct (wf_serialize v Hv) as [s Hs]. cbn [members_text fst snd].
    rewrite Hs. cbn [default]. unfold id.
    match goal with
    | |- _ +:+ _ +:+ _ +:+ _ +:+ ?X = _ +:+ _ +:+ _ +:+ _ +:+ ?Y =>
        assert (X = Y) as ->; [|reflexivity]
    end.
    destruct l as [|kv l]; [reflexivity|].
    exact (IH Hl' ltac:(discriminate)). }
  destruct props as [|[k v] l]; [reflexivity|].
  inversion_clear Hwf as [|? ? Hv Hl'].
  destruct (wf_serialize v Hv) as [s Hs]. cbn [members_text fst snd].
  rewrite Hs. cbn [default]. unfold id. change ("" +:+ ?x) with x.
  match goal with
  | |- _ +:+ _ +:+ _ +:+ ?X = _ +:+ _ +:+ _ +:+ ?Y =>
      assert (X = Y) as ->; [|reflexivity]
  end.
  destruct l as [|kv l]; [reflexivity|].
  exact (Hrest _ Hl' ltac:(discriminate)).
Qed.

(** *** Property order *)

Lemma ordered_keys_app_l (a b : list string) :
  ordered_keys (a ++ b) = true -> ordered_keys a = true.
Proof.
  induction a as [|k a IH]; [reflexivity|]. cbn [app ordered_keys].
  rewrite existsb_app, forallb_app, negb_orb. intros H.
  apply andb_prop in H as [H H3]. apply andb_prop in H as [H1 H2].
  apply andb_prop in H1 as [H1 _]. apply andb_prop in H2 as [H2 _].
  now rewrite H1, H2, IH.
Qed.

Lemma obj_set_last (props : list (string * value)) (k : string) (v : value) :
  ordered_keys (map fst (props ++ [(k, v)])) = true ->
  obj_set k v props = props ++ [(k, v)].
Proof.
  intros Hord.
  assert (H : lookup_prop k props = None /\
              forall i, array_index k = Some i ->
                        insert_index i k v props = props ++ [(k, v)]).
  { induction props as [|[k' v'] ps IH]; [split; [reflexivity | intros; reflexivity]|].
    cbn [app map fst ordered_keys] in Hord.
    rewrite map_app, existsb_app, forallb_app, negb_orb in Hord.
    cbn [map fst existsb forallb] in Hord. rewrite orb_false_r, andb_true_r in Hord.
    apply andb_prop in Hord as [Hord H3]. apply andb_prop in Hord as [H1 H2].
    apply andb_prop in H1 as [_ H1]. apply andb_prop in H2 as [_ H2].
    apply negb_true_iff in H1.
    rewrite map_app in IH. destruct (IH H3) as [IH1 IH2]. split.
    - cbn [lookup_prop]. rewrite H1. exact IH1.
    - intros i Hi. cbn [insert_index app]. unfold key_before in H2.
      rewrite Hi in H2. destruct (array_index k') as [j|]; [|discriminate].
      rewrite H2. now rewrite IH2. }
  destruct H as [Hnone Hins]. unfold obj_set. rewrite Hnone.
  destruct (array_index k) as [i|]; [now apply Hins | reflexivity].
Qed.

Lemma fold_obj_set (suf pre : list (string * value)) :
  ordered_keys (map fst (pre ++ suf)) = true ->
  fold_left set_property suf pre = pre ++ suf.
Proof.
  revert pre. induction suf as [|[k v] suf IH]; intros pre Hord.
  - now rewrite app_nil_r.
  - cbn [fold_left]. unfold set_property at 2. cbn [fst snd].
    assert (Hpre : ordered_keys (map fst (pre ++ [(k, v)])) = true).
    { apply (ordered_keys_app_l _ (map fst suf)).
      rewrite <- map_app, <- app_assoc. exact Hord. }
    rewrite obj_set_last by assumption.
    rewrite IH; rewrite <- app_assoc; [reflexivity | exact Hord].
Qed.

Lemma spread_object (props : list (string * value)) :
  ordered_keys (map fst props) = true -> spread (VObj props) = props.
Proof. intros H. unfold spread. now apply (fold_obj_set props []). Qed.

Lemma map_fst_normalize (props : list (string * value)) :
  map fst (map (fun kv => (fst kv, normalize (snd kv))) props) = map fst props.
Proof. rewrite map_map. apply map_ext. reflexivity. Qed.

(** *** JSON.parse reads JSON.stringify back *)

#[local] Arguments is_ws : simpl never.

Lemma parse_number_start (s : string) (r : number * string) :
  parse_number s = Some r ->
  exists c t, s = String c t /\ (is_digit c = true \/ c = "-"%char).
Proof.
  unfold parse_number. destruct s as [|c t]; [discriminate|].
  unfold parse_sign. destruct (Ascii.eqb c "-") eqn:Hm.
  { apply Ascii.eqb_eq in Hm. eauto. }
  unfold parse_int. destruct (Ascii.eqb c "0") eqn:H0.
  { apply Ascii.eqb_eq in H0. subst c. eauto. }
  cbn [take_digits]. destruct (is_digit c) eqn:Hd; [eauto|discriminate].
Qed.

(** A text that starts with a digit or a minus sign is read as a number. *)
Lemma parse_value_number (fuel : nat) (c : ascii) (t : string) :
  is_digit c = true \/ c = "-"%char ->
  parse_value (S fuel) (String c t) =
  match parse_number (String c t) with
  | Some (x, r) => Some (VNum x, r)
  | None => None
  end.
Proof.
  intros [Hd | ->]; [|reflexivity].
  destruct (is_digit_cases c Hd) as [H|[H|[H|[H|[H|[H|[H|[H|[H|H]]]]]]]]];
    subst c; reflexivity.
Qed.

(** After the bracket of an array that is not empty come its elements. *)
Lemma parse_value_array (fuel : nat) (c : ascii) (t : string) :
  is_ws c = false -> c <> "]"%char ->
  parse_value (S fuel) (String "[" (String c t)) =
  parse_elements fuel (String c t) [].
Proof.
  intros Hws Hc.
  destruct c as [[] [] [] [] [] [] [] []]; try reflexivity;
    first [discriminate Hws | congruence].
Qed.

Lemma digit_value_start (c : ascii) (t : string) :
  is_digit c = true \/ c = "-"%char -> value_start (String c t).
Proof.
  intros H. exists c, t. split; [reflexivity|].
  destruct H as [Hd | ->]; [|split; [reflexivity | discriminate]].
  destruct (is_digit_cases c Hd) as [H|[H|[H|[H|[H|[H|[H|[H|[H|H]]]]]]]]];
    subst c; (split; [reflexivity | discriminate]).
Qed.

Lemma serialize_value_start (v : value) (text rest : string) :
  wf_value v -> serialize v = Some text ->
  starts_with number_char rest = false ->
  value_start (text +:+ rest).
Proof.
  intros Hwf Hs Hrest.
  destruct v as [| |b|x|s|items|props]; cbn [serialize] in Hs;
    try discriminate; injection Hs as <-.
  - eexists _, _. split; [reflexivity|]. split; [reflexivity | discriminate].
  - destruct b; eexists _, _;
      (split; [reflexivity|]; split; [reflexivity | discriminate]).
  - destruct (is_finite x) eqn:Hfin.
    + pose proof (Number_toString_parse x rest Hwf Hfin Hrest) as Hp.
      destruct (parse_number_start _ _ Hp) as (c & t & Heq & Hc).
      rewrite Heq. now apply digit_value_start.
    + eexists _, _. split; [reflexivity|]. split; [reflexivity | discriminate].
  - eexists _, _. split; [reflexivity|]. split; [reflexivity | discriminate].
  - eexists _, _. split; [reflexivity|]. split; [reflexivity | discriminate].
  - eexists _, _. split; [reflexivity|]. split; [reflexivity | discriminate].
Qed.

Lemma elements_text_cons (v : value) (l : list value) (sv rest : string) :
  serialize v = Some sv ->
  elements_text (v :: l) +:+ rest =
  sv +:+ match l with
         | [] => String "]" rest
         | _ => String "," (elements_text l +:+ rest)
         end.
Proof.
  intros Hsv. cbn [elements_text]. rewrite Hsv. cbn [default]. unfold id.
  rewrite append_assoc. destruct l; reflexivity.
Qed.

Lemma members_text_cons (k : string) (v : value) (l : list (string * value))
    (sv rest : string) :
  serialize v = Some sv ->
  members_text ((k, v) :: l) +:+ rest =
  String dquote
    (quote_chars k +:+
     String dquote
       (String ":"
          (sv +:+ match l with
                  | [] => String "}" rest
                  | _ => String "," (members_text l +:+ rest)
                  end))).
Proof.
  intros Hsv. cbn [members_text fst snd]. rewrite Hsv. cbn [default]. unfold id.
  unfold QuoteJSONString. rewrite !append_assoc. cbn [String.append].
  rewrite !append_assoc. cbn [String.append]. destruct l; reflexivity.
Qed.

Lemma parse_elements_text (items : list value) :
  Forall reads_value items -> Forall wf_value items -> items <> [] ->
  forall fuel acc rest,
    (elements_fuel items <= fuel)%nat ->
    parse_elements fuel (elements_text items +:+ rest) acc =
    Some (VArr (rev acc ++ map normalize items), rest).
Proof.
  induction items as [|v l IH]; intros Hread Hwf Hne fuel acc rest Hfuel;
    [congruence|].
  inversion_clear Hread as [|? ? Hv Hl]. inversion_clear Hwf as [|? ? Wv Wl].
  cbn [elements_fuel fold_right] in Hfuel. fold (elements_fuel l) in Hfuel.
  destruct fuel as [|fuel]; [lia|].
  destruct (wf_serialize v Wv) as [sv Hsv].
  rewrite (elements_text_cons v l sv rest Hsv). cbn [parse_elements].
  destruct l as [|v2 l].
  - rewrite (Hv Wv fuel (String "]" rest) sv Hsv ltac:(lia) eq_refl).
    reflexivity.
  - rewrite (Hv Wv fuel (String "," (elements_text (v2 :: l) +:+ rest)) sv Hsv
               ltac:(lia) eq_refl).
    change (skip_ws (String "," ?x)) with (String "," x). cbv iota beta.
    rewrite (IH Hl Wl ltac:(discriminate) fuel (normalize v :: acc) rest)
      by (cbn [elements_fuel fold_right] in *; lia).
    cbn [map rev]. now rewrite <- app_assoc.
Qed.

Lemma parse_members_text (props : list (string * value)) :
  Forall (fun kv => reads_value (snd kv)) props ->
  Forall (fun kv => wf_value (snd kv)) props -> props <> [] ->
  forall fuel acc rest,
    (members_fuel props <= fuel)%nat ->
    parse_members fuel (members_text props +:+ rest) acc =
    Some (VObj (fold_left set_property
                  (map (fun kv => (fst kv, normalize (snd kv))) props) acc),
          rest).
Proof.
  induction props as [|[k v] l IH]; intros Hread Hwf Hne fuel acc rest Hfuel;
    [congruence|].
  inversion_clear Hread as [|? ? Hv Hl]. inversion_clear Hwf as [|? ? Wv Wl].
  cbn [fst snd] in Hv, Wv.
  cbn [members_fuel fold_right snd] in Hfuel. fold (members_fuel l) in Hfuel.
  destruct fuel as [|fuel]; [lia|].
  destruct (wf_serialize v Wv) as [sv Hsv].
  rewrite (members_text_cons k v l sv rest Hsv).
  change (parse_members (S fuel) (String dquote ?r) acc)
    with (match parse_string r with
          | Some (k0, r1) =>
              match skip_ws r1 with
              | String ":" r2 =>
                  match parse_value fuel r2 with
                  | Some (v0, r3) =>
                      match skip_ws r3 with
                      | String "," r' => parse_members fuel r' (obj_set k0 v0 acc)
                      | String "}" r' => Some (VObj (obj_set k0 v0 acc), r')
                      | _ => None
                      end
                  | None => None
                  end
              | _ => None
              end
          | None => None
          end).
  rewrite parse_string_quoted.
  change (skip_ws (String ":" ?x)) with (String ":" x). cbv iota beta.
  destruct l as [|kv2 l].
  - rewrite (Hv Wv fuel (String "}" rest) sv Hsv ltac:(lia) eq_refl).
    reflexivity.
  - rewrite (Hv Wv fuel (String "," (members_text (kv2 :: l) +:+ rest)) sv Hsv
               ltac:(lia) eq_refl).
    change (skip_ws (String "," ?x)) with (String "," x). cbv iota beta.
    rewrite (IH Hl Wl ltac:(discriminate) fuel (obj_set k (normalize v) acc) rest)
      by (cbn [members_fuel fold_right] in *; lia).
    reflexivity.
Qed.

Lemma parse_value_literal (fuel : nat) (v : value) (text rest : string) :
  (text = "null" /\ v = VNull) \/ (text = "true" /\ v = VBool true) \/
  (text = "false" /\ v = VBool false) ->
  parse_value (S fuel) (text +:+ rest) = Some (v, rest).
Proof. intros [[-> ->] | [[-> ->] | [-> ->]]]; reflexivity. Qed.

Theorem parse_value_serialize (v : value) : reads_value v.
Proof.
  induction v as [| |b|x|s|items IH|props IH] using value_induction;
    intros Hwf fuel rest text Hs Hfuel Hrest.
  - contradiction.
  - injection Hs as <-. destruct fuel as [|fuel]; [simpl in Hfuel; lia|].
    apply parse_value_literal. auto.
  - injection Hs as <-. destruct fuel as [|fuel]; [simpl in Hfuel; lia|].
    destruct b; apply parse_value_literal; auto.
  - cbn [serialize] in Hs. injection Hs as <-.
    destruct fuel as [|fuel]; [simpl in Hfuel; lia|]. cbn [normalize].
    destruct (is_finite x) eqn:Hfin; [|apply parse_value_literal; auto].
    pose proof (Number_toString_parse x rest Hwf Hfin Hrest) as Hp.
    destruct (parse_number_start _ _ Hp) as (c & t & Heq & Hc).
    rewrite Heq in *. rewrite (parse_value_number fuel c t Hc), Hp. reflexivity.
  - cbn [serialize] in Hs. injection Hs as <-.
    destruct fuel as [|fuel]; [simpl in Hfuel; lia|].
    unfold QuoteJSONString.
    change (String dquote (quote_chars s +:+ String dquote "") +:+ rest)
      with (String dquote ((quote_chars s +:+ String dquote "") +:+ rest)).
    rewrite append_assoc.
    change (String dquote "" +:+ rest) with (String dquote rest).
    change (parse_value (S fuel) (String dquote ?r))
      with (match parse_string r with
            | Some (str, r') => Some (VStr str, r')
            | None => None
            end).
    now rewrite parse_string_quoted.
  - rewrite serialize_arr in Hs. injection Hs as <-.
    apply wf_value_arr in Hwf.
    destruct fuel as [|fuel]; [simpl in Hfuel; lia|].
    cbn [size] in Hfuel. fold (elements_fuel items) in Hfuel. cbn [normalize].
    destruct items as [|v l]; [reflexivity|].
    inversion Hwf as [|? ? Wv Wl]; subst.
    destruct (wf_serialize v Wv) as [sv Hsv].
    assert (Hstart : value_start (elements_text (v :: l) +:+ rest)).
    { rewrite (elements_text_cons v l sv rest Hsv).
      apply (serialize_value_start v); [assumption | assumption|].
      destruct l; reflexivity. }
    destruct Hstart as (c & t & Heq & Hws & Hc).
    change (String "[" (elements_text (v :: l)) +:+ rest)
      with (String "[" (elements_text (v :: l) +:+ rest)).
    rewrite Heq, parse_value_array, <- Heq by assumption.
    rewrite parse_elements_text; try assumption; [reflexivity | discriminate | lia].
  - apply wf_value_obj in Hwf as [Hord Hwf].
    rewrite serialize_obj in Hs by assumption. injection Hs as <-.
    destruct fuel as [|fuel]; [simpl in Hfuel; lia|].
    cbn [size] in Hfuel. fold (members_fuel props) in Hfuel. cbn [normalize].
    destruct props as [|[k v] l]; [reflexivity|].
    inversion Hwf as [|? ? Wv Wl]; subst. cbn [snd] in Wv.
    destruct (wf_serialize v Wv) as [sv Hsv].
    change (String "{" (members_text ((k, v) :: l)) +:+ rest)
      with (String "{" (members_text ((k, v) :: l) +:+ rest)).
    assert (Hopen : parse_value (S fuel)
                      (String "{" (members_text ((k, v) :: l) +:+ rest)) =
                    parse_members fuel (members_text ((k, v) :: l) +:+ rest) []).
    { rewrite (members_text_cons k v l sv rest Hsv). reflexivity. }
    rewrite Hopen, parse_members_text; try assumption; [|discriminate|lia].
    do 3 f_equal. apply (fold_obj_set _ []).
    cbn [app]. now rewrite map_fst_normalize.
Qed.

(** The fuel [JSON_parse] takes from the length of the text is enough. *)
Lemma serialize_length (v : value) :
  wf_value v ->
  forall text, serialize v = Some text -> (size v <= String.length text)%nat.
Proof.
  induction v as [| |b|x|s|items IH|props IH] using value_induction;
    intros Hwf text Hs.
  - contradiction.
  - injection Hs as <-. simpl. lia.
  - injection Hs as <-. destruct b; simpl; lia.
  - cbn [serialize] in Hs. injection Hs as <-. cbn [size].
    destruct (is_finite x) eqn:Hfin; [|simpl; lia].
    pose proof (Number_toString_parse x "" Hwf Hfin eq_refl) as Hp.
    destruct (Number_toString x); [|simpl; lia].
    discriminate Hp.
  - cbn [serialize] in Hs. injection Hs as <-. simpl. lia.
  - rewrite serialize_arr in Hs. injection Hs as <-.
    apply wf_value_arr in Hwf. cbn [size]. fold (elements_fuel items).
    cbn [String.append String.length]. apply le_n_S.
    induction items as [|v l IHl]; [simpl; lia|].
    inversion_clear IH as [|? ? Hv Hl]. inversion_clear Hwf as [|? ? Wv Wl].
    destruct (wf_serialize v Wv) as [sv Hsv].
    pose proof (elements_text_cons v l sv "" Hsv) as Heq.
    rewrite append_nil_r in Heq. rewrite Heq, length_append.
    specialize (Hv Wv sv Hsv). specialize (IHl Hl Wl).
    cbn [elements_fuel fold_right]. fold (elements_fuel l).
    destruct l as [|v2 l]; [simpl; lia|].
    cbn [String.length]. rewrite append_nil_r. lia.
  - apply wf_value_obj in Hwf as [Hord Hwf].
    rewrite serialize_obj in Hs by assumption. injection Hs as <-.
    cbn [size]. fold (members_fuel props).
    cbn [String.append String.length]. apply le_n_S. clear Hord.
    induction props as [|[k v] l IHl]; [simpl; lia|].
    inversion_clear IH as [|? ? Hv Hl]. inversion_clear Hwf as [|? ? Wv Wl].
    cbn [snd] in Hv, Wv.
    destruct (wf_serialize v Wv) as [sv Hsv].
    pose proof (members_text_cons k v l sv "" Hsv) as Heq.
    rewrite append_nil_r in Heq. rewrite Heq.
    cbn [String.length]. rewrite length_append. cbn [String.length].
    rewrite length_append.
    specialize (Hv Wv sv Hsv). specialize (IHl Hl Wl).
    cbn [members_fuel fold_right snd]. fold (members_fuel l).
    destruct l as [|kv2 l]; [simpl; lia|].
    cbn [String.length]. rewrite append_nil_r. lia.
Qed.

(** [JSON.parse] reads the text [JSON.stringify] wrote. *)
Lemma JSON_parse_serialize (v : value) (text : string) :
  wf_value v -> serialize v = Some text -> JSON_parse text = Ok (normalize v).
Proof.
  intros Hwf Hs. unfold JSON_parse.
  pose proof (serialize_length v Hwf text Hs) as Hlen.
  pose proof (parse_value_serialize v Hwf (S (String.length text)) "" text Hs
                ltac:(lia) eq_refl) as Hp.
  rewrite append_nil_r in Hp. rewrite Hp. reflexivity.
Qed.

(** X1. [JSON.parse (JSON.stringify v)] is [v] up to what JSON cannot write:
    a number that is not finite comes back as [null], and a zero without its
    sign. *)
Theorem JSON_parse_stringify (v : value) :
  wf_value v ->
  exists text, JSON_stringify v = VStr text /\ JSON_parse text = Ok (normalize v).
Proof.
  intros Hwf. destruct (wf_serialize v Hwf) as [text Hs].
  exists text. split.
  - unfold JSON_stringify. now rewrite Hs.
  - now apply JSON_parse_serialize.
Qed.

(** *** The cached diagnosis *)

Lemma lookup_prop_normalize (k : string) (props : list (string * value)) :
  lookup_prop k (map (fun kv => (fst kv, normalize (snd kv))) props) =
  option_map normalize (lookup_prop k props).
Proof.
  induction props as [|[k' v] l IH]; [reflexivity|].
  cbn [map lookup_prop fst snd]. destruct (String.eqb k' k); [reflexivity | exact IH].
Qed.

Lemma lookup_prop_replace_other (k k0 : string) (v : value)
    (props : list (string * value)) :
  k0 <> k -> lookup_prop k (replace_prop k0 v props) = lookup_prop k props.
Proof.
  intros Hne. induction props as [|[k' v'] l IH]; [reflexivity|].
  cbn [replace_prop]. destruct (String.eqb k' k0) eqn:H0.
  - apply String.eqb_eq in H0. subst k'. cbn [lookup_prop].
    apply String.eqb_neq in Hne. now rewrite Hne.
  - cbn [lookup_prop]. now rewrite IH.
Qed.

Lemma lookup_prop_replace_same (k : string) (v : value)
    (props : list (string * value)) :
  lookup_prop k props <> None -> lookup_prop k (replace_prop k v props) = Some v.
Proof.
  induction props as [|[k' v'] l IH]; [intros H; exfalso; apply H; reflexivity|].
  cbn [replace_prop lookup_prop]. destruct (String.eqb k' k) eqn:H0.
  - intros _. cbn [lookup_prop]. now rewrite H0.
  - intros H. cbn [lookup_prop]. rewrite H0. now apply IH.
Qed.

Lemma lookup_prop_app (k : string) (a b : list (string * value)) :
  lookup_prop k (a ++ b) =
  match lookup_prop k a with
  | Some v => Some v
  | None => lookup_prop k b
  end.
Proof.
  induction a as [|[k' v'] l IH]; [reflexivity|].
  cbn [app lookup_prop]. destruct (String.eqb k' k); [reflexivity | exact IH].
Qed.

(** Setting a key that is not an array index. *)
Lemma obj_set_plain (k : string) (v : value) (props : list (string * value)) :
  array_index k = None ->
  lookup_prop k (obj_set k v props) = Some v /\
  (forall k', k <> k' -> lookup_prop k' (obj_set k v props) = lookup_prop k' props) /\
  (ordered_keys (map fst props) = true ->
   ordered_keys (map fst (obj_set k v props)) = true) /\
  (wf_value v -> Forall (fun kv => wf_value (snd kv)) props ->
   Forall (fun kv => wf_value (snd kv)) (obj_set k v props)).
Proof.
  intros Hk. unfold obj_set. rewrite Hk.
  destruct (lookup_prop k props) as [old|] eqn:Hl.
  - repeat split.
    + apply lookup_prop_replace_same. congruence.
    + intros k' Hne. now apply lookup_prop_replace_other.
    + intros Hord.
      replace (map fst (replace_prop k v props)) with (map fst props); [assumption|].
      clear. induction props as [|[k' v'] l IH]; [reflexivity|].
      cbn [replace_prop]. destruct (String.eqb k' k); cbn [map fst]; congruence.
    + intros Wv Wl. clear Hl. induction props as [|[k' v'] l IH]; [constructor|].
      inversion_clear Wl. cbn [replace_prop].
      destruct (String.eqb k' k); constructor; auto.
  - repeat split.
    + rewrite lookup_prop_app, Hl. cbn [lookup_prop]. now rewrite String.eqb_refl.
    + intros k' Hne. rewrite lookup_prop_app.
      destruct (lookup_prop k' props); [reflexivity|]. cbn [lookup_prop].
      apply String.eqb_neq in Hne. now rewrite Hne.
    + intros Hord. rewrite map_app. cbn [map fst].
      induction props as [|[k' v'] l IH]; [reflexivity|].
      cbn [lookup_prop] in Hl. destruct (String.eqb k' k) eqn:H0; [discriminate|].
      cbn [map fst app ordered_keys] in *.
      apply andb_prop in Hord as [Hord H3]. apply andb_prop in Hord as [H1 H2].
      rewrite existsb_app, forallb_app, negb_orb, H1, H2, (IH Hl H3).
      cbn [existsb forallb]. rewrite H0. unfold key_before. rewrite Hk.
      now destruct (array_index k').
    + intros Wv Wl. apply Forall_app. split; [assumption|]. now constructor.
Qed.

Lemma Number_equal_normalize (x : number) :
  is_finite x = true ->
  Number_equal (match x with Zero _ => Zero false | _ => x end) x = true.
Proof.
  destruct x as [| |neg|neg m e]; try discriminate; intros _; [reflexivity|].
  simpl. now rewrite Bool.eqb_reflx, Pos.eqb_refl, Z.eqb_refl.
Qed.

Lemma get_number_object (v : value) (k : string) (x : number) :
  k <> "length" -> array_index k = None ->
  get v k = Ok (VNum x) ->
  exists props, v = VObj props /\ lookup_prop k props = Some (VNum x).
Proof.
  intros Hlen Hk Hget. apply String.eqb_neq in Hlen.
  destruct v as [| |b|y|s|items|props]; cbn [get] in Hget;
    rewrite ?Hk, ?Hlen in Hget; try discriminate.
  exists props. split; [reflexivity|].
  destruct (lookup_prop k props); [|discriminate]. cbn in Hget. congruence.
Qed.

Lemma get_object (props : list (string * value)) (k : string) (v : value) :
  v <> VUndefined ->
  get (VObj props) k = Ok v -> lookup_prop k props = Some v.
Proof.
  intros Hv. cbn [get]. destruct (lookup_prop k props); cbn; congruence.
Qed.

Lemma wf_lookup (props : list (string * value)) (k : string) (v : value) :
  Forall (fun kv => wf_value (snd kv)) props ->
  lookup_prop k props = Some v -> wf_value v.
Proof.
  intros Hwf. induction props as [|[k' v'] l IH]; [discriminate|].
  inversion_clear Hwf. cbn [lookup_prop]. destruct (String.eqb k' k).
  - now intros [= <-].
  - now apply IH.
Qed.

Lemma get_normalized (props : list (string * value)) (k : string) (v : value) :
  lookup_prop k props = Some v ->
  get (normalize (VObj props)) k = Ok (normalize v).
Proof.
  intros H. cbn [normalize get]. now rewrite lookup_prop_normalize, H.
Qed.

Lemma loadLastDiagnosis_run (text : string) (data : value) (st : State) :
  localStorage st !! "lastDiagnosis" = Some text ->
  text <> "" ->
  JSON_parse text = Ok data ->
  loadLastDiagnosis st =
  (Ok tt, set_console (console st ++ [ConsoleLog "Last diagnosis:" (LValue data)]) st).
Proof.
  intros Hl Hne Hp. apply String.eqb_neq in Hne.
  unfold loadLastDiagnosis, try_catch, bind, localStorage_getItem, lift, console_log.
  now rewrite Hl, Hne, Hp.
Qed.

(** C6. A prediction result saved by [saveLastDiagnosis] and read again by
    [loadLastDiagnosis] comes back with the same label, confidence and
    probabilities: the value that [loadLastDiagnosis] parses from the key
    lastDiagnosis (and logs) has the label of the result, and numbers that are
    [===] to its confidence and its three probabilities; the timestamp is the
    one addition. The result is a value as [response.json()] builds them, its
    confidence and probabilities are finite, and the storage takes the
    write. *)
Theorem lastDiagnosis_round_trip (w : World) (result : value) (label : string)
    (c : number) (probabilities : value) (p1 p2 p3 : number) (st : State) :
  wf_value result ->
  prediction_shape result label c probabilities p1 p2 p3 ->
  is_finite c = true ->
  is_finite p1 = true -> is_finite p2 = true -> is_finite p3 = true ->
  (forall text, quota_exceeded w (localStorage st) "lastDiagnosis" text = false) ->
  exists text data st',
    (saveLastDiagnosis w result ;; loadLastDiagnosis) st = (Ok tt, st') /\
    localStorage st' = <["lastDiagnosis" := text]> (localStorage st) /\
    JSON_parse text = Ok data /\
    console st' = console st ++ [ConsoleLog "Last diagnosis:" (LValue data)] /\
    get data "predicted_class" = Ok (VStr label) /\
    (exists c', get data "confidence" = Ok (VNum c') /\ Number_equal c' c = true) /\
    (exists probabilities' q1 q2 q3,
       get data "probabilities" = Ok probabilities' /\
       get probabilities' "Covid" = Ok (VNum q1) /\ Number_equal q1 p1 = true /\
       get probabilities' "Pneumonia" = Ok (VNum q2) /\ Number_equal q2 p2 = true /\
       get probabilities' "Normal" = Ok (VNum q3) /\ Number_equal q3 p3 = true) /\
    get data "timestamp" = Ok (VStr (now_iso w)).
Proof.
  intros Hwf (Hlabel & Hc & Hprobs & Hp1 & Hp2 & Hp3) Fc F1 F2 F3 Hquota.
  apply get_number_object in Hc as (props & -> & Lc);
    [|discriminate|reflexivity].
  apply get_number_object in Hp1 as (pprops & -> & L1);
    [|discriminate|reflexivity].
  apply get_object in Hlabel; [|discriminate].
  apply get_object in Hprobs; [|discriminate].
  apply get_object in Hp2; [|discriminate].
  apply get_object in Hp3; [|discriminate].
  apply wf_value_obj in Hwf as [Hord Hwf].
  destruct (obj_set_plain "timestamp" (VStr (now_iso w)) props eq_refl)
    as (Lt & Lother & Kord & Kwf).
  pose proof (spread_object props Hord) as Hspread.
  set (obj := obj_set "timestamp" (VStr (now_iso w)) props) in *.
  assert (Wobj : wf_value (VObj obj)).
  { apply wf_value_obj. split; [now apply Kord | apply Kwf; [exact I | assumption]]. }
  destruct (wf_serialize (VObj obj) Wobj) as [text Hser].
  pose proof (JSON_parse_serialize (VObj obj) text Wobj Hser) as Hp.
  assert (Hne : text <> "").
  { rewrite serialize_obj in Hser by (apply Kwf; [exact I | assumption]).
    injection Hser as <-. discriminate. }
  exists text, (normalize (VObj obj)).
  eexists. split.
  { unfold bind. rewrite (saveLastDiagnosis_run w (VObj props) text st)
      by (now rewrite Hspread).
    rewrite Hquota.
    apply (loadLastDiagnosis_run text (normalize (VObj obj))); [|assumption..].
    cbn. apply lookup_insert_eq. }
  split; [reflexivity|]. split; [assumption|]. split; [reflexivity|].
  assert (Hget : forall k v, "timestamp" <> k -> lookup_prop k props = Some v ->
            get (normalize (VObj obj)) k = Ok (normalize v)).
  { intros k v Hk Hl. apply get_normalized. unfold obj. now rewrite Lother. }
  split; [apply (Hget "predicted_class" (VStr label)); [discriminate|assumption]|].
  split.
  { eexists. split.
    - rewrite (Hget "confidence" (VNum c)) by (discriminate || assumption).
      cbn [normalize]. now rewrite Fc.
    - now apply Number_equal_normalize. }
  split.
  { exists (normalize (VObj pprops)). do 3 eexists.
    split; [apply (Hget "probabilities" (VObj pprops)); [discriminate|assumption]|].
    rewrite (get_normalized _ _ _ L1), (get_normalized _ _ _ Hp2),
      (get_normalized _ _ _ Hp3).
    cbn [normalize]. rewrite F1, F2, F3.
    repeat split; now apply Number_equal_normalize. }
  exact (get_normalized _ _ _ Lt).
Qed.

(** The text that [saveLastDiagnosis] makes of a result reads back as the
    result with its timestamp. *)
Lemma saved_text_reads_back (now : string) (result : value) (label : string)
    (c : number) (probabilities : value) (p1 p2 p3 : number) :
  wf_value result ->
  prediction_shape result label c probabilities p1 p2 p3 ->
  is_finite c = true ->
  is_finite p1 = true -> is_finite p2 = true -> is_finite p3 = true ->
  exists text data,
    serialize (VObj (obj_set "timestamp" (VStr now) (spread result))) = Some text /\
    JSON_parse text = Ok data /\
    get data "predicted_class" = Ok (VStr label) /\
    (exists c', get data "confidence" = Ok (VNum c') /\ Number_equal c' c = true) /\
    (exists probabilities' q1 q2 q3,
       get data "probabilities" = Ok probabilities' /\
       get probabilities' "Covid" = Ok (VNum q1) /\ Number_equal q1 p1 = true /\
       get probabilities' "Pneumonia" = Ok (VNum q2) /\ Number_equal q2 p2 = true /\
       get probabilities' "Normal" = Ok (VNum q3) /\ Number_equal q3 p3 = true) /\
    get data "timestamp" = Ok (VStr now).
Proof.
  intros Hwf (Hlabel & Hc & Hprobs & Hp1 & Hp2 & Hp3) Fc F1 F2 F3.
  apply get_number_object in Hc as (props & -> & Lc);
    [|discriminate|reflexivity].
  apply get_number_object in Hp1 as (pprops & -> & L1);
    [|discriminate|reflexivity].
  apply get_object in Hlabel; [|discriminate].
  apply get_object in Hprobs; [|discriminate].
  apply get_object in Hp2; [|discriminate].
  apply get_object in Hp3; [|discriminate].
  apply wf_value_obj in Hwf as [Hord Hwf].
  destruct (obj_set_plain "timestamp" (VStr now) props eq_refl)
    as (Lt & Lother & Kord & Kwf).
  rewrite (spread_object props Hord).
  set (obj := obj_set "timestamp" (VStr now) props) in *.
  assert (Wobj : wf_value (VObj obj)).
  { apply wf_value_obj. split; [now apply Kord | apply Kwf; [exact I | assumption]]. }
  destruct (wf_serialize (VObj obj) Wobj) as [text Hser].
  pose proof (JSON_parse_serialize (VObj obj) text Wobj Hser) as Hp.
  exists text, (normalize (VObj obj)).
  split; [assumption|]. split; [assumption|].
  assert (Hget : forall k v, "timestamp" <> k -> lookup_prop k props = Some v ->
            get (normalize (VObj obj)) k = Ok (normalize v)).
  { intros k v Hk Hl. apply get_normalized. unfold obj. now rewrite Lother. }
  split; [apply (Hget "predicted_class" (VStr label)); [discriminate|assumption]|].
  split.
  { eexists. split.
    - rewrite (Hget "confidence" (VNum c)) by (discriminate || assumption).
      cbn [normalize]. now rewrite Fc.
    - now apply Number_equal_normalize. }
  split.
  { exists (normalize (VObj pprops)). do 3 eexists.
    split; [apply (Hget "probabilities" (VObj pprops)); [discriminate|assumption]|].
    rewrite (get_normalized _ _ _ L1), (get_normalized _ _ _ Hp2),
      (get_normalized _ _ _ Hp3).
    cbn [normalize]. rewrite F1, F2, F3.
    repeat split; now apply Number_equal_normalize. }
  exact (get_normalized _ _ _ Lt).
Qed.

(** C7: the cache is written only by a prediction that was displayed.  A
    request that failed, a body that is not JSON and a body that cannot be
    rendered leave the storage as it was.  A displayed prediction, a value as
    [response.json()] builds them with a finite confidence and finite
    probabilities, replaces the value of [lastDiagnosis] with a text that
    [JSON.parse] reads back as the label, the confidence and the three
    probabilities of the result and the timestamp of the save; and when the
    storage refuses the write, the refusal is logged, the storage is as it was
    and the page shows the result all the same. *)
Theorem lastDiagnosis_written_only_on_success (w : World) (file : File)
    (st : State) :
  ((exists e, fetch_result w (predict_request file) = Rejected e) \/
   (exists r, fetch_result w (predict_request file) = Responded r /\
              (ok r = false \/ content r = InvalidBody \/
               exists result, content r = JsonBody result /\
                              ~ numeric_shape result)) ->
   localStorage (predictXray w file st).2 = localStorage st) /\
  (forall r result label c probabilities p1 p2 p3,
     loading_elements st ->
     result_elements st ->
     fetch_result w (predict_request file) = Responded r ->
     ok r = true ->
     content r = JsonBody result ->
     prediction_shape result label c probabilities p1 p2 p3 ->
     wf_value result ->
     is_finite c = true ->
     is_finite p1 = true -> is_finite p2 = true -> is_finite p3 = true ->
     exists text data st',
       serialize (VObj (obj_set "timestamp" (VStr (now_iso w)) (spread result)))
         = Some text /\
       JSON_parse text = Ok data /\
       get data "predicted_class" = Ok (VStr label) /\
       (exists c', get data "confidence" = Ok (VNum c') /\
                   Number_equal c' c = true) /\
       (exists probabilities' q1 q2 q3,
          get data "probabilities" = Ok probabilities' /\
          get probabilities' "Covid" = Ok (VNum q1) /\
          Number_equal q1 p1 = true /\
          get probabilities' "Pneumonia" = Ok (VNum q2) /\
          Number_equal q2 p2 = true /\
          get probabilities' "Normal" = Ok (VNum q3) /\
          Number_equal q3 p3 = true) /\
       get data "timestamp" = Ok (VStr (now_iso w)) /\
       predictXray w file st = (Ok tt, st') /\
       (if quota_exceeded w (localStorage st) "lastDiagnosis" text
        then localStorage st' = localStorage st /\
             console st' = console st ++
               [ConsoleError "Failed to save diagnosis:" (LError quota_error)]
        else localStorage st' = <["lastDiagnosis" := text]> (localStorage st) /\
             console st' = console st) /\
       document st' =
         alter (with_class "hidden") loading
           (document (rendered label c p1 p2 p3 (loading_state st))) /\
       shown st' resultCard /\
       hidden st' errorMessage).
Proof.
  split.
  - intros Hfail.
    destruct (showLoading st) as [[[]|e0] st1] eqn:Hshow.
    2:{ unfold predictXray, bind. rewrite Hshow.
        exact (stable_result same_storage _ _ _ _ showLoading_storage Hshow). }
    assert (Hthrow : exists e st2, predictXray_try w file st1 = (Throw e, st2)).
    { destruct Hfail as [He | (r & Hr & [Hok | [Hbody | (result & Hbody & Hn)]])].
      - destruct (predictXray_try_fails w file st1) as [e H]; eauto.
      - destruct (predictXray_try_fails w file st1) as [e H]; eauto 10.
      - destruct (predictXray_try_fails w file st1) as [e H]; eauto 10.
      - eapply predictXray_try_render_throws; eauto. }
    destruct Hthrow as (e & st2 & Htry).
    eapply predictXray_throw_storage; eauto.
  - intros r result label c probabilities p1 p2 p3 Hl Hr Hf Hok Hbody Hshape
      Hwf Fc F1 F2 F3.
    destruct (saved_text_reads_back (now_iso w) result label c probabilities
                p1 p2 p3 Hwf Hshape Fc F1 F2 F3)
      as (text & data & Htext & Hparse & Glabel & Gc & Gp & Gt).
    exists text, data. eexists.
    split; [exact Htext|]. split; [exact Hparse|]. split; [exact Glabel|].
    split; [exact Gc|]. split; [exact Gp|]. split; [exact Gt|].
    split.
    { eapply predictXray_success; eauto. }
    cbv zeta. unfold cached, rendered, loading_state. reduce_state.
    destruct Hl as ([l Hl] & [rs Hrs] & [rc Hrc] & [em Hem]).
    destruct (quota_exceeded w (localStorage st) "lastDiagnosis" text);
      reduce_state;
      (split; [split; reflexivity|]); (split; [reflexivity|]);
      unfold shown, hidden; handles;
      (split; lookup_dom;
       [ rewrite Hrc; eexists; split; [reflexivity | apply without_class_out]
       | rewrite Hem; eexists; split; [reflexivity | apply with_class_in] ]).
Qed.

(** ** Percentages on the page *)

(** *** One decimal *)

Lemma string_take_app (a b : string) : string_take (String.length a) (a +:+ b) = a.
Proof. induction a as [|c a IH]; simpl; [now destruct b | now rewrite IH]. Qed.

Lemma string_drop_app (a b : string) : string_drop (String.length a) (a +:+ b) = b.
Proof. induction a as [|c a IH]; simpl; [now destruct b | exact IH]. Qed.

Lemma fixed1_digits_tenths (n : Z) : 0 <= n -> fixed1_digits n = tenths_text n.
Proof.
  intros Hn. unfold fixed1_digits, tenths_text.
  destruct (Z_lt_dec n 10) as [Hlt | Hge].
  - rewrite (decimal_string_small n) by lia.
    rewrite Z.div_small, Z.mod_small by lia.
    rewrite (decimal_string_small n) by lia. reflexivity.
  - rewrite (decimal_string_step n) by lia.
    assert (Hmod : 0 <= n mod 10 < 10) by (apply Z.mod_pos_bound; lia).
    rewrite (decimal_string_small (n mod 10)) by lia.
    pose proof (decimal_string_nonempty (n / 10)) as Hne.
    set (a := decimal_string (n / 10)) in *.
    set (d := String (digit_char (n mod 10)) "").
    assert (Hlen : String.length (a +:+ d) = S (String.length a)).
    { rewrite length_append. subst d. simpl. lia. }
    assert (Hbig : (String.length (a +:+ d) <=? 1)%nat = false).
    { apply Nat.leb_gt. rewrite Hlen. destruct a; [congruence | simpl; lia]. }
    rewrite Hbig. cbv zeta. rewrite Hlen.
    replace (S (String.length a) - 1)%nat with (String.length a) by lia.
    now rewrite string_take_app, string_drop_app.
Qed.

(** [toFixed(1)] of a percentage is the percentage rounded to one decimal. *)
Lemma toFixed1_tenths (x : number) :
  percentage x ->
  exists n, nearest_tenth x n /\ toFixed1 x = tenths_text n.
Proof.
  destruct x as [| neg | neg | neg m e]; try contradiction.
  { intros _. exists 0. split; reflexivity. }
  destruct neg; [contradiction|]. intros [Hcan Hle].
  assert (Hden : 0 < 2 ^ Z.max (- e) 0) by (apply pow2_pos; lia).
  assert (Hnum : 0 < Zpos m * 2 ^ Z.max e 0).
  { apply Z.mul_pos_pos; [lia | apply pow2_pos; lia]. }
  exists (nearest_tenths m e). split.
  - unfold nearest_tenth, nearest_tenths, scaled_num, scaled_den. cbv zeta.
    change (Z.max (- -1) 0) with 1. change (Z.max (-1) 0) with 0.
    rewrite Z.pow_0_r, Z.mul_1_r, Z.pow_1_r.
    set (P := Zpos m * 2 ^ Z.max e 0) in *.
    set (Q := 2 ^ Z.max (- e) 0) in *.
    pose proof (Z.div_mod (2 * (P * 10) + Q) (2 * Q) ltac:(lia)) as Hdiv.
    pose proof (Z.mod_pos_bound (2 * (P * 10) + Q) (2 * Q) ltac:(lia)) as Hmod.
    lia.
  - unfold toFixed1.
    assert (Hsmall : (scaled_den e 0 * 10 ^ 21 <=? scaled_num m e 0) = false).
    { apply Z.leb_gt. unfold scaled_num, scaled_den.
      change (Z.max (- 0) 0) with 0. change (Z.max 0 0) with 0.
      rewrite Z.pow_0_r, !Z.mul_1_r.
      assert (100 < 10 ^ 21) by (vm_compute; reflexivity). nia. }
    rewrite Hsmall. cbn [String.append].
    apply fixed1_digits_tenths. unfold nearest_tenths, scaled_num, scaled_den.
    apply Z.div_pos; [|nia].
    change (Z.max (- -1) 0) with 1. change (Z.max (-1) 0) with 0. nia.
Qed.

(** *** The width of a bar *)

(** Number::toString writes a number that is not negative as an integer part,
    a fraction and an exponent. *)
Lemma format_digits_shape (s n : Z) :
  0 < s ->
  exists ip fp ex,
    format_digits (decimal_string s) n = number_text false ip fp ex /\
    good_int ip /\ all_digits fp = true /\ good_exponent ex.
Proof.
  intros Hs.
  pose proof (decimal_string_good s Hs) as Hgood.
  pose proof (decimal_string_digits s ltac:(lia)) as Hdig.
  pose proof (decimal_string_value s ltac:(lia)) as Hval.
  pose proof (decimal_string_nonempty s) as Hne.
  set (ds := decimal_string s) in *.
  assert (Hk : (1 <= String.length ds)%nat).
  { destruct ds; [congruence | simpl; lia]. }
  assert (Hlead : exists c, leading ds = Some c /\ c <> "0"%char).
  { destruct Hgood as [H0 | (_ & c & Hl & Hc)]; [|eauto].
    rewrite H0 in Hval. vm_compute in Hval. lia. }
  destruct Hlead as (c & Hl & Hc).
  unfold format_digits.
  set (k := Z.of_nat (String.length ds)).
  assert (Hkdef : k = Z.of_nat (String.length ds)) by reflexivity.
  clearbody k.
  destruct ((k <=? n) && (n <=? 21)) eqn:C1.
  { exists (ds +:+ zeros (Z.to_nat (n - k))), "", None. split; [|split; [|split]].
    - unfold number_text. simpl. now rewrite !append_nil_r.
    - right. split.
      + rewrite all_digits_app, Hdig. apply all_digits_zeros.
      + exists c. rewrite leading_app by assumption. auto.
    - reflexivity.
    - exact I. }
  destruct ((0 <? n) && (n <=? 21)) eqn:C2.
  { apply andb_prop in C2 as [C2 C2']. apply Z.ltb_lt in C2.
    apply andb_false_iff in C1 as [C1 | C1];
      [apply Z.leb_gt in C1 | apply Z.leb_le in C2'; apply Z.leb_gt in C1; lia].
    assert (Hdrop : string_drop (Z.to_nat n) ds <> "").
    { intros H. apply (f_equal String.length) in H.
      rewrite length_drop in H. simpl in H. lia. }
    exists (string_take (Z.to_nat n) ds), (string_drop (Z.to_nat n) ds), None.
    split; [|split; [|split]].
    - unfold number_text, fraction_text.
      destruct (string_drop (Z.to_nat n) ds); [congruence|].
      simpl. now rewrite append_nil_r.
    - right. split; [now apply all_digits_take|].
      exists c. rewrite leading_take by lia. auto.
    - now apply all_digits_drop.
    - exact I. }
  destruct ((-6 <? n) && (n <=? 0)) eqn:C3.
  { exists "0", (zeros (Z.to_nat (- n)) +:+ ds), None. split; [|split; [|split]].
    - unfold number_text, fraction_text.
      destruct (zeros (Z.to_nat (- n)) +:+ ds) eqn:Hz.
      + destruct (zeros (Z.to_nat (- n))); [simpl in Hz; congruence | discriminate].
      + simpl. now rewrite append_nil_r.
    - now left.
    - rewrite all_digits_app, Hdig. now rewrite all_digits_zeros.
    - exact I. }
  destruct (exponent_part_text n) as (ex & Hex & Hgex & Hvex).
  destruct (k =? 1) eqn:C4.
  { exists ds, "", ex. split; [|split; [|split]]; try assumption; [|reflexivity].
    unfold number_text. rewrite Hex. reflexivity. }
  apply Z.eqb_neq in C4.
  assert (Hdrop : string_drop 1 ds <> "").
  { intros H. apply (f_equal String.length) in H.
    rewrite length_drop in H. simpl in H. lia. }
  exists (string_take 1 ds), (string_drop 1 ds), ex.
  split; [|split; [|split]]; try assumption.
  - unfold number_text, fraction_text. rewrite Hex.
    destruct (string_drop 1 ds); [congruence|]. reflexivity.
  - right. split; [now apply all_digits_take|].
    exists c. rewrite leading_take by lia. auto.
  - now apply all_digits_drop.
Qed.

Lemma digit_not_space (c : ascii) : is_digit c = true -> css_space c = false.
Proof.
  intros H.
  destruct (is_digit_cases c H) as [H0|[H0|[H0|[H0|[H0|[H0|[H0|[H0|[H0|H0]]]]]]]]];
    subst c; reflexivity.
Qed.

Lemma css_sign_digit (c : ascii) (s : string) :
  is_digit c = true -> css_sign (String c s) = (false, String c s).
Proof.
  intros H.
  destruct (is_digit_cases c H) as [H0|[H0|[H0|[H0|[H0|[H0|[H0|[H0|[H0|H0]]]]]]]]];
    subst c; reflexivity.
Qed.

Lemma css_exponent_text (ex : option (bool * string)) :
  good_exponent ex -> css_exponent (exponent_text ex +:+ "%") = "%".
Proof.
  destruct ex as [[eneg ed]|]; [|reflexivity]. intros [Hd Hne].
  assert (Htext : exponent_text (Some (eneg, ed)) +:+ "%" =
                  String "e" ((if eneg then "-" else "+") +:+ ed +:+ "%")).
  { now destruct eneg. }
  rewrite Htext. unfold css_exponent.
  change (Ascii.eqb "e" "e" || Ascii.eqb "e" "E") with true. cbv iota.
  assert (Hsign : parse_exp_sign ((if eneg then "-" else "+") +:+ ed +:+ "%") =
                  (eneg, ed +:+ "%")) by (now destruct eneg).
  rewrite Hsign, (take_digits_app ed "%") by (assumption || reflexivity).
  now destruct ed.
Qed.

(** Such a text with a percent sign is a valid width. *)
Lemma valid_width_text (ip fp : string) (ex : option (bool * string)) :
  good_int ip -> all_digits fp = true -> good_exponent ex ->
  valid_width (number_text false ip fp ex +:+ "%") = true.
Proof.
  intros Hip Hfp Hex. unfold number_text. cbn [String.append].
  rewrite !append_assoc.
  destruct (exponent_text_start ex "%" eq_refl) as [He1 He2].
  set (tail := exponent_text ex +:+ "%") in *.
  assert (Htail : starts_with is_digit (fraction_text fp +:+ tail) = false).
  { destruct fp; [exact He1 | reflexivity]. }
  destruct (good_int_start ip (fraction_text fp +:+ tail) Hip) as (c & Hl & Hc).
  assert (Hdig : all_digits ip = true).
  { destruct Hip as [-> | [H _]]; [reflexivity | exact H]. }
  pose proof (good_int_nonempty ip Hip) as Hne.
  unfold valid_width.
  destruct (ip +:+ fraction_text fp +:+ tail) as [|c' text] eqn:Htext;
    [discriminate|].
  injection Hl as ->. cbn [skip_css_space]. rewrite (digit_not_space c Hc).
  rewrite (css_sign_digit c text Hc), <- Htext.
  unfold css_number. rewrite (take_digits_app ip _ Hdig Htail).
  assert (Hfrac : css_fraction (fraction_text fp +:+ tail) = (fp, tail)).
  { destruct fp as [|d fp].
    - cbn [fraction_text String.append]. unfold css_fraction.
      destruct tail as [|t tail']; [reflexivity|]. cbn [starts_with] in He2.
      now rewrite He2.
    - change (fraction_text (String d fp) +:+ tail)
        with (String "." (String d fp +:+ tail)).
      unfold css_fraction. change (Ascii.eqb "." ".") with true. cbv iota.
      now rewrite (take_digits_app (String d fp) tail Hfp He1). }
  rewrite Hfrac. unfold tail. rewrite (css_exponent_text ex Hex).
  destruct ip; [congruence|]. cbn [negb orb andb skip_css_space].
  reflexivity.
Qed.

(** A percentage written by Number::toString is a valid width and reads back
    as the percentage. *)
Lemma Number_toString_width (x : number) :
  percentage x ->
  valid_width (Number_toString x +:+ "%") = true /\
  denotes (Number_toString x) x.
Proof.
  destruct x as [| |neg|[] m e]; try contradiction.
  - intros _. split; [reflexivity|]. exists (Zero false). now split.
  - intros [Hc _]. split.
    + pose proof (shortest_digits_total m e Hc) as Hsome.
      unfold Number_toString.
      destruct (shortest_digits m e) as [[s E]|] eqn:Hd; [|congruence].
      apply find_digits_reads_back, reads_back_spec in Hd as [_ Hs].
      cbn [fst] in Hs. cbv zeta.
      destruct (format_digits_shape s
                  (E + Z.of_nat (String.length (decimal_string s))) Hs)
        as (ip & fp & ex & -> & Hip & Hfp & Hex).
      change ("" +:+ number_text false ip fp ex) with (number_text false ip fp ex).
      now apply valid_width_text.
    + exists (Finite false m e). split.
      * pose proof (Number_toString_parse (Finite false m e) "" Hc eq_refl eq_refl) as H.
        now rewrite append_nil_r in H.
      * apply (Number_equal_normalize (Finite false m e)). reflexivity.
Qed.

Lemma nearest_tenth_unique (x : number) (n n' : Z) :
  nearest_tenth x n -> nearest_tenth x n' -> n = n'.
Proof.
  destruct x as [| |neg|[] m e]; try contradiction; simpl.
  - congruence.
  - pose proof (pow2_pos (Z.max (- e) 0) ltac:(lia)) as Hden.
    set (den := 2 ^ Z.max (- e) 0) in *.
    set (num := Z.pos m * 2 ^ Z.max e 0). intros H H'. nia.
Qed.

Lemma toFixed1_one_decimal (x : number) :
  percentage x -> one_decimal x (toFixed1 x).
Proof.
  intros H. destruct (toFixed1_tenths x H) as (n & Hn & Htext). now exists n.
Qed.

Lemma one_decimal_unique (x : number) (s s' : string) :
  one_decimal x s -> one_decimal x s' -> s = s'.
Proof.
  intros (n & Hn & ->) (n' & Hn' & ->).
  now rewrite (nearest_tenth_unique x n n' Hn Hn').
Defined.

Lemma fire_AnimateBar (bar : string) (p : number) (s : State) :
  present s bar ->
  valid_width (Number_toString p +:+ "%") = true ->
  fire s (AnimateBar bar (VNum p)) =
  set_document
    (alter (with_width (Number_toString p +:+ "%")) bar (document s)) s.
Proof.
  intros Hp Hvalid. unfold fire, run_timer, set_style_width, lift, bind.
  cbn [ToString]. now rewrite update_element_run, Hvalid.
Qed.

(** After the timers the three bars are as wide as their probabilities. *)
Lemma run_timers_rendered (label : string) (c p1 p2 p3 : number) (st : State) :
  result_elements st ->
  valid_width (Number_toString p1 +:+ "%") = true ->
  valid_width (Number_toString p2 +:+ "%") = true ->
  valid_width (Number_toString p3 +:+ "%") = true ->
  width_of (run_timers (rendered label c p1 p2 p3 st)) covidBar =
    Some (Number_toString p1 +:+ "%") /\
  width_of (run_timers (rendered label c p1 p2 p3 st)) pneumoniaBar =
    Some (Number_toString p2 +:+ "%") /\
  width_of (run_timers (rendered label c p1 p2 p3 st)) normalBar =
    Some (Number_toString p3 +:+ "%").
Proof.
  intros Hel V1 V2 V3.
  assert (Hrun : exists s1,
    present s1 covidBar /\ present s1 pneumoniaBar /\ present s1 normalBar /\
    run_timers (rendered label c p1 p2 p3 st) =
    set_document
      (alter (with_width (Number_toString p3 +:+ "%")) normalBar
      (alter (with_width (Number_toString p2 +:+ "%")) pneumoniaBar
      (alter (with_width (Number_toString p1 +:+ "%")) covidBar
         (document s1)))) s1).
  { rewrite run_timers_fold. unfold rendered at 1. reduce_state.
    rewrite !fold_left_app. cbn [fold_left].
    match goal with
    | |- context [fold_left fire (timers st) ?s0] =>
        pose proof (fold_fire_elements (timers st) s0) as Hsame;
        set (s1 := fold_left fire (timers st) s0) in *
    end.
    assert (Hbars : present s1 covidBar /\ present s1 pneumoniaBar /\
                    present s1 normalBar).
    { repeat split; apply Hsame; unfold rendered; solve_elements. }
    destruct Hbars as (B1 & B2 & B3).
    rewrite (fire_AnimateBar covidBar) by assumption.
    rewrite (fire_AnimateBar pneumoniaBar) by (assumption || solve_elements).
    rewrite (fire_AnimateBar normalBar) by (assumption || solve_elements).
    exists s1. repeat split; try assumption. }
  destruct Hrun as (s1 & [b1 B1] & [b2 B2] & [b3 B3] & ->).
  unfold width_of. handles. repeat split; lookup_dom.
  - now rewrite B1.
  - now rewrite B2.
  - now rewrite B3.
Qed.

(** C2: on a prediction whose confidence and probabilities are percentages
    (binary64 values from 0 to 100) [displayResults] writes the class, the
    confidence rounded to one decimal after [Confidence: ] and before a
    percent sign, and each probability rounded to one decimal before a percent
    sign; it puts the three bars at width zero and, when the timers fire, at
    a width that the style sheet accepts and that reads back as their
    probability; the result card and the results section are shown. *)
Theorem displayResults_renders_prediction (result : value) (label : string)
    (c : number) (probabilities : value) (p1 p2 p3 : number) (st : State) :
  result_elements st ->
  prediction_shape result label c probabilities p1 p2 p3 ->
  percentage c -> percentage p1 -> percentage p2 -> percentage p3 ->
  exists st' tc t1 t2 t3 w1 w2 w3,
    displayResults result st = (Ok tt, st') /\
    one_decimal c tc /\ one_decimal p1 t1 /\
    one_decimal p2 t2 /\ one_decimal p3 t3 /\
    denotes w1 p1 /\ denotes w2 p2 /\ denotes w3 p3 /\
    text_of st' predictionText = Some label /\
    text_of st' confidenceText = Some ("Confidence: " +:+ tc +:+ "%") /\
    text_of st' covidProb = Some (t1 +:+ "%") /\
    text_of st' pneumoniaProb = Some (t2 +:+ "%") /\
    text_of st' normalProb = Some (t3 +:+ "%") /\
    width_of st' covidBar = Some "0%" /\
    width_of st' pneumoniaBar = Some "0%" /\
    width_of st' normalBar = Some "0%" /\
    width_of (run_timers st') covidBar = Some (w1 +:+ "%") /\
    width_of (run_timers st') pneumoniaBar = Some (w2 +:+ "%") /\
    width_of (run_timers st') normalBar = Some (w3 +:+ "%") /\
    shown st' resultCard /\
    shown st' resultsSection.
Proof.
  intros Hel Hshape Hc H1 H2 H3.
  destruct (Number_toString_width p1 H1) as [V1 D1].
  destruct (Number_toString_width p2 H2) as [V2 D2].
  destruct (Number_toString_width p3 H3) as [V3 D3].
  exists (rendered label c p1 p2 p3 st),
    (toFixed1 c), (toFixed1 p1), (toFixed1 p2), (toFixed1 p3),
    (Number_toString p1), (Number_toString p2), (Number_toString p3).
  split; [now apply displayResults_run with probabilities|].
  do 4 (split; [now apply toFixed1_one_decimal|]).
  do 3 (split; [assumption|]).
  destruct (run_timers_rendered label c p1 p2 p3 st Hel V1 V2 V3)
    as (W1 & W2 & W3).
  destruct Hel as ([e1 E1] & [e2 E2] & [e3 E3] & [e4 E4] & [e5 E5] & [e6 E6] &
                   [e7 E7] & [e8 E8] & [e9 E9] & [e10 E10]).
  unfold rendered, text_of, width_of, shown. handles.
  repeat split; try assumption; lookup_dom.
  - now rewrite E1.
  - now rewrite E2.
  - now rewrite E3.
  - now rewrite E4.
  - now rewrite E5.
  - now rewrite E6.
  - now rewrite E7.
  - now rewrite E8.
  - rewrite E9. eexists. split; [reflexivity|]. apply without_class_out.
  - rewrite E10. eexists. split; [reflexivity|]. apply without_class_out.
Qed.

(** ** The scenarios of the specification *)

Lemma handleFiles_rejects_invalid_file_witness :
  (error_elements diagnosis_page /\
   includes allowedTypes (file_type pdf) = false /\
   (maxSize < file_size oversized_png)%N) /\
  (exists st' message,
     handleFiles (server (json_response 200 mock_result)) [pdf] diagnosis_page =
       (Ok tt, st') /\
     (message = type_message \/ message = size_message) /\
     text_of st' errorText = Some message /\
     shown st' errorMessage /\
     requests st' = [] /\
     reads st' = [] /\
     timers st' = [] /\
     localStorage st' = ∅) /\
  (exists st' message,
     handleFiles (server (json_response 200 mock_result)) [oversized_png]
       diagnosis_page = (Ok tt, st') /\
     (message = type_message \/ message = size_message) /\
     text_of st' errorText = Some message /\
     shown st' errorMessage /\
     requests st' = [] /\
     reads st' = [] /\
     timers st' = [] /\
     localStorage st' = ∅).
Proof.
  split; [|split].
  - split; [apply diagnosis_page_elements | split; reflexivity].
  - apply (handleFiles_rejects_invalid_file
             (server (json_response 200 mock_result)) pdf [] diagnosis_page).
    + apply diagnosis_page_elements.
    + left. reflexivity.
  - apply (handleFiles_rejects_invalid_file
             (server (json_response 200 mock_result)) oversized_png []
             diagnosis_page).
    + apply diagnosis_page_elements.
    + right. reflexivity.
Defined.

Lemma validateFile_accepts_exactly_10MiB_witness :
  (includes allowedTypes (file_type png_10MiB) = true /\
   file_size png_10MiB = (10 * 1024 * 1024)%N) /\
  validateFile png_10MiB diagnosis_page = (Ok true, diagnosis_page) /\
  forall extra : N,
    (0 < extra)%N ->
    validateFile {| file_type := "image/png";
                    file_size := 10 * 1024 * 1024 + extra |} diagnosis_page =
    (showError "File size must be less than 10MB." ;; ret false) diagnosis_page.
Proof.
  split; [split; reflexivity|].
  apply (validateFile_accepts_exactly_10MiB png_10MiB diagnosis_page);
    reflexivity.
Defined.

Lemma predictXray_failure_shows_error_witness :
  (loading_elements diagnosis_page /\ present diagnosis_page errorText /\
   ok {| status := 500; content := InvalidBody |} = false) /\
  exists st',
    predictXray (server (Responded {| status := 500; content := InvalidBody |}))
      png_2KB diagnosis_page = (Ok tt, st') /\
    text_of st' errorText = Some "Failed to analyze the image. Please try again." /\
    shown st' errorMessage /\
    hidden st' resultsSection /\
    hidden st' resultCard /\
    hidden st' loading /\
    timers st' = [].
Proof.
  split.
  - repeat split; try apply diagnosis_page_elements.
  - apply (predictXray_failure_shows_error
             (server (Responded {| status := 500; content := InvalidBody |}))
             png_2KB diagnosis_page).
    + apply diagnosis_page_elements.
    + apply diagnosis_page_elements.
    + right. eexists. split; reflexivity.
Defined.

Lemma predictXray_always_hides_loading_witness :
  loading_elements diagnosis_page /\
  hidden (predictXray (server (json_response 200 mock_result)) png_2KB
            diagnosis_page).2 loading /\
  hidden (predictXray (server (Rejected (TypeError "Failed to fetch"))) png_2KB
            diagnosis_page).2 loading.
Proof.
  split; [apply diagnosis_page_elements|].
  split; apply predictXray_always_hides_loading; apply diagnosis_page_elements.
Defined.


Lemma mock_result_shape :
  prediction_shape mock_result "Normal" (of_decimal false 873 (-1))
    mock_probabilities (of_decimal false 42 (-1)) (of_decimal false 85 (-1))
    (of_decimal false 873 (-1)).
Proof. repeat split. Defined.

Lemma mock_result_texts :
  toFixed1 (of_decimal false 873 (-1)) = "87.3" /\
  toFixed1 (of_decimal false 42 (-1)) = "4.2" /\
  toFixed1 (of_decimal false 85 (-1)) = "8.5" /\
  Number_toString (of_decimal false 873 (-1)) = "87.3" /\
  Number_toString (of_decimal false 42 (-1)) = "4.2" /\
  Number_toString (of_decimal false 85 (-1)) = "8.5".
Proof. repeat split; vm_compute; reflexivity. Defined.

Lemma checkServerStatus_sets_badge_witness :
  (document diagnosis_page !! serverStatusBadge = Some blank /\
   probe_failed (server (Rejected (TypeError "Failed to fetch")))) /\
  exists st',
    checkServerStatus (server (Rejected (TypeError "Failed to fetch")))
      diagnosis_page = (Ok tt, st') /\
    document st' !! serverStatusBadge =
      Some (with_class "text-red-600" (with_text "Offline" blank)).
Proof.
  split; [split; [reflexivity | exact I]|].
  destruct (checkServerStatus_sets_badge
              (server (Rejected (TypeError "Failed to fetch"))) diagnosis_page
              blank eq_refl) as (text & colour & Hcases & Hrun & Hoff).
  specialize (Hoff I). subst text.
  destruct Hcases as [[Ht _] | [[Ht _] | [_ ->]]]; try discriminate Ht.
  eexists. split; [exact Hrun|]. apply lookup_insert_eq.
Defined.

Lemma mock_result_wf : wf_value mock_result.
Proof.
  assert (C873 : wf_number (of_decimal false 873 (-1))).
  { vm_compute. left. repeat split; discriminate. }
  assert (C42 : wf_number (of_decimal false 42 (-1))).
  { vm_compute. left. repeat split; discriminate. }
  assert (C85 : wf_number (of_decimal false 85 (-1))).
  { vm_compute. left. repeat split; discriminate. }
  apply wf_value_obj. split; [reflexivity|].
  constructor; [exact I|].
  constructor; [exact C873|].
  constructor; [|constructor].
  apply wf_value_obj. split; [reflexivity|].
  constructor; [exact C42|].
  constructor; [exact C85|].
  constructor; [exact C873 | constructor].
Defined.

Lemma lastDiagnosis_round_trip_witness :
  (wf_value mock_result /\
   prediction_shape mock_result "Normal" (of_decimal false 873 (-1))
     mock_probabilities (of_decimal false 42 (-1)) (of_decimal false 85 (-1))
     (of_decimal false 873 (-1)) /\
   is_finite (of_decimal false 873 (-1)) = true /\
   is_finite (of_decimal false 42 (-1)) = true /\
   is_finite (of_decimal false 85 (-1)) = true) /\
  exists text data st',
    (saveLastDiagnosis (server (json_response 200 mock_result)) mock_result ;;
     loadLastDiagnosis) diagnosis_page = (Ok tt, st') /\
    localStorage st' = {["lastDiagnosis" := text]} /\
    JSON_parse text = Ok data /\
    console st' = [ConsoleLog "Last diagnosis:" (LValue data)] /\
    get data "predicted_class" = Ok (VStr "Normal") /\
    (exists c', get data "confidence" = Ok (VNum c') /\
                Number_equal c' (of_decimal false 873 (-1)) = true) /\
    (exists probabilities' q1 q2 q3,
       get data "probabilities" = Ok probabilities' /\
       get probabilities' "Covid" = Ok (VNum q1) /\
       Number_equal q1 (of_decimal false 42 (-1)) = true /\
       get probabilities' "Pneumonia" = Ok (VNum q2) /\
       Number_equal q2 (of_decimal false 85 (-1)) = true /\
       get probabilities' "Normal" = Ok (VNum q3) /\
       Number_equal q3 (of_decimal false 873 (-1)) = true) /\
    get data "timestamp" = Ok (VStr "2026-01-01T00:00:00.000Z").
Proof.
  split.
  - split; [apply mock_result_wf|]. split; [apply mock_result_shape|].
    repeat split; vm_compute; reflexivity.
  - apply (lastDiagnosis_round_trip (server (json_response 200 mock_result))
             mock_result "Normal" (of_decimal false 873 (-1)) mock_probabilities
             (of_decimal false 42 (-1)) (of_decimal false 85 (-1))
             (of_decimal false 873 (-1)) diagnosis_page).
    + apply mock_result_wf.
    + apply mock_result_shape.
    + vm_compute; reflexivity.
    + vm_compute; reflexivity.
    + vm_compute; reflexivity.
    + vm_compute; reflexivity.
    + intros text. reflexivity.
Defined.

Lemma mock_result_percentages :
  percentage (of_decimal false 873 (-1)) /\
  percentage (of_decimal false 42 (-1)) /\
  percentage (of_decimal false 85 (-1)).
Proof. vm_compute. repeat split; first [left; repeat split; discriminate | discriminate]. Defined.

Lemma mock_result_one_decimal :
  one_decimal (of_decimal false 873 (-1)) "87.3" /\
  one_decimal (of_decimal false 42 (-1)) "4.2" /\
  one_decimal (of_decimal false 85 (-1)) "8.5".
Proof.
  split; [exists 873 | split; [exists 42 | exists 85]];
    (split; [vm_compute; split; [reflexivity | discriminate] | reflexivity]).
Defined.

Lemma two_decimal_result_shape :
  prediction_shape two_decimal_result "Normal" (of_decimal false 8725 (-2))
    two_decimal_probabilities (of_decimal false 35 (-2))
    (of_decimal false 124 (-1)) (of_decimal false 8725 (-2)).
Proof. repeat split. Defined.

Lemma two_decimal_result_percentages :
  percentage (of_decimal false 8725 (-2)) /\
  percentage (of_decimal false 35 (-2)) /\
  percentage (of_decimal false 124 (-1)).
Proof. vm_compute. repeat split; first [left; repeat split; discriminate | discriminate]. Defined.

Lemma two_decimal_result_one_decimal :
  one_decimal (of_decimal false 8725 (-2)) "87.3" /\
  one_decimal (of_decimal false 35 (-2)) "0.3" /\
  one_decimal (of_decimal false 124 (-1)) "12.4".
Proof.
  split; [exists 873 | split; [exists 3 | exists 124]];
    (split; [vm_compute; split; [reflexivity | discriminate] | reflexivity]).
Defined.

Lemma two_decimal_result_widths :
  Number_toString (of_decimal false 8725 (-2)) = "87.25" /\
  Number_toString (of_decimal false 35 (-2)) = "0.35" /\
  Number_toString (of_decimal false 124 (-1)) = "12.4".
Proof. repeat split; vm_compute; reflexivity. Defined.

(** C2 on the mock response, and on a response whose numbers have to be
    rounded: 87.25 is written 87.3 and 0.35 is written 0.3, while the bars
    take the widths 87.25% and 0.35%. *)
Lemma displayResults_renders_prediction_witness :
  ((result_elements diagnosis_page /\
    prediction_shape mock_result "Normal" (of_decimal false 873 (-1))
      mock_probabilities (of_decimal false 42 (-1)) (of_decimal false 85 (-1))
      (of_decimal false 873 (-1)) /\
    percentage (of_decimal false 873 (-1)) /\
    percentage (of_decimal false 42 (-1)) /\
    percentage (of_decimal false 85 (-1))) /\
   exists st',
     displayResults mock_result diagnosis_page = (Ok tt, st') /\
     text_of st' predictionText = Some "Normal" /\
     text_of st' confidenceText = Some "Confidence: 87.3%" /\
     text_of st' covidProb = Some "4.2%" /\
     text_of st' pneumoniaProb = Some "8.5%" /\
     text_of st' normalProb = Some "87.3%" /\
     width_of st' covidBar = Some "0%" /\
     width_of st' pneumoniaBar = Some "0%" /\
     width_of st' normalBar = Some "0%" /\
     width_of (run_timers st') covidBar = Some "4.2%" /\
     width_of (run_timers st') pneumoniaBar = Some "8.5%" /\
     width_of (run_timers st') normalBar = Some "87.3%" /\
     shown st' resultCard /\
     shown st' resultsSection) /\
  ((prediction_shape two_decimal_result "Normal" (of_decimal false 8725 (-2))
      two_decimal_probabilities (of_decimal false 35 (-2))
      (of_decimal false 124 (-1)) (of_decimal false 8725 (-2)) /\
    percentage (of_decimal false 8725 (-2)) /\
    percentage (of_decimal false 35 (-2)) /\
    percentage (of_decimal false 124 (-1))) /\
   exists st',
     displayResults two_decimal_result diagnosis_page = (Ok tt, st') /\
     text_of st' predictionText = Some "Normal" /\
     text_of st' confidenceText = Some "Confidence: 87.3%" /\
     text_of st' covidProb = Some "0.3%" /\
     text_of st' pneumoniaProb = Some "12.4%" /\
     text_of st' normalProb = Some "87.3%" /\
     width_of st' covidBar = Some "0%" /\
     width_of st' pneumoniaBar = Some "0%" /\
     width_of st' normalBar = Some "0%" /\
     width_of (run_timers st') covidBar = Some "0.35%" /\
     width_of (run_timers st') pneumoniaBar = Some "12.4%" /\
     width_of (run_timers st') normalBar = Some "87.25%" /\
     shown st' resultCard /\
     shown st' resultsSection).
Proof.
  destruct diagnosis_page_elements as (_ & _ & Hel & _).
  destruct mock_result_percentages as (Pa & Pb & Pc).
  destruct mock_result_one_decimal as (Oa & Ob & Oc).
  destruct mock_result_texts as (_ & _ & _ & Na & Nb & Nc).
  destruct two_decimal_result_percentages as (Qa & Qb & Qc).
  destruct two_decimal_result_one_decimal as (Ra & Rb & Rc).
  destruct two_decimal_result_widths as (Ma & Mb & Mc).
  split.
  - split.
    { split; [exact Hel|]. split; [exact mock_result_shape|].
      split; [exact Pa|]. split; [exact Pb | exact Pc]. }
    destruct (displayResults_renders_prediction mock_result "Normal"
                (of_decimal false 873 (-1)) mock_probabilities
                (of_decimal false 42 (-1)) (of_decimal false 85 (-1))
                (of_decimal false 873 (-1)) diagnosis_page
                Hel mock_result_shape Pa Pb Pc Pa)
      as (st' & tc & t1 & t2 & t3 & w1 & w2 & w3 & Hrun & Dc & D1 & D2 & D3 &
          _ & _ & _ & Tl & Tc & T1 & T2 & T3 & Z1 & Z2 & Z3 & _ & _ & _ &
          S1 & S2).
    rewrite (one_decimal_unique _ _ _ Dc Oa) in Tc.
    rewrite (one_decimal_unique _ _ _ D1 Ob) in T1.
    rewrite (one_decimal_unique _ _ _ D2 Oc) in T2.
    rewrite (one_decimal_unique _ _ _ D3 Oa) in T3.
    pose proof (displayResults_run mock_result "Normal" _ mock_probabilities
                  _ _ _ diagnosis_page Hel mock_result_shape) as Hrun'.
    rewrite Hrun in Hrun'. injection Hrun' as Hst.
    destruct (run_timers_rendered "Normal" (of_decimal false 873 (-1))
                (of_decimal false 42 (-1)) (of_decimal false 85 (-1))
                (of_decimal false 873 (-1)) diagnosis_page Hel)
      as (W1 & W2 & W3);
      [rewrite Nb; reflexivity | rewrite Nc; reflexivity
      | rewrite Na; reflexivity |].
    rewrite <- Hst, Nb in W1. rewrite <- Hst, Nc in W2. rewrite <- Hst, Na in W3.
    exists st'. repeat (split; [assumption|]). assumption.
  - split.
    { split; [exact two_decimal_result_shape|].
      split; [exact Qa|]. split; [exact Qb | exact Qc]. }
    destruct (displayResults_renders_prediction two_decimal_result "Normal"
                (of_decimal false 8725 (-2)) two_decimal_probabilities
                (of_decimal false 35 (-2)) (of_decimal false 124 (-1))
                (of_decimal false 8725 (-2)) diagnosis_page
                Hel two_decimal_result_shape Qa Qb Qc Qa)
      as (st' & tc & t1 & t2 & t3 & w1 & w2 & w3 & Hrun & Dc & D1 & D2 & D3 &
          _ & _ & _ & Tl & Tc & T1 & T2 & T3 & Z1 & Z2 & Z3 & _ & _ & _ &
          S1 & S2).
    rewrite (one_decimal_unique _ _ _ Dc Ra) in Tc.
    rewrite (one_decimal_unique _ _ _ D1 Rb) in T1.
    rewrite (one_decimal_unique _ _ _ D2 Rc) in T2.
    rewrite (one_decimal_unique _ _ _ D3 Ra) in T3.
    pose proof (displayResults_run two_decimal_result "Normal" _
                  two_decimal_probabilities _ _ _ diagnosis_page Hel
                  two_decimal_result_shape) as Hrun'.
    rewrite Hrun in Hrun'. injection Hrun' as Hst.
    destruct (run_timers_rendered "Normal" (of_decimal false 8725 (-2))
                (of_decimal false 35 (-2)) (of_decimal false 124 (-1))
                (of_decimal false 8725 (-2)) diagnosis_page Hel)
      as (W1 & W2 & W3);
      [rewrite Mb; reflexivity | rewrite Mc; reflexivity
      | rewrite Ma; reflexivity |].
    rewrite <- Hst, Mb in W1. rewrite <- Hst, Mc in W2. rewrite <- Hst, Ma in W3.
    exists st'. repeat (split; [assumption|]). assumption.
Defined.

(** C7 on the diagnosis page: an answer with status 500 leaves the storage
    empty, the mock response is cached with its timestamp, and a full storage
    stays empty while the page shows the result. *)
Lemma lastDiagnosis_written_only_on_success_witness :
  (ok {| status := 500; content := InvalidBody |} = false /\
   loading_elements diagnosis_page /\ result_elements diagnosis_page /\
   ok {| status := 200; content := JsonBody mock_result |} = true /\
   prediction_shape mock_result "Normal" (of_decimal false 873 (-1))
     mock_probabilities (of_decimal false 42 (-1)) (of_decimal false 85 (-1))
     (of_decimal false 873 (-1)) /\
   wf_value mock_result /\
   is_finite (of_decimal false 873 (-1)) = true /\
   is_finite (of_decimal false 42 (-1)) = true /\
   is_finite (of_decimal false 85 (-1)) = true) /\
  localStorage
    (predictXray (server (Responded {| status := 500; content := InvalidBody |}))
       png_2KB diagnosis_page).2 = ∅ /\
  (exists text data st',
     serialize (VObj (obj_set "timestamp" (VStr "2026-01-01T00:00:00.000Z")
                        (spread mock_result))) = Some text /\
     JSON_parse text = Ok data /\
     get data "predicted_class" = Ok (VStr "Normal") /\
     (exists c', get data "confidence" = Ok (VNum c') /\
                 Number_equal c' (of_decimal false 873 (-1)) = true) /\
     (exists probabilities' q1 q2 q3,
        get data "probabilities" = Ok probabilities' /\
        get probabilities' "Covid" = Ok (VNum q1) /\
        Number_equal q1 (of_decimal false 42 (-1)) = true /\
        get probabilities' "Pneumonia" = Ok (VNum q2) /\
        Number_equal q2 (of_decimal false 85 (-1)) = true /\
        get probabilities' "Normal" = Ok (VNum q3) /\
        Number_equal q3 (of_decimal false 873 (-1)) = true) /\
     get data "timestamp" = Ok (VStr "2026-01-01T00:00:00.000Z") /\
     predictXray (server (json_response 200 mock_result)) png_2KB diagnosis_page =
       (Ok tt, st') /\
     (localStorage st' = {["lastDiagnosis" := text]} /\ console st' = []) /\
     document st' =
       alter (with_class "hidden") loading
         (document
            (rendered "Normal" (of_decimal false 873 (-1))
               (of_decimal false 42 (-1)) (of_decimal false 85 (-1))
               (of_decimal false 873 (-1)) (loading_state diagnosis_page))) /\
     shown st' resultCard /\
     hidden st' errorMessage) /\
  (exists text data st',
     serialize (VObj (obj_set "timestamp" (VStr "2026-01-01T00:00:00.000Z")
                        (spread mock_result))) = Some text /\
     JSON_parse text = Ok data /\
     get data "predicted_class" = Ok (VStr "Normal") /\
     (exists c', get data "confidence" = Ok (VNum c') /\
                 Number_equal c' (of_decimal false 873 (-1)) = true) /\
     (exists probabilities' q1 q2 q3,
        get data "probabilities" = Ok probabilities' /\
        get probabilities' "Covid" = Ok (VNum q1) /\
        Number_equal q1 (of_decimal false 42 (-1)) = true /\
        get probabilities' "Pneumonia" = Ok (VNum q2) /\
        Number_equal q2 (of_decimal false 85 (-1)) = true /\
        get probabilities' "Normal" = Ok (VNum q3) /\
        Number_equal q3 (of_decimal false 873 (-1)) = true) /\
     get data "timestamp" = Ok (VStr "2026-01-01T00:00:00.000Z") /\
     predictXray (full_storage (json_response 200 mock_result)) png_2KB
       diagnosis_page = (Ok tt, st') /\
     (localStorage st' = ∅ /\
      console st' =
        [ConsoleError "Failed to save diagnosis:" (LError quota_error)]) /\
     document st' =
       alter (with_class "hidden") loading
         (document
            (rendered "Normal" (of_decimal false 873 (-1))
               (of_decimal false 42 (-1)) (of_decimal false 85 (-1))
               (of_decimal false 873 (-1)) (loading_state diagnosis_page))) /\
     shown st' resultCard /\
     hidden st' errorMessage).
Proof.
  split; [|split; [|split]].
  - split; [reflexivity|]. split; [apply diagnosis_page_elements|].
    split; [apply diagnosis_page_elements|]. split; [reflexivity|].
    split; [apply mock_result_shape|]. split; [apply mock_result_wf|].
    repeat split; reflexivity.
  - apply (proj1 (lastDiagnosis_written_only_on_success
                    (server (Responded {| status := 500; content := InvalidBody |}))
                    png_2KB diagnosis_page)).
    right. eexists. split; [reflexivity|]. left. reflexivity.
  - apply (proj2 (lastDiagnosis_written_only_on_success
                    (server (json_response 200 mock_result)) png_2KB
                    diagnosis_page)
             {| status := 200; content := JsonBody mock_result |} mock_result
             "Normal" (of_decimal false 873 (-1)) mock_probabilities).
    + apply diagnosis_page_elements.
    + apply diagnosis_page_elements.
    + reflexivity.
    + reflexivity.
    + reflexivity.
    + apply mock_result_shape.
    + apply mock_result_wf.
    + reflexivity.
    + reflexivity.
    + reflexivity.
    + reflexivity.
  - apply (proj2 (lastDiagnosis_written_only_on_success
                    (full_storage (json_response 200 mock_result)) png_2KB
                    diagnosis_page)
             {| status := 200; content := JsonBody mock_result |} mock_result
             "Normal" (of_decimal false 873 (-1)) mock_probabilities).
    + apply diagnosis_page_elements.
    + apply diagnosis_page_elements.
    + reflexivity.
    + reflexivity.
    + reflexivity.
    + apply mock_result_shape.
    + apply mock_result_wf.
    + reflexivity.
    + reflexivity.
    + reflexivity.
    + reflexivity.
Defined.

(** ** Further properties of the script *)

(** X2. [loadLastDiagnosis] never throws and changes nothing but the console:
    with no cached value it logs nothing, a cached value that parses is
    logged, and a cached text that does not parse, its escapes within the
    code units of the model, is reported on the console with the syntax
    error. *)
Theorem loadLastDiagnosis_never_throws (st : State) :
  exists entries,
    loadLastDiagnosis st = (Ok tt, set_console (console st ++ entries) st) /\
    match localStorage st !! "lastDiagnosis" with
    | None => entries = []
    | Some text =>
        if String.eqb text "" then entries = []
        else match JSON_parse text with
             | Ok data => entries = [ConsoleLog "Last diagnosis:" (LValue data)]
             | Throw _ =>
                 narrow_escapes text = true ->
                 exists message,
                   entries = [ConsoleError "Failed to load last diagnosis:"
                                (LError (SyntaxError message))]
             end
    end.
Proof.
  unfold loadLastDiagnosis, try_catch, bind, localStorage_getItem, lift,
    console_log, console_error, ret.
  assert (Hnil : set_console (console st ++ []) st = st).
  { rewrite app_nil_r. now destruct st. }
  destruct (localStorage st !! "lastDiagnosis") as [text|].
  - destruct (String.eqb text "") eqn:He; cbn [negb].
    + exists []. now rewrite Hnil.
    + assert (Hsyntax : forall e, JSON_parse text = Throw e ->
                                  exists message, e = SyntaxError message).
      { unfold JSON_parse. intros e.
        destruct (parse_value _ text) as [[v rest]|]; [destruct (skip_ws rest)|];
          intros [= <-]; eauto. }
      destruct (JSON_parse text) as [data|e]; [eexists; split; reflexivity|].
      destruct (Hsyntax e eq_refl) as [message ->].
      eexists. split; [reflexivity|]. intros _. now exists message.
  - exists []. now rewrite Hnil.
Qed.

(** X2 on the diagnosis page: an empty storage logs nothing, the cached text
    [[87.3,true]] is logged as the array it denotes, and the cached text
    [{oops] is reported with a syntax error. *)
Lemma loadLastDiagnosis_never_throws_witness :
  loadLastDiagnosis diagnosis_page = (Ok tt, diagnosis_page) /\
  loadLastDiagnosis
    (set_localStorage {["lastDiagnosis" := "[87.3,true]"]} diagnosis_page) =
  (Ok tt,
   set_console
     [ConsoleLog "Last diagnosis:"
        (LValue (VArr [VNum (of_decimal false 873 (-1)); VBool true]))]
     (set_localStorage {["lastDiagnosis" := "[87.3,true]"]} diagnosis_page)) /\
  exists message,
    loadLastDiagnosis
      (set_localStorage {["lastDiagnosis" := "{oops"]} diagnosis_page) =
    (Ok tt,
     set_console
       [ConsoleError "Failed to load last diagnosis:"
          (LError (SyntaxError message))]
       (set_localStorage {["lastDiagnosis" := "{oops"]} diagnosis_page)).
Proof.
  split; [|split].
  - destruct (loadLastDiagnosis_never_throws diagnosis_page)
      as (entries & Hrun & Hentries).
    vm_compute in Hentries. rewrite Hentries in Hrun. exact Hrun.
  - destruct (loadLastDiagnosis_never_throws
                (set_localStorage {["lastDiagnosis" := "[87.3,true]"]}
                   diagnosis_page))
      as (entries & Hrun & Hentries).
    vm_compute in Hentries. rewrite Hentries in Hrun.
    rewrite Hrun. vm_compute. reflexivity.
  - destruct (loadLastDiagnosis_never_throws
                (set_localStorage {["lastDiagnosis" := "{oops"]} diagnosis_page))
      as (entries & Hrun & Hentries).
    vm_compute in Hentries. destruct (Hentries eq_refl) as [message ->].
    exists message. exact Hrun.
Defined.

(** X3. [predictXray] never rejects: on a page that has the loading indicator,
    the results section, the result card and the error message with its text,
    the promise it returns is fulfilled, whatever the server answers. *)
Theorem predictXray_never_rejects (w : World) (file : File) (st : State) :
  loading_elements st ->
  present st errorText ->
  exists st', predictXray w file st = (Ok tt, st').
Proof.
  intros Hl Ht.
  destruct (predictXray_try w file (showLoading st).2) as [[[]|e] st2] eqn:Htry.
  - pose proof (predictXray_try_elements w file (showLoading st).2) as Hsame.
    rewrite Htry in Hsame. cbn [snd] in Hsame.
    rewrite showLoading_run in Hsame, Htry by assumption. cbn [snd] in Hsame, Htry.
    assert (Hp : present st2 loading) by (apply Hsame; solve_elements).
    unfold predictXray, bind at 1. rewrite showLoading_run by assumption.
    unfold try_finally, try_catch. rewrite Htry.
    rewrite hideLoading_run by assumption. eauto.
  - destruct (predictXray_caught w file st st2 e Hl Ht Htry) as (st' & Hrun & _).
    eauto.
Qed.

Lemma predictXray_never_rejects_witness :
  (loading_elements diagnosis_page /\ present diagnosis_page errorText) /\
  exists st',
    predictXray (server (json_response 200 truncated_result)) png_2KB
      diagnosis_page = (Ok tt, st').
Proof.
  split; [split; apply diagnosis_page_elements|].
  apply predictXray_never_rejects; apply diagnosis_page_elements.
Defined.

Lemma JSON_parse_stringify_witness :
  wf_value mock_result /\
  exists text, JSON_stringify mock_result = VStr text /\ JSON_parse text = Ok mock_result.
Proof.
  split; [apply mock_result_wf|].
  destruct (JSON_parse_stringify mock_result mock_result_wf) as (text & Hs & Hp).
  exists text. split; [exact Hs|]. rewrite Hp. vm_compute. reflexivity.
Defined.

(** ** The rest of the script *)

(** *** Requests, causes and the badge *)

Lemma same_requests_refl st : same_requests st st.
Proof. reflexivity. Qed.

Lemma same_requests_trans a b c :
  same_requests a b -> same_requests b c -> same_requests a c.
Proof. unfold same_requests. congruence. Qed.

Lemma keeps_requests {A} (m : M A) :
  (forall st, requests (m st).2 = requests st) -> stable same_requests m.
Proof. intros H st. apply H. Qed.

Lemma update_element_requests n f : stable same_requests (update_element n f).
Proof.
  apply keeps_requests. intros st. unfold update_element.
  now destruct (document st !! n).
Qed.

Lemma assign_textContent_requests n v : stable same_requests (assign_textContent n v).
Proof.
  intros st. unfold assign_textContent.
  destruct (document st !! n); [|reflexivity].
  apply stable_bind;
    [ apply same_requests_trans | apply stable_lift, same_requests_refl
    | intros; apply update_element_requests ].
Qed.

Lemma await_fetch_requests o : stable same_requests (await_fetch o).
Proof. destruct o; now apply keeps_requests. Qed.

Lemma response_json_requests r : stable same_requests (response_json r).
Proof. unfold response_json. destruct (content r); now apply keeps_requests. Qed.

Lemma setTimeout_requests t : stable same_requests (setTimeout t).
Proof. now apply keeps_requests. Qed.

Lemma console_error_requests l a : stable same_requests (console_error l a).
Proof. now apply keeps_requests. Qed.

Lemma localStorage_setItem_requests w k v :
  stable same_requests (localStorage_setItem w k v).
Proof.
  apply keeps_requests. intros st. unfold localStorage_setItem.
  now destruct (quota_exceeded w (localStorage st) k v).
Qed.

#[local] Hint Resolve same_requests_refl same_requests_trans
  update_element_requests assign_textContent_requests await_fetch_requests
  response_json_requests setTimeout_requests console_error_requests
  localStorage_setItem_requests : stable.

Lemma predictXray_resume_requests w file :
  stable same_requests (predictXray_resume w file).
Proof.
  unfold predictXray_resume, displayResults, saveLastDiagnosis, predictXray_catch,
    showError, hideLoading, animateProgressBar, set_textContent, set_style_width,
    classList_add, classList_remove.
  stable_steps.
Qed.

(** X4. [predictXray] sends one request, whatever comes of it: a POST of the
    file to /predict; nothing is sent again after a failure. *)
Theorem predictXray_sends_one_request (w : World) (file : File) (st : State) :
  loading_elements st ->
  requests (predictXray w file st).2 = requests st ++ [predict_request file].
Proof.
  intros Hl. rewrite predictXray_sync_resume. unfold bind at 1.
  unfold predictXray_sync, bind at 1, fetch_send.
  rewrite showLoading_run by assumption.
  match goal with
  | |- requests (predictXray_resume w file ?s).2 = _ =>
      rewrite (predictXray_resume_requests w file s)
  end.
  reflexivity.
Qed.

Lemma predictXray_try_cause (w : World) (file : File) (st : State) (cause : error) :
  failure_cause (fetch_result w (predict_request file)) = Some cause ->
  predictXray_try w file st =
  (Throw cause, set_requests (requests st ++ [predict_request file]) st).
Proof.
  unfold failure_cause, predictXray_try, fetch, fetch_send, bind at 1 2.
  destruct (fetch_result w (predict_request file)) as [e | r].
  - intros H. injection H as <-. reflexivity.
  - cbn [await_fetch ret]. unfold bind at 1.
    destruct (negb (ok r)); cbn [throw ret].
    { intros H. injection H as <-. reflexivity. }
    unfold bind at 1, response_json.
    destruct (content r); [discriminate|].
    intros H. injection H as <-. reflexivity.
Qed.

(** X5. A prediction that fails before there is a body to render tells the
    user the generic message only, and the console the cause: the rejection of
    [fetch], the status of the response, or the failure to read the body as
    JSON. *)
Theorem predictXray_logs_cause (w : World) (file : File) (st : State)
    (cause : error) :
  loading_elements st ->
  present st errorText ->
  failure_cause (fetch_result w (predict_request file)) = Some cause ->
  exists st',
    predictXray w file st = (Ok tt, st') /\
    console st' = console st ++ [ConsoleError "Prediction error:" (LError cause)] /\
    text_of st' errorText = Some failure_message /\
    shown st' errorMessage /\
    hidden st' resultsSection /\
    hidden st' loading /\
    localStorage st' = localStorage st.
Proof.
  intros Hl Ht Hcause.
  pose proof (predictXray_try_cause w file (showLoading st).2 cause Hcause) as Htry.
  destruct (predictXray_caught w file st _ cause Hl Ht Htry)
    as (st' & Hrun & H1 & H2 & H3 & _ & H5 & H6 & _ & H8).
  exists st'. rewrite showLoading_run in H6, H8 by assumption.
  repeat split; assumption.
Qed.

(** X6. What the badge says is decided by the answer to the probe alone: it
    reads that the model is loaded exactly when the server answered in
    200..299 with a JSON body whose [model_loaded] is truthy, that there is no
    model when that property is falsy or missing, and Offline in every other
    case, a body [null] included.  The colour class is added to those the
    badge has. *)
Theorem checkServerStatus_decides (w : World) (st : State) (el : Element) :
  document st !! serverStatusBadge = Some el ->
  let answer := probe_answer (fetch_result w status_request) in
  checkServerStatus w st =
    (Ok tt,
     set_document
       (<[serverStatusBadge :=
            with_class (badge_colour answer) (with_text (badge_text answer) el)]>
          (document st))
       (set_requests (requests st ++ [status_request]) st)).
Proof.
  intros Hel answer. subst answer. unfold probe_answer.
  unfold checkServerStatus, try_catch, fetch, fetch_send, bind at 1 2.
  destruct (fetch_result w status_request) as [e | r].
  { cbn [await_fetch throw]. now rewrite (badge_run _ _ _ el). }
  cbn [await_fetch ret]. unfold bind at 1.
  destruct (ok r); cbn [negb throw ret].
  2:{ now rewrite (badge_run _ _ _ el). }
  unfold bind at 1, response_json.
  destruct (content r) as [json|]; cbn [throw ret].
  2:{ now rewrite (badge_run _ _ _ el). }
  unfold bind at 1, lift.
  destruct (get json "model_loaded") as [model_loaded | e].
  2:{ now rewrite (badge_run _ _ _ el). }
  destruct (ToBoolean model_loaded); now rewrite (badge_run _ _ _ el).
Qed.

(** The state at a throw of [displayResults] is given: nothing but texts was
    written. *)
Ltac thrown_before_bars :=
  let H := fresh in
  intros H; injection H as _ <-;
  split; [reflexivity|];
  unfold untouched, bar_elements; handles;
  repeat constructor; lookup_dom; reflexivity.

(** X7. [displayResults] converts the confidence and the three probabilities
    before it touches a bar: when it throws on a page that has its elements,
    no bar was moved, no animation is pending, and the result card and the
    results section are as they were. *)
Theorem displayResults_throws_before_bars (result : value) (st st' : State)
    (e : error) :
  result_elements st ->
  displayResults result st = (Throw e, st') ->
  timers st' = timers st /\ untouched bar_elements st st'.
Proof.
  intros (E1 & E2 & E3 & E4 & E5 & E6 & E7 & E8 & E9 & E10).
  unfold displayResults, animateProgressBar, assign_textContent, set_textContent,
    set_style_width, classList_remove, setTimeout, lift, bind.
  handles.
  destruct (get result "predicted_class") as [label|]; [|thrown_before_bars].
  destruct E1 as [el1 E1]. rewrite E1.
  assert (E1' : present st "prediction-text") by (now exists el1).
  destruct (to_DOMString label) as [text|]; [|thrown_before_bars].
  run_update.
  destruct (get result "confidence") as [confidence|]; [|thrown_before_bars].
  destruct (call_toFixed1 confidence) as [c|]; [|thrown_before_bars].
  run_update.
  destruct (get result "probabilities") as [probabilities|]; [|thrown_before_bars].
  destruct (get probabilities "Covid") as [Covid|]; [|thrown_before_bars].
  destruct (call_toFixed1 Covid) as [p1|]; [|thrown_before_bars].
  run_update.
  destruct (get probabilities "Pneumonia") as [Pneumonia|]; [|thrown_before_bars].
  destruct (call_toFixed1 Pneumonia) as [p2|]; [|thrown_before_bars].
  run_update.
  destruct (get probabilities "Normal") as [Normal|]; [|thrown_before_bars].
  destruct (call_toFixed1 Normal) as [p3|]; [|thrown_before_bars].
  repeat run_update. discriminate.
Qed.

(** The rest of [predictXray] on a response that carries a prediction. *)
Lemma predictXray_resume_success (w : World) (file : File) (st : State)
    (r : response) (result : value) (label : string) (c : number)
    (probabilities : value) (p1 p2 p3 : number) (text : string) :
  present st loading ->
  result_elements st ->
  fetch_result w (predict_request file) = Responded r ->
  ok r = true ->
  content r = JsonBody result ->
  prediction_shape result label c probabilities p1 p2 p3 ->
  serialize (VObj (obj_set "timestamp" (VStr (now_iso w)) (spread result))) =
    Some text ->
  predictXray_resume w file st = (Ok tt, answered w text label c p1 p2 p3 st).
Proof.
  intros Hl Hr Hf Hok Hbody Hshape Htext. unfold answered.
  set (st3 := cached w text (rendered label c p1 p2 p3 st)).
  unfold predictXray_resume, try_finally, try_catch, bind at 1.
  rewrite Hf. cbn [await_fetch ret]. unfold bind at 1. rewrite Hok.
  cbn [negb ret]. unfold bind at 1, response_json. rewrite Hbody. cbn [ret].
  unfold bind at 1.
  rewrite (displayResults_run result label c probabilities p1 p2 p3)
    by assumption.
  rewrite (saveLastDiagnosis_run w result text) by assumption.
  fold (cached w text (rendered label c p1 p2 p3 st)). fold st3.
  rewrite hideLoading_run; [reflexivity|].
  subst st3. unfold cached.
  match goal with |- context [if ?b then _ else _] => destruct b end;
    unfold rendered; solve_elements.
Qed.

Lemma rendered_elements label c p1 p2 p3 st :
  same_elements st (rendered label c p1 p2 p3 st).
Proof.
  intros n. unfold rendered, present. reduce_state.
  rewrite !lookup_alter_is_Some. reflexivity.
Qed.

Lemma answered_elements (w : World) (text : string) label c p1 p2 p3 st :
  same_elements st (answered w text label c p1 p2 p3 st).
Proof.
  intros n. unfold answered, present. reduce_state.
  rewrite lookup_alter_is_Some, cached_document.
  apply rendered_elements.
Qed.

Lemma answered_loading (w : World) text label c p1 p2 p3 st :
  present st loading -> hidden (answered w text label c p1 p2 p3 st) loading.
Proof.
  intros [el Hel]. unfold hidden, answered. reduce_state.
  rewrite cached_document. unfold rendered. handles. lookup_dom. rewrite Hel.
  eexists. split; [reflexivity|]. apply with_class_in.
Qed.

Lemma answered_texts (w : World) text label c p1 p2 p3 st :
  present st predictionText -> present st confidenceText ->
  text_of (answered w text label c p1 p2 p3 st) predictionText = Some label /\
  text_of (answered w text label c p1 p2 p3 st) confidenceText =
    Some ("Confidence: " +:+ toFixed1 c +:+ "%").
Proof.
  intros [el Hel] [el' Hel']. unfold text_of, answered. reduce_state.
  rewrite cached_document. unfold rendered. handles. lookup_dom.
  rewrite Hel, Hel'. split; reflexivity.
Qed.

Lemma answered_card (w : World) text label c p1 p2 p3 st :
  present st resultCard -> shown (answered w text label c p1 p2 p3 st) resultCard.
Proof.
  intros [el Hel]. unfold shown, answered. reduce_state.
  rewrite cached_document. unfold rendered. handles. lookup_dom. rewrite Hel.
  eexists. split; [reflexivity|]. apply without_class_out.
Qed.

Lemma answered_storage (w : World) text label c p1 p2 p3 st :
  quota_exceeded w (localStorage st) "lastDiagnosis" text = false ->
  localStorage (answered w text label c p1 p2 p3 st) =
  <["lastDiagnosis" := text]> (localStorage st).
Proof.
  intros Hq. unfold answered, cached. reduce_state.
  change (localStorage (rendered label c p1 p2 p3 st)) with (localStorage st).
  rewrite Hq. reflexivity.
Qed.

(** X8. Two uploads in flight are not kept apart: both requests are sent; when
    the response to the second is handled first, the loading indicator goes
    away although the first request is pending; and when the response to the
    first arrives, its prediction replaces the one of the second on the page
    and in the cache.  The page ends with the result of the response handled
    last, not of the file uploaded last. *)
Theorem reentrant_uploads_last_response_wins (w : World) (f1 f2 : File)
    (st : State) (r1 r2 : response) (result1 result2 : value)
    (label1 label2 : string) (c1 c2 : number) (probs1 probs2 : value)
    (a1 a2 a3 b1 b2 b3 : number) :
  loading_elements st ->
  result_elements st ->
  fetch_result w (predict_request f1) = Responded r1 ->
  ok r1 = true ->
  content r1 = JsonBody result1 ->
  prediction_shape result1 label1 c1 probs1 a1 a2 a3 ->
  fetch_result w (predict_request f2) = Responded r2 ->
  ok r2 = true ->
  content r2 = JsonBody result2 ->
  prediction_shape result2 label2 c2 probs2 b1 b2 b3 ->
  (forall s text, quota_exceeded w s "lastDiagnosis" text = false) ->
  let uploaded := ((predictXray_sync f1 ;; predictXray_sync f2) st).2 in
  let second_done := (predictXray_resume w f2 uploaded).2 in
  let both_done := (predictXray_resume w f1 second_done).2 in
  requests uploaded = (requests st ++ [predict_request f1]) ++ [predict_request f2] /\
  shown uploaded loading /\
  hidden second_done loading /\
  text_of second_done predictionText = Some label2 /\
  text_of both_done predictionText = Some label1 /\
  text_of both_done confidenceText =
    Some ("Confidence: " +:+ toFixed1 c1 +:+ "%") /\
  shown both_done resultCard /\
  exists text1,
    serialize (VObj (obj_set "timestamp" (VStr (now_iso w)) (spread result1))) =
      Some text1 /\
    localStorage both_done !! "lastDiagnosis" = Some text1.
Proof.
  intros Hl Hr Hf1 Hok1 Hb1 Hs1 Hf2 Hok2 Hb2 Hs2 Hquota
    uploaded second_done both_done.
  destruct (serialize_object (obj_set "timestamp" (VStr (now_iso w)) (spread result1)))
    as [text1 Ht1].
  destruct (serialize_object (obj_set "timestamp" (VStr (now_iso w)) (spread result2)))
    as [text2 Ht2].
  assert (Hup : uploaded =
    set_requests ((requests st ++ [predict_request f1]) ++ [predict_request f2])
      (loading_state (loading_state st))).
  { subst uploaded. unfold predictXray_sync, fetch_send, bind.
    rewrite showLoading_run by assumption. fold (loading_state st).
    rewrite showLoading_run by (unfold loading_state; solve_elements).
    reflexivity. }
  assert (Hlu : loading_elements uploaded /\ result_elements uploaded).
  { rewrite Hup. unfold loading_state. split; solve_elements. }
  destruct Hlu as [Hlu Hru].
  assert (H2 : second_done = answered w text2 label2 c2 b1 b2 b3 uploaded).
  { subst second_done.
    rewrite (predictXray_resume_success w f2 uploaded r2 result2 label2 c2 probs2
               b1 b2 b3 text2) by (try assumption; apply Hlu).
    reflexivity. }
  assert (Hsame2 : same_elements uploaded second_done).
  { rewrite H2. apply answered_elements. }
  assert (Hl2 : present second_done loading /\ result_elements second_done).
  { unfold result_elements, loading_elements in *.
    repeat split; apply Hsame2; tauto. }
  destruct Hl2 as [Hl2 Hr2].
  assert (H1 : both_done = answered w text1 label1 c1 a1 a2 a3 second_done).
  { subst both_done.
    rewrite (predictXray_resume_success w f1 second_done r1 result1 label1 c1
               probs1 a1 a2 a3 text1) by assumption.
    reflexivity. }
  clearbody uploaded second_done both_done.
  split; [rewrite Hup; reflexivity|].
  split.
  { rewrite Hup. destruct Hl as ([el Hel] & _).
    unfold shown, loading_state. handles. lookup_dom. rewrite Hel.
    eexists. split; [reflexivity|]. apply without_class_out. }
  split; [rewrite H2; apply answered_loading, Hlu|].
  split; [rewrite H2; apply answered_texts; apply Hru|].
  split; [rewrite H1; apply answered_texts; apply Hr2|].
  split; [rewrite H1; apply answered_texts; apply Hr2|].
  split; [rewrite H1; apply answered_card; apply Hr2|].
  exists text1. split; [assumption|].
  rewrite H1, answered_storage by apply Hquota. apply lookup_insert_eq.
Qed.

(** X9. The cache gives back every field of a result, not only those the page
    shows: what [loadLastDiagnosis] parses has, under each key of the result
    but [timestamp], the value of the result, with [null] for a number that is
    not finite and zero without its sign; under [timestamp] it has the time of
    the save, also when the result had a timestamp of its own. *)
Theorem lastDiagnosis_keeps_every_field (w : World)
    (props : list (string * value)) (st : State) :
  wf_value (VObj props) ->
  (forall text, quota_exceeded w (localStorage st) "lastDiagnosis" text = false) ->
  exists text data st',
    (saveLastDiagnosis w (VObj props) ;; loadLastDiagnosis) st = (Ok tt, st') /\
    localStorage st' = <["lastDiagnosis" := text]> (localStorage st) /\
    JSON_parse text = Ok data /\
    console st' = console st ++ [ConsoleLog "Last diagnosis:" (LValue data)] /\
    get data "timestamp" = Ok (VStr (now_iso w)) /\
    forall k v,
      k <> "timestamp" ->
      get (VObj props) k = Ok v ->
      get data k = Ok (normalize v).
Proof.
  intros Hwf Hquota.
  apply wf_value_obj in Hwf as [Hord Hwf].
  destruct (obj_set_plain "timestamp" (VStr (now_iso w)) props eq_refl)
    as (Lt & Lother & Kord & Kwf).
  pose proof (spread_object props Hord) as Hspread.
  set (obj := obj_set "timestamp" (VStr (now_iso w)) props) in *.
  assert (Wobj : wf_value (VObj obj)).
  { apply wf_value_obj. split; [now apply Kord | apply Kwf; [exact I | assumption]]. }
  destruct (wf_serialize (VObj obj) Wobj) as [text Hser].
  pose proof (JSON_parse_serialize (VObj obj) text Wobj Hser) as Hp.
  assert (Hne : text <> "").
  { rewrite serialize_obj in Hser by (apply Kwf; [exact I | assumption]).
    injection Hser as <-. discriminate. }
  exists text, (normalize (VObj obj)).
  eexists. split.
  { unfold bind. rewrite (saveLastDiagnosis_run w (VObj props) text st)
      by (now rewrite Hspread).
    rewrite Hquota.
    apply (loadLastDiagnosis_run text (normalize (VObj obj))); [|assumption..].
    cbn. apply lookup_insert_eq. }
  split; [reflexivity|]. split; [assumption|]. split; [reflexivity|].
  split; [exact (get_normalized _ _ _ Lt)|].
  intros k v Hk Hget. cbn [get] in Hget. injection Hget as <-.
  cbn [normalize get]. rewrite lookup_prop_normalize. unfold obj.
  rewrite Lother by congruence.
  now destruct (lookup_prop k props).
Qed.

(** *** Listeners and events *)

Ltac reduce_page :=
  cbn [state listeners forms toasts created toast_timers defaultPrevented
       propagationStopped set_state set_listeners set_forms set_toasts
       set_created set_toast_timers set_flags fst snd].

(** Only the listeners of the event take part in its dispatch. *)
Lemma dispatch_listeners (w : World) (e : Event) (ls : list (string * string * callback))
    (pg : Page) :
  fold_left (run_listener w e) ls pg =
  fold_left (run_listener w e) (List.filter (listens e) ls) pg.
Proof.
  revert pg. induction ls as [|l ls IH]; intros pg; [reflexivity|].
  cbn [fold_left List.filter]. destruct (listens e l) eqn:Hl.
  - cbn [fold_left]. apply IH.
  - unfold run_listener at 2. rewrite Hl. apply IH.
Qed.

Lemma addEventListener_run (n type : string) (cb : callback) (pg : Page) :
  present (state pg) n ->
  addEventListener n type cb pg =
  (Ok tt, set_listeners (register (n, type, cb) (listeners pg)) pg).
Proof.
  intros [el Hel]. unfold addEventListener. now rewrite Hel.
Qed.

Lemma setupDragAndDrop_run (pg : Page) :
  listeners pg = [] ->
  present (state pg) dropZone ->
  setupDragAndDrop pg = (Ok tt, set_listeners drag_listeners pg).
Proof.
  intros Hls Hdz. unfold setupDragAndDrop, forEach, page_bind, page_ret.
  repeat (rewrite addEventListener_run by (reduce_page; assumption);
          reduce_page).
  rewrite Hls. reflexivity.
Qed.

Lemma loadLastDiagnosis_console (st : State) :
  exists entries,
    loadLastDiagnosis st = (Ok tt, set_console (console st ++ entries) st).
Proof.
  unfold loadLastDiagnosis, try_catch, bind, localStorage_getItem, lift,
    console_log, console_error, ret.
  assert (Hnil : set_console (console st ++ []) st = st).
  { rewrite app_nil_r. now destruct st. }
  destruct (localStorage st !! "lastDiagnosis") as [text|].
  - destruct (String.eqb text ""); cbn [negb].
    + exists []. now rewrite Hnil.
    + destruct (JSON_parse text) as [data|e]; eexists; reflexivity.
  - exists []. now rewrite Hnil.
Qed.

Lemma checkServerStatus_returns (w : World) (st : State) :
  present st serverStatusBadge ->
  exists st',
    checkServerStatus w st = (Ok tt, st') /\
    requests st' = requests st ++ [status_request] /\
    console st' = console st /\
    localStorage st' = localStorage st /\
    uncaught st' = uncaught st.
Proof.
  intros [el Hel].
  assert (Hbadge : forall text colour,
    (set_textContent serverStatusBadge text ;;
     classList_add serverStatusBadge colour)
      (set_requests (requests st ++ [status_request]) st) =
    (Ok tt,
     set_document
       (<[serverStatusBadge := with_class colour (with_text text el)]> (document st))
       (set_requests (requests st ++ [status_request]) st))).
  { intros text colour. now rewrite (badge_run _ _ _ el). }
  unfold checkServerStatus, try_catch, fetch, fetch_send, bind at 1 2.
  destruct (fetch_result w status_request) as [e | r].
  { cbn [await_fetch throw]. rewrite Hbadge. eauto 10. }
  cbn [await_fetch ret]. unfold bind at 1.
  destruct (ok r); cbn [negb throw ret].
  2:{ rewrite Hbadge. eauto 10. }
  unfold bind at 1, response_json.
  destruct (content r) as [json|]; cbn [throw ret].
  2:{ rewrite Hbadge. eauto 10. }
  unfold bind at 1, lift.
  destruct (get json "model_loaded") as [model_loaded | e].
  2:{ rewrite Hbadge. eauto 10. }
  destruct (ToBoolean model_loaded); rewrite Hbadge; eauto 10.
Qed.

(** X10. On a page that has the drop zone, the file input and the status
    badge, [init] ends normally: it registers the nine listeners of the drop
    zone, the listener of the file input and, if the page has a contact form,
    its listener; then it reads the cache and sends the status probe, one
    request.  Nothing is left as an unhandled rejection. *)
Theorem init_wires_page (w : World) (pg : Page) :
  listeners pg = [] ->
  present (state pg) dropZone ->
  present (state pg) fileInput ->
  present (state pg) serverStatusBadge ->
  exists pg',
    init w pg = (Ok tt, pg') /\
    listeners pg' =
      upload_listeners ++
      match document (state pg) !! contactForm with
      | Some _ => contact_listeners
      | None => []
      end /\
    state pg' = (checkServerStatus w (loadLastDiagnosis (state pg)).2).2 /\
    requests (state pg') = requests (state pg) ++ [status_request] /\
    localStorage (state pg') = localStorage (state pg) /\
    uncaught (state pg') = uncaught (state pg) /\
    forms pg' = forms pg /\ toasts pg' = toasts pg.
Proof.
  intros Hls Hdz Hfi Hbadge.
  destruct (loadLastDiagnosis_console (state pg)) as [entries Hload].
  destruct (checkServerStatus_returns w
              (set_console (console (state pg) ++ entries) (state pg)))
    as (st' & Hprobe & Hreq & _ & Hsto & Hunc); [exact Hbadge|].
  unfold init, page_bind at 1. rewrite setupDragAndDrop_run by assumption.
  unfold page_bind at 1, setupFileInput.
  rewrite addEventListener_run by (reduce_page; assumption).
  reduce_page. unfold page_bind at 1, setupContactForm. reduce_page.
  destruct (document (state pg) !! contactForm) as [form|] eqn:Hform.
  - rewrite addEventListener_run by (reduce_page; now exists form).
    reduce_page. unfold page_bind, on_state. reduce_page.
    rewrite Hload. reduce_page. unfold async. rewrite Hprobe.
    eexists. split; [reflexivity|]. reduce_page.
    repeat split; first [reflexivity | assumption].
  - unfold page_bind, on_state. reduce_page.
    rewrite Hload. reduce_page. unfold async. rewrite Hprobe.
    eexists. split; [reflexivity|]. reduce_page.
    repeat split; first [reflexivity | assumption].
Qed.

(** X11. [init] needs the upload elements: on a page without the drop zone it
    throws at the first registration and leaves the page as it was; on a page
    with the drop zone and without the file input it throws after the
    listeners of the drop zone.  Either way the contact form gets no
    listener, the cache is not read and no status probe is sent. *)
Theorem init_needs_upload_elements (w : World) (pg : Page) :
  listeners pg = [] ->
  (document (state pg) !! dropZone = None ->
   exists msg, init w pg = (Throw (TypeError msg), pg)) /\
  (present (state pg) dropZone ->
   document (state pg) !! fileInput = None ->
   exists msg,
     init w pg = (Throw (TypeError msg), set_listeners drag_listeners pg)).
Proof.
  intros Hls. split.
  - intros Hdz. unfold init, setupDragAndDrop, forEach, page_bind at 1 2 3 4.
    unfold addEventListener at 1. rewrite Hdz. eauto.
  - intros Hdz Hfi. unfold init, page_bind at 1.
    rewrite setupDragAndDrop_run by assumption.
    unfold page_bind at 1, setupFileInput, addEventListener. reduce_page.
    rewrite Hfi. eauto.
Qed.

Lemma dispatchEvent_listeners (w : World) (e : Event) (pg : Page) :
  dispatchEvent w e pg =
  fold_left (run_listener w e) (List.filter (listens e) (listeners pg))
    (set_flags false false pg).
Proof. unfold dispatchEvent. apply dispatch_listeners. Qed.

(** Computes the listeners of a given event among given ones. *)
Ltac select_listeners :=
  match goal with
  | |- context [List.filter ?f ?l] =>
      let r := eval vm_compute in (List.filter f l) in
      change (List.filter f l) with r
  end.

Ltac decide_listens :=
  repeat match goal with
         | |- context [listens ?e ?l] =>
             let r := eval cbv in (listens e l) in
             change (listens e l) with r
         end;
  cbv beta iota.

Lemma preventDefaults_run (e : Event) (pg : Page) :
  preventDefaults e pg =
  (Ok tt, set_flags (cancelable e || defaultPrevented pg) true pg).
Proof.
  unfold preventDefaults, page_bind, preventDefault, stopPropagation.
  destruct (cancelable e); reflexivity.
Qed.

(** X12. While a file is dragged over the drop zone, the zone is highlighted
    exactly as the last drag event says: [dragenter] and [dragover] leave it
    with the class [dragover], [dragleave] without; each event is stopped
    from propagating and, where it can be cancelled, its default action is
    prevented.  Nothing else on the page changes. *)
Theorem drag_events_highlight (w : World) (e : Event) (pg : Page) :
  List.filter (listens e) (listeners pg) = List.filter (listens e) upload_listeners ->
  present (state pg) dropZone ->
  target e = dropZone ->
  event_type e = "dragenter" \/ event_type e = "dragover" \/
  event_type e = "dragleave" ->
  dispatchEvent w e pg =
  set_flags (cancelable e) true
    (set_state
       (set_document
          (alter (if String.eqb (event_type e) "dragleave"
                  then without_class "dragover" else with_class "dragover")
             dropZone (document (state pg)))
          (state pg))
       pg).
Proof.
  intros Hls Hdz Htarget Htype.
  rewrite dispatchEvent_listeners, Hls.
  destruct e as [type tg can fs]. cbn [target event_type cancelable] in *.
  subst tg.
  destruct Htype as [-> | [-> | ->]]; select_listeners; cbn [fold_left];
    unfold run_listener; decide_listens; cbn [call fst snd];
    rewrite preventDefaults_run; reduce_page;
    unfold highlight, unhighlight, on_state, classList_add, classList_remove;
    reduce_page;
    rewrite update_element_run by assumption;
    rewrite orb_false_r; reflexivity.
Qed.

(** X13. A drop on the drop zone hands the dropped files to [handleFiles]:
    the event is kept from the browser (default prevented where it can be,
    propagation stopped), the highlight is taken off, and then the page is
    what [handleFiles] makes of the files; an exception of [handleFiles] is
    reported and not thrown at the dispatch. *)
Theorem drop_runs_handleFiles (w : World) (e : Event) (pg : Page) :
  List.filter (listens e) (listeners pg) = List.filter (listens e) upload_listeners ->
  present (state pg) dropZone ->
  target e = dropZone ->
  event_type e = "drop" ->
  dispatchEvent w e pg =
  set_flags (cancelable e) true
    (set_state
       (reported
          (handleFiles w (files e)
             (set_document
                (alter (without_class "dragover") dropZone (document (state pg)))
                (state pg))))
       pg).
Proof.
  intros Hls Hdz Htarget Htype.
  rewrite dispatchEvent_listeners, Hls.
  destruct e as [type tg can fs]. cbn [target event_type cancelable files] in *.
  subst tg type. select_listeners. cbn [fold_left].
  unfold run_listener. decide_listens. cbn [call fst snd].
  rewrite preventDefaults_run. reduce_page.
  unfold unhighlight, on_state, classList_remove. reduce_page.
  rewrite update_element_run by assumption. reduce_page.
  unfold handleDrop, on_state. reduce_page. cbn [files].
  rewrite orb_false_r.
  match goal with
  | |- context [handleFiles w fs ?s] => destruct (handleFiles w fs s) as [[[]|err] s']
  end; reflexivity.
Qed.

(** X14. A change of the file input hands the chosen files to [handleFiles]
    and does nothing else: the page is what [handleFiles] makes of the files,
    and the default action of the event is not prevented. *)
Theorem change_runs_handleFiles (w : World) (e : Event) (pg : Page) :
  List.filter (listens e) (listeners pg) = List.filter (listens e) upload_listeners ->
  target e = fileInput ->
  event_type e = "change" ->
  dispatchEvent w e pg =
  set_flags false false
    (set_state (reported (handleFiles w (files e) (state pg))) pg).
Proof.
  intros Hls Htarget Htype.
  rewrite dispatchEvent_listeners, Hls.
  destruct e as [type tg can fs]. cbn [target event_type cancelable files] in *.
  subst tg type. select_listeners. cbn [fold_left].
  unfold run_listener. decide_listens. cbn [call fst snd].
  unfold handleFileSelect, on_state. reduce_page. cbn [files].
  destruct (handleFiles w fs (state pg)) as [[[]|err] s']; reflexivity.
Qed.

(** *** The contact form *)





(** *** Toasts *)

Lemma remove_toasts (ids : list nat) (pg : Page) :
  toasts (fold_left remove_toast ids pg) =
  List.filter (fun t => negb (existsb (Nat.eqb (fst t)) ids)) (toasts pg).
Proof.
  revert pg. induction ids as [|n ids IH]; intros pg.
  - cbn [fold_left existsb negb]. induction (toasts pg) as [|t l IHl];
      [reflexivity|]. cbn [List.filter]. now rewrite <- IHl.
  - cbn [fold_left]. rewrite IH. unfold remove_toast. reduce_page.
    induction (toasts pg) as [|t l IHl]; [reflexivity|].
    cbn [List.filter existsb].
    destruct (Nat.eqb (fst t) n); cbn [negb orb List.filter];
      [exact IHl|].
    destruct (existsb (Nat.eqb (fst t)) ids); cbn [negb]; [exact IHl|].
    now rewrite IHl.
Qed.

Lemma run_toast_timers_empties (pg : Page) :
  timed pg -> toasts (run_toast_timers pg) = [].
Proof.
  intros Htimed. unfold run_toast_timers. rewrite remove_toasts.
  change (toasts (set_toast_timers [] pg)) with (toasts pg).
  assert (H : forall t, In t (toasts pg) ->
            negb (existsb (Nat.eqb (fst t)) (toast_timers pg)) = false).
  { intros t Ht. apply Htimed in Ht. apply negb_false_iff, existsb_exists.
    exists (fst t). split; [exact Ht | apply Nat.eqb_refl]. }
  induction (toasts pg) as [|t l IH]; [reflexivity|].
  cbn [List.filter]. rewrite (H t) by now left.
  apply IH. intros t' Ht'. apply H. now right.
Qed.

(** X16. No toast stays: [showToast] sets, with every toast it appends, the
    timer that removes it, so that when the timers have fired the page has no
    toast left, however many were shown. *)
Theorem toasts_are_removed (message : string) (type : option string) (pg : Page) :
  timed pg ->
  let pg' := (showToast message type pg).2 in
  timed pg' /\ toasts (run_toast_timers pg') = [].
Proof.
  intros Htimed pg'. subst pg'. unfold showToast. cbn [snd].
  assert (Hnew : timed
    (set_created (S (created pg))
       (set_toast_timers (toast_timers pg ++ [created pg])
          (set_toasts
             (toasts pg ++
              [(created pg,
                {| className := "toast " +:+ default "info" type;
                   innerHTML := "<p>" +:+ message +:+ "</p>" |})]) pg)))).
  { intros t. reduce_page. rewrite !in_app_iff. intros [Ht | [<- | []]].
    - left. now apply Htimed.
    - right. now left. }
  split; [exact Hnew | now apply run_toast_timers_empties].
Qed.

(** *** The preview *)

(** X17. The preview shows what the reader read: when the read that
    [showImagePreview] started ends with a data URL, the preview image gets
    that URL as its source and the preview is shown; when the read fails the
    page stays as it was, the preview with it.  No request is made for a
    preview. *)
Theorem preview_shows_read_result (w : World) (file : File) (st : State) :
  present st previewImg ->
  present st imagePreview ->
  reads st = [] ->
  let st' := run_reads w (showImagePreview file st).2 in
  reads st' = [] /\
  requests st' = requests st /\
  uncaught st' = uncaught st /\
  match read_result w file with
  | Some data => src_of st' previewImg = Some data /\ shown st' imagePreview
  | None => document st' = document st
  end.
Proof.
  intros [img Himg] [box Hbox] Hreads st'. subst st'.
  unfold run_reads, showImagePreview. reduce_state. rewrite Hreads.
  cbn [app fold_left]. unfold finish_read.
  destruct (read_result w file) as [data|]; [|repeat split].
  unfold reader_onload, set_src, classList_remove, bind.
  rewrite update_element_run by (now exists img). reduce_state.
  rewrite update_element_run
    by (unfold present; reduce_state; rewrite lookup_alter_is_Some; now exists box).
  reduce_state. repeat split.
  - unfold src_of. handles. lookup_dom. now rewrite Himg.
  - unfold shown. handles. lookup_dom. rewrite Hbox.
    eexists. split; [reflexivity|]. apply without_class_out.
Qed.

(** *** Rejected files *)

(** X18. A file is checked for its type first: a file of a type that is not
    allowed gets the message about the type, whatever its size, and only a
    file of an allowed type gets the message about the size.  With the
    message the results section is hidden, an earlier result with it; no
    other element is touched. *)
Theorem handleFiles_rejection_message (w : World) (file : File)
    (rest : list File) (st : State) :
  error_elements st ->
  includes allowedTypes (file_type file) = false \/ (maxSize < file_size file)%N ->
  exists st',
    handleFiles w (file :: rest) st = (Ok tt, st') /\
    text_of st' errorText =
      Some (if includes allowedTypes (file_type file)
            then size_message else type_message) /\
    hidden st' resultsSection /\
    forall n, n <> errorText -> n <> errorMessage -> n <> resultsSection ->
              document st' !! n = document st !! n.
Proof.
  intros Hel Hbad.
  set (message := if includes allowedTypes (file_type file)
                  then size_message else type_message).
  assert (Hv : validateFile file st = (showError message ;; ret false) st).
  { unfold validateFile, message.
    destruct (includes allowedTypes (file_type file)); cbn [negb]; [|reflexivity].
    destruct Hbad as [Hbad | Hbad]; [discriminate|].
    apply N.ltb_lt in Hbad. now rewrite Hbad. }
  pose proof (showError_run message st Hel) as Hrun.
  eexists. split.
  { unfold handleFiles, bind at 1. rewrite Hv. unfold bind. rewrite Hrun.
    reflexivity. }
  destruct Hel as ([t Ht] & [m Hm] & [r Hr]).
  split; [|split].
  - unfold text_of. handles. lookup_dom. now rewrite Ht.
  - unfold hidden. handles. lookup_dom. rewrite Hr.
    eexists. split; [reflexivity|]. apply with_class_in.
  - intros n H1 H2 H3. reduce_state.
    rewrite !lookup_alter_ne by congruence. reflexivity.
Qed.

(** ** The further properties on the pages of the site *)

Lemma predictXray_sends_one_request_witness :
  loading_elements diagnosis_page /\
  requests (predictXray (server (json_response 500 mock_result)) png_2KB
              diagnosis_page).2 = [predict_request png_2KB].
Proof.
  split; [apply diagnosis_page_elements|].
  apply (predictXray_sends_one_request (server (json_response 500 mock_result))
           png_2KB diagnosis_page).
  apply diagnosis_page_elements.
Defined.

Lemma predictXray_logs_cause_witness :
  (loading_elements diagnosis_page /\ present diagnosis_page errorText /\
   failure_cause (json_response 500 mock_result) =
     Some (Error "HTTP error! status: 500")) /\
  exists st',
    predictXray (server (json_response 500 mock_result)) png_2KB diagnosis_page =
      (Ok tt, st') /\
    console st' =
      [ConsoleError "Prediction error:" (LError (Error "HTTP error! status: 500"))] /\
    text_of st' errorText = Some failure_message /\
    shown st' errorMessage /\
    hidden st' resultsSection /\
    hidden st' loading /\
    localStorage st' = ∅.
Proof.
  split.
  - split; [apply diagnosis_page_elements|].
    split; [apply diagnosis_page_elements | vm_compute; reflexivity].
  - apply (predictXray_logs_cause (server (json_response 500 mock_result)) png_2KB
             diagnosis_page (Error "HTTP error! status: 500")).
    + apply diagnosis_page_elements.
    + apply diagnosis_page_elements.
    + vm_compute. reflexivity.
Defined.

Lemma checkServerStatus_decides_witness :
  document diagnosis_page !! serverStatusBadge = Some blank /\
  text_of (checkServerStatus (server (json_response 200 VNull)) diagnosis_page).2
    serverStatusBadge = Some "Offline" /\
  text_of (checkServerStatus
             (server (json_response 200 (VObj [("model_loaded", VStr "false")])))
             diagnosis_page).2
    serverStatusBadge = Some "Ready (model loaded)" /\
  text_of (checkServerStatus (server (json_response 200 (VObj []))) diagnosis_page).2
    serverStatusBadge = Some "Ready (no model)".
Proof.
  split; [reflexivity|].
  split; [|split].
  - rewrite (checkServerStatus_decides (server (json_response 200 VNull))
               diagnosis_page blank eq_refl).
    unfold text_of. cbn [snd]. reduce_state. rewrite lookup_insert_eq. reflexivity.
  - rewrite (checkServerStatus_decides
               (server (json_response 200 (VObj [("model_loaded", VStr "false")])))
               diagnosis_page blank eq_refl).
    unfold text_of. cbn [snd]. reduce_state. rewrite lookup_insert_eq. reflexivity.
  - rewrite (checkServerStatus_decides (server (json_response 200 (VObj [])))
               diagnosis_page blank eq_refl).
    unfold text_of. cbn [snd]. reduce_state. rewrite lookup_insert_eq. reflexivity.
Defined.

Lemma displayResults_throws_before_bars_witness :
  exists e st',
    (result_elements diagnosis_page /\
     displayResults truncated_result diagnosis_page = (Throw e, st')) /\
    timers st' = [] /\ untouched bar_elements diagnosis_page st'.
Proof.
  assert (H : exists e st',
            displayResults truncated_result diagnosis_page = (Throw e, st')).
  { eexists _, _. vm_compute. reflexivity. }
  destruct H as (e & st' & H). exists e, st'.
  split; [split; [apply diagnosis_page_elements | exact H]|].
  apply (displayResults_throws_before_bars truncated_result diagnosis_page st' e).
  - apply diagnosis_page_elements.
  - exact H.
Defined.

Lemma pneumonia_result_shape :
  prediction_shape pneumonia_result "Pneumonia" (of_decimal false 915 (-1))
    pneumonia_probabilities (of_decimal false 21 (-1)) (of_decimal false 915 (-1))
    (of_decimal false 64 (-1)).
Proof. repeat split. Defined.

Lemma reentrant_uploads_last_response_wins_witness :
  (loading_elements diagnosis_page /\ result_elements diagnosis_page /\
   fetch_result server_by_size (predict_request png_2KB) =
     json_response 200 mock_result /\
   fetch_result server_by_size (predict_request png_10MiB) =
     json_response 200 pneumonia_result) /\
  let uploaded :=
    ((predictXray_sync png_2KB ;; predictXray_sync png_10MiB) diagnosis_page).2 in
  let second_done := (predictXray_resume server_by_size png_10MiB uploaded).2 in
  let both_done := (predictXray_resume server_by_size png_2KB second_done).2 in
  requests uploaded = [predict_request png_2KB; predict_request png_10MiB] /\
  shown uploaded loading /\
  hidden second_done loading /\
  text_of second_done predictionText = Some "Pneumonia" /\
  text_of both_done predictionText = Some "Normal" /\
  text_of both_done confidenceText = Some "Confidence: 87.3%" /\
  shown both_done resultCard /\
  exists text1,
    serialize (VObj (obj_set "timestamp" (VStr "2026-01-01T00:00:00.000Z")
                       (spread mock_result))) = Some text1 /\
    localStorage both_done !! "lastDiagnosis" = Some text1.
Proof.
  split.
  - split; [apply diagnosis_page_elements|].
    split; [apply diagnosis_page_elements|]. split; reflexivity.
  - destruct mock_result_texts as (T1 & _).
    pose proof (reentrant_uploads_last_response_wins server_by_size png_2KB
                  png_10MiB diagnosis_page
                  {| status := 200; content := JsonBody mock_result |}
                  {| status := 200; content := JsonBody pneumonia_result |}
                  mock_result pneumonia_result "Normal" "Pneumonia"
                  (of_decimal false 873 (-1)) (of_decimal false 915 (-1))
                  mock_probabilities pneumonia_probabilities
                  (of_decimal false 42 (-1)) (of_decimal false 85 (-1))
                  (of_decimal false 873 (-1))
                  (of_decimal false 21 (-1)) (of_decimal false 915 (-1))
                  (of_decimal false 64 (-1))
                  ltac:(apply diagnosis_page_elements)
                  ltac:(apply diagnosis_page_elements)
                  eq_refl eq_refl eq_refl mock_result_shape
                  eq_refl eq_refl eq_refl pneumonia_result_shape
                  (fun _ _ => eq_refl)) as H.
    cbv zeta in H. rewrite T1 in H. exact H.
Defined.

Lemma lastDiagnosis_keeps_every_field_witness :
  wf_value mock_result /\
  exists text data st',
    (saveLastDiagnosis (server (json_response 200 mock_result)) mock_result ;;
     loadLastDiagnosis) diagnosis_page = (Ok tt, st') /\
    localStorage st' = {["lastDiagnosis" := text]} /\
    JSON_parse text = Ok data /\
    console st' = [ConsoleLog "Last diagnosis:" (LValue data)] /\
    get data "timestamp" = Ok (VStr "2026-01-01T00:00:00.000Z") /\
    forall k v,
      k <> "timestamp" ->
      get mock_result k = Ok v ->
      get data k = Ok (normalize v).
Proof.
  split; [apply mock_result_wf|].
  apply (lastDiagnosis_keeps_every_field (server (json_response 200 mock_result))
           [("predicted_class", VStr "Normal");
            ("confidence", decimal 873 (-1));
            ("probabilities", mock_probabilities)] diagnosis_page).
  - apply mock_result_wf.
  - intros text. reflexivity.
Defined.

Lemma site_state_elements :
  present site_state dropZone /\ present site_state fileInput /\
  present site_state serverStatusBadge /\ error_elements site_state /\
  present site_state previewImg /\ present site_state imagePreview.
Proof.
  unfold error_elements, present. repeat split; vm_compute; eauto.
Defined.

Lemma init_wires_page_witness :
  (listeners (fresh_page site_state) = [] /\
   present site_state dropZone /\ present site_state fileInput /\
   present site_state serverStatusBadge) /\
  exists pg',
    init (server (json_response 200 (VObj [("model_loaded", VBool true)])))
      (fresh_page site_state) = (Ok tt, pg') /\
    listeners pg' = upload_listeners ++ contact_listeners /\
    state pg' =
      (checkServerStatus
         (server (json_response 200 (VObj [("model_loaded", VBool true)])))
         (loadLastDiagnosis site_state).2).2 /\
    requests (state pg') = [status_request] /\
    localStorage (state pg') = ∅ /\
    uncaught (state pg') = [] /\
    forms pg' = {[contactForm := contact_fields]} /\ toasts pg' = [].
Proof.
  split.
  - split; [reflexivity|]. repeat split; apply site_state_elements.
  - apply (init_wires_page
             (server (json_response 200 (VObj [("model_loaded", VBool true)])))
             (fresh_page site_state)).
    + reflexivity.
    + apply site_state_elements.
    + apply site_state_elements.
    + apply site_state_elements.
Defined.

Lemma init_needs_upload_elements_witness :
  (listeners (fresh_page contact_state) = [] /\
   document contact_state !! dropZone = None /\
   present no_input_state dropZone /\
   document no_input_state !! fileInput = None) /\
  (exists msg,
     init (server (json_response 200 (VObj []))) (fresh_page contact_state) =
     (Throw (TypeError msg), fresh_page contact_state)) /\
  (exists msg,
     init (server (json_response 200 (VObj []))) (fresh_page no_input_state) =
     (Throw (TypeError msg),
      set_listeners drag_listeners (fresh_page no_input_state))).
Proof.
  assert (Hdz : present no_input_state dropZone) by (vm_compute; eauto).
  split; [|split].
  - split; [reflexivity|]. split; [reflexivity|]. split; [exact Hdz | reflexivity].
  - apply (proj1 (init_needs_upload_elements (server (json_response 200 (VObj [])))
                    (fresh_page contact_state) eq_refl)).
    reflexivity.
  - apply (proj2 (init_needs_upload_elements (server (json_response 200 (VObj [])))
                    (fresh_page no_input_state) eq_refl)).
    + exact Hdz.
    + reflexivity.
Defined.

Lemma drag_events_highlight_witness :
  (List.filter (listens (drag_event "dragover" [])) (listeners wired_page) =
     List.filter (listens (drag_event "dragover" [])) upload_listeners /\
   present (state wired_page) dropZone) /\
  dispatchEvent (server (json_response 200 mock_result))
    (drag_event "dragover" []) wired_page =
  set_flags true true
    (set_state
       (set_document
          (alter (with_class "dragover") dropZone (document site_state))
          site_state)
       wired_page).
Proof.
  split; [split; [vm_compute; reflexivity | apply site_state_elements]|].
  apply (drag_events_highlight (server (json_response 200 mock_result))
           (drag_event "dragover" []) wired_page).
  - vm_compute. reflexivity.
  - apply site_state_elements.
  - reflexivity.
  - right. left. reflexivity.
Defined.

Lemma drop_runs_handleFiles_witness :
  (List.filter (listens (drag_event "drop" [pdf])) (listeners wired_page) =
     List.filter (listens (drag_event "drop" [pdf])) upload_listeners /\
   present (state wired_page) dropZone) /\
  exists pg',
    dispatchEvent (server (json_response 200 mock_result))
      (drag_event "drop" [pdf]) wired_page = pg' /\
    defaultPrevented pg' = true /\
    text_of (state pg') errorText = Some type_message /\
    requests (state pg') = [] /\
    uncaught (state pg') = [].
Proof.
  split; [split; [vm_compute; reflexivity | apply site_state_elements]|].
  eexists. split.
  - apply (drop_runs_handleFiles (server (json_response 200 mock_result))
             (drag_event "drop" [pdf]) wired_page).
    + vm_compute. reflexivity.
    + apply site_state_elements.
    + reflexivity.
    + reflexivity.
  - repeat split; vm_compute; reflexivity.
Defined.

Lemma change_runs_handleFiles_witness :
  List.filter (listens (change_event [oversized_png])) (listeners wired_page) =
    List.filter (listens (change_event [oversized_png])) upload_listeners /\
  exists pg',
    dispatchEvent (server (json_response 200 mock_result))
      (change_event [oversized_png]) wired_page = pg' /\
    defaultPrevented pg' = false /\
    text_of (state pg') errorText = Some size_message /\
    requests (state pg') = [].
Proof.
  split; [vm_compute; reflexivity|].
  eexists. split.
  - apply (change_runs_handleFiles (server (json_response 200 mock_result))
             (change_event [oversized_png]) wired_page).
    + vm_compute. reflexivity.
    + reflexivity.
    + reflexivity.
  - repeat split; vm_compute; reflexivity.
Defined.


Lemma toasts_are_removed_witness :
  timed (fresh_page site_state) /\
  let pg' := (showToast "Message sent successfully!" (Some "success")
                (fresh_page site_state)).2 in
  timed pg' /\ toasts (run_toast_timers pg') = [].
Proof.
  assert (H : timed (fresh_page site_state)) by (intros t []).
  split; [exact H|].
  apply (toasts_are_removed "Message sent successfully!" (Some "success")
           (fresh_page site_state) H).
Defined.

Lemma preview_shows_read_result_witness :
  (present site_state previewImg /\ present site_state imagePreview /\
   reads site_state = []) /\
  let st' := run_reads (reading "data:image/png;base64,iVBORw0KGgo=")
               (showImagePreview png_2KB site_state).2 in
  reads st' = [] /\
  requests st' = [] /\
  uncaught st' = [] /\
  src_of st' previewImg = Some "data:image/png;base64,iVBORw0KGgo=" /\
  shown st' imagePreview.
Proof.
  split.
  - split; [apply site_state_elements|].
    split; [apply site_state_elements | reflexivity].
  - apply (preview_shows_read_result
             (reading "data:image/png;base64,iVBORw0KGgo=") png_2KB site_state).
    + apply site_state_elements.
    + apply site_state_elements.
    + reflexivity.
Defined.

Lemma handleFiles_rejection_message_witness :
  (error_elements diagnosis_page /\
   includes allowedTypes (file_type pdf) = false) /\
  exists st',
    handleFiles (server (json_response 200 mock_result)) [pdf] diagnosis_page =
      (Ok tt, st') /\
    text_of st' errorText = Some type_message /\
    hidden st' resultsSection /\
    forall n, n <> errorText -> n <> errorMessage -> n <> resultsSection ->
              document st' !! n = document diagnosis_page !! n.
Proof.
  split; [split; [apply diagnosis_page_elements | reflexivity]|].
  apply (handleFiles_rejection_message (server (json_response 200 mock_result))
           pdf [] diagnosis_page).
  - apply diagnosis_page_elements.
  - left. reflexivity.
Defined.
